(** * car-ai: traffic simulation and mission-control engine

    A shallow embedding of the backend's simulation core
    ([services/simulationService.ts], [rl/drivingEnv.ts],
    [rl/episodeGenerator.ts], [rl/policies/cruiseHeuristic.ts], the
    mission endpoint of [controllers/simulationController.ts] and the
    mission tail of [controllers/voiceController.ts]) together with the
    properties stated about it.

    Modelling conventions.
    - A JavaScript [number] that the code has already checked or computed
      is an exact rational ([Q]); rounding of IEEE doubles is abstracted
      away.  Where the code itself tests for non-finite values
      ([Number.isFinite], [Number.isInteger]) the value is a [JS.number],
      which adds [NaN] and the two infinities.  The speed and the position
      of a vehicle and the speeds of the player are rationals: a
      non-finite [speedMph] or [positionZ] given to [spawnVehicle], which
      the code takes as it comes, is not represented.
    - Facts that hold for rationals but not for doubles (the mph/m/s
      round trip being the identity, the gap that the spacing pass
      restores being exactly the preferred spacing) are not stated: where
      a conversion matters, the statement repeats the expression the code
      evaluates.
    - [undefined] is [None]; a field of type [T | null] that may also be
      absent is [option (option T)].
    - [Math.random()], [randomUUID()] and [Date.now()] are explicit: the
      first two are streams read through a cursor ([World]), the clock is
      an argument of the operation that reads it.
    - Objects shared by reference (the vehicles held both by
      [this.vehicles] and by the per-tick lane map) live in one store and
      are referred to by their index in it. *)

From Stdlib Require Import QArith Qround Qabs Qminmax Lqa Sorted.
From stdpp Require Import gmap list strings pretty.

Set Default Proof Using "Type".

(** ** JavaScript numbers and [Math] *)

Module JS.

Inductive number : Type :=
| Num (q : Q)
| NaN
| Infinity
| NegInfinity.

Definition isFinite (n : number) : bool :=
  match n with Num _ => true | _ => false end.

Definition isIntegerQ (q : Q) : bool := Qeq_bool (inject_Z (Qfloor q)) q.

Definition isInteger (n : number) : bool :=
  match n with Num q => isIntegerQ q | _ => false end.

Definition Qlt_bool (a b : Q) : bool := negb (Qle_bool b a).

(** [n >= q], [n < q], [n <= q] for a possibly non-finite left operand. *)
Definition geb (n : number) (q : Q) : bool :=
  match n with
  | Num p => Qle_bool q p
  | Infinity => true
  | NaN | NegInfinity => false
  end.

Definition ltb (n : number) (q : Q) : bool :=
  match n with
  | Num p => Qlt_bool p q
  | NegInfinity => true
  | NaN | Infinity => false
  end.

Definition leb (n : number) (q : Q) : bool :=
  match n with
  | Num p => Qle_bool p q
  | NegInfinity => true
  | NaN | Infinity => false
  end.

Definition max (a b : Q) : Q := Qmax a b.
Definition min (a b : Q) : Q := Qmin a b.
Definition abs (a : Q) : Q := Qabs a.
Definition floor (a : Q) : Q := inject_Z (Qfloor a).
Definition round (a : Q) : Q := inject_Z (Qfloor (a + (1 # 2))).
Definition sign (a : Q) : Q := inject_Z (Z.sgn (Qnum a)).

(** [xs[i]] for an array and a numeric index: defined only at an integer
    index inside the array. *)
Definition index {A} (xs : list A) (i : Q) : option A :=
  if isIntegerQ i && Qle_bool 0 i then xs !! Z.to_nat (Qfloor i) else None.

Definition indexN {A} (xs : list A) (n : number) : option A :=
  match n with Num q => index xs q | _ => None end.

End JS.

(** ** Source of randomness and identifiers *)

Record World : Type := mkWorld {
  randoms : nat -> Q;      (* successive results of [Math.random()] *)
  rcursor : nat;
  uuids : nat -> string;   (* successive results of [randomUUID()] *)
  ucursor : nat;
  ints : nat -> Z;         (* successive results of [crypto.randomInt] *)
  icursor : nat
}.

Definition Eff (A : Type) : Type := World -> A * World.

Definition ret {A} (a : A) : Eff A := fun w => (a, w).
Definition bind {A B} (m : Eff A) (k : A -> Eff B) : Eff B :=
  fun w => let '(a, w') := m w in k a w'.

Declare Scope eff_scope.
Delimit Scope eff_scope with eff.
Notation "x <- m ;; k" := (bind m (fun x => k))
  (at level 100, m at next level, right associativity) : eff_scope.

Definition Math_random : Eff Q :=
  fun w => (randoms w (rcursor w),
            mkWorld (randoms w) (S (rcursor w)) (uuids w) (ucursor w)
                    (ints w) (icursor w)).

Definition randomUUID : Eff string :=
  fun w => (uuids w (ucursor w),
            mkWorld (randoms w) (rcursor w) (uuids w) (S (ucursor w))
                    (ints w) (icursor w)).

Definition randomInt : Eff Z :=
  fun w => (ints w (icursor w),
            mkWorld (randoms w) (rcursor w) (uuids w) (ucursor w)
                    (ints w) (S (icursor w))).

(** [for x of xs] with an effectful body and an accumulator. *)
Fixpoint forEachM {A S} (body : A -> S -> Eff S) (xs : list A) (s : S) : Eff S :=
  match xs with
  | [] => ret s
  | x :: xs' => bind (body x s) (forEachM body xs')
  end.

(** ** [Array.prototype.sort]

    A stable insertion sort with a comparator [cmp], where [le a b] says
    [cmp(a, b) <= 0]. *)
Fixpoint insertBy {A} (le : A -> A -> bool) (x : A) (l : list A) : list A :=
  match l with
  | [] => [x]
  | y :: l' => if le x y then x :: y :: l' else y :: insertBy le x l'
  end.

Definition sortBy {A} (le : A -> A -> bool) (l : list A) : list A :=
  foldr (insertBy le) [] l.

(** ** Results of operations that may throw *)

Inductive result (E A : Type) : Type :=
| Ok (a : A)
| Throw (e : E).
Arguments Ok {E A} a.
Arguments Throw {E A} e.

Definition rbind {E A B} (r : result E A) (k : A -> result E B) : result E B :=
  match r with Ok a => k a | Throw e => Throw e end.

Declare Scope result_scope.
Delimit Scope result_scope with result.
Notation "x <-? r ;; k" := (rbind r (fun x => k))
  (at level 100, r at next level, right associativity) : result_scope.

(** ** [models/simulation.ts] *)

Module Models.

Inductive LaneType := general | express | exit | carpool.
Inductive VehicleKind := sedan | suv | truck | motorcycle.
Inductive TrafficBehaviorProfile := steady | assertive | cautious.

Module LaneDefinition.
Record t := mk { index : Z; type : LaneType; speedLimitMph : Q }.
End LaneDefinition.

Module TrafficLaneProfile.
Record t := mk {
  laneIndex : Z;
  type : LaneType;
  targetSpeedMph : Q;
  minSpeedMph : Q;
  maxSpeedMph : Q;
  preferredSpacingMeters : Q;
  spawnRatePerMinute : Q
}.
End TrafficLaneProfile.

Module VehicleSnapshot.
Record t := mk {
  id : string;
  laneIndex : Z;
  position : Q * Q * Q;
  speedMps : Q;
  speedMph : Q;
  lengthMeters : Q;
  widthMeters : Q;
  type : VehicleKind;
  behavior : TrafficBehaviorProfile
}.
End VehicleSnapshot.

Module PlayerSnapshot.
Record t := mk {
  id : string;
  laneIndex : Q;
  position : Q * Q * Q;
  speedMps : Q;
  speedMph : Q;
  lengthMeters : Q;
  widthMeters : Q;
  type : VehicleKind;
  behavior : TrafficBehaviorProfile;
  steerAngleDeg : Q;
  accelerationMps2 : Q
}.
End PlayerSnapshot.

Module DrivingMissionSnapshot.
Record t := mk {
  targetLaneIndex : option Q;            (* number | null *)
  cruiseTargetSpeedMph : Q;
  cruiseGapMeters : Q;
  mode : string;
  returnLaneIndex : option Q;
  laneChangeDirection : option string;
  source : string;
  note : option string;
  updatedAt : Z
}.
End DrivingMissionSnapshot.

Module DrivingMissionUpdate.
Record t := mk {
  targetLaneIndex : option (option JS.number);
  cruiseTargetSpeedMph : option JS.number;
  cruiseGapMeters : option JS.number;
  source : option string;
  note : option string;
  mode : option string;
  returnLaneIndex : option (option JS.number);
  laneChangeDirection : option (option string)
}.
Definition empty : t := mk None None None None None None None None.
End DrivingMissionUpdate.

Module SimulationSnapshot.
Record t := mk {
  timestamp : Z;
  sceneId : string;
  lanes : list TrafficLaneProfile.t;
  player : PlayerSnapshot.t;
  vehicles : list VehicleSnapshot.t;
  mission : DrivingMissionSnapshot.t;
  collision : bool
}.
End SimulationSnapshot.

Module DrivingObservation.
Record t := mk {
  laneIndex : Q;
  laneOffsetMeters : Q;
  speedMps : Q;
  targetSpeedMps : Q;
  cruiseTargetSpeedMps : Q;
  cruiseGapMeters : Q;
  gapAheadMeters : Q;
  gapBehindMeters : Q;
  relativeSpeedAheadMps : Q;
  relativeSpeedBehindMps : Q;
  targetLaneIndex : option Q;
  missionMode : string;
  returnLaneIndex : option (option Q)      (* absent, null or a number *)
}.
End DrivingObservation.

Module DrivingAction.
Record t := mk {
  lateral : Q;
  acceleration : Q;
  brake : Q;
  requestedLaneIndex : option Q
}.
End DrivingAction.

Module RewardBreakdown.
Record t := mk {
  progress : Q;
  laneKeeping : Q;
  comfort : Q;
  ruleCompliance : Q;
  cruiseTracking : Q;
  gapKeeping : Q;
  collisionPenalty : Q;
  total : Q
}.
End RewardBreakdown.

End Models.

(** ** [services/simulationService.ts]: the live engine *)

Module Sim.
Import Models.
Local Open Scope Q_scope.

Definition MPH_TO_MPS : Q := 0.44704.
Definition DESPAWN_DISTANCE_METERS : Q := 2200.
Definition RESPAWN_OFFSET_METERS : Q := -800.
Definition LANE_WIDTH_METERS : Q := 3.6.

Definition mphToMps (mph : Q) : Q := mph * MPH_TO_MPS.
Definition mpsToMph (mps : Q) : Q := mps / MPH_TO_MPS.

Definition buildLane (index : Z) (type : LaneType) (speedLimitMph : Q)
  : LaneDefinition.t :=
  LaneDefinition.mk index type speedLimitMph.

(** The active scene, [scenes[0]] (California US-101 southbound). *)
Definition coastal101Scene_lanes : list LaneDefinition.t :=
  [ buildLane 0 express 65; buildLane 1 carpool 65; buildLane 2 general 60;
    buildLane 3 general 60; buildLane 4 general 55 ].

(** [LANE_TYPE_PROFILES]: target speed range, density per mile, preferred
    spacing. *)
Definition LANE_TYPE_PROFILES (type : LaneType) : (Q * Q) * Q * Q :=
  match type with
  | express => ((66, 74), 18, 45)
  | carpool => ((60, 70), 20, 38)
  | general => ((50, 63), 28, 32)
  | exit => ((25, 40), 14, 28)
  end.

(** [VEHICLE_DIMENSIONS]: kind, length, width. *)
Definition VEHICLE_DIMENSIONS : list (VehicleKind * Q * Q) :=
  [ (sedan, 4.5, 1.8); (suv, 4.9, 2); (truck, 6.5, 2.5); (motorcycle, 2.2, 0.8) ].

Definition BEHAVIOR_PROFILES : list TrafficBehaviorProfile :=
  [ steady; assertive; cautious ].

Record TrafficVehicleState := mkVehicle {
  id : string;
  laneIndex : Z;
  positionZ : Q;
  speedMps : Q;
  targetSpeedMps : Q;
  type : VehicleKind;
  behavior : TrafficBehaviorProfile;
  lengthMeters : Q;
  widthMeters : Q
}.

Definition set_laneIndex (l : Z) (v : TrafficVehicleState) :=
  mkVehicle (id v) l (positionZ v) (speedMps v) (targetSpeedMps v) (type v)
            (behavior v) (lengthMeters v) (widthMeters v).
Definition set_positionZ (z : Q) (v : TrafficVehicleState) :=
  mkVehicle (id v) (laneIndex v) z (speedMps v) (targetSpeedMps v) (type v)
            (behavior v) (lengthMeters v) (widthMeters v).
Definition set_speedMps (x : Q) (v : TrafficVehicleState) :=
  mkVehicle (id v) (laneIndex v) (positionZ v) x (targetSpeedMps v) (type v)
            (behavior v) (lengthMeters v) (widthMeters v).
Definition set_targetSpeedMps (x : Q) (v : TrafficVehicleState) :=
  mkVehicle (id v) (laneIndex v) (positionZ v) (speedMps v) x (type v)
            (behavior v) (lengthMeters v) (widthMeters v).

(** [pickRandom]: [values[Math.floor(Math.random() * values.length)]].
    [Math.random()] lies in [[0, 1)], which keeps the index inside a
    non-empty array; [d] stands for the [undefined] read otherwise. *)
Definition pickRandom {A} (d : A) (values : list A) : Eff A :=
  (r <- Math_random;;
   ret (default d (values !! Z.to_nat (Qfloor (r * inject_Z (Z.of_nat (length values)))))))%eff.

Definition randBetween (lo hi : Q) : Eff Q :=
  (r <- Math_random;; ret (lo + r * (hi - lo)))%eff.

Definition randomBias (b : TrafficBehaviorProfile) : Q :=
  match b with
  | assertive => 1.08
  | cautious => 0.92
  | steady => 1
  end.

(** The service instance: the fields of [SimulationService]. *)
Record t := mk {
  sceneLanes : list LaneDefinition.t;       (* layout.activeScene.lanes *)
  laneProfiles : list TrafficLaneProfile.t;
  vehicles : list TrafficVehicleState;
  player : PlayerSnapshot.t;
  mission : DrivingMissionSnapshot.t;
  lastTick : Z
}.

Definition set_vehicles (vs : list TrafficVehicleState) (s : t) : t :=
  mk (sceneLanes s) (laneProfiles s) vs (player s) (mission s) (lastTick s).
Definition set_player (p : PlayerSnapshot.t) (s : t) : t :=
  mk (sceneLanes s) (laneProfiles s) (vehicles s) p (mission s) (lastTick s).
Definition set_mission (m : DrivingMissionSnapshot.t) (s : t) : t :=
  mk (sceneLanes s) (laneProfiles s) (vehicles s) (player s) m (lastTick s).
Definition set_lastTick (n : Z) (s : t) : t :=
  mk (sceneLanes s) (laneProfiles s) (vehicles s) (player s) (mission s) n.

Definition buildLaneProfiles (lanes : list LaneDefinition.t)
  : list TrafficLaneProfile.t :=
  map (fun lane =>
         let '(range, density, spacing) :=
           LANE_TYPE_PROFILES (LaneDefinition.type lane) in
         let '(minTarget, maxTarget) := range in
         let avgSpeed := (minTarget + maxTarget) / 2 in
         let spawnRatePerMinute := JS.max 4 (density * 0.6) in
         TrafficLaneProfile.mk (LaneDefinition.index lane)
           (LaneDefinition.type lane) avgSpeed minTarget maxTarget spacing
           spawnRatePerMinute)
      lanes.

Definition getLaneCenter (s : t) (laneIndex : Q) : Q :=
  let laneCount := inject_Z (Z.of_nat (length (sceneLanes s))) in
  if Qle_bool laneCount 0 then 0
  else
    let centerIndex := (laneCount - 1) / 2 in
    (laneIndex - centerIndex) * LANE_WIDTH_METERS.

Definition getLaneCount (s : t) : nat := length (laneProfiles s).

(** [this.laneProfiles[laneIndex]] at an integer index. *)
Definition laneProfileAt (profiles : list TrafficLaneProfile.t) (laneIndex : Z)
  : option TrafficLaneProfile.t :=
  if (0 <=? laneIndex)%Z then profiles !! Z.to_nat laneIndex else None.

Definition createInitialPlayer (s : t) : PlayerSnapshot.t :=
  let speedMph := 58 in
  let laneIndex := 0 in
  PlayerSnapshot.mk "player" laneIndex (getLaneCenter s laneIndex, 0, 0)
    (mphToMps speedMph) speedMph 4.5 1.8 sedan steady 0 0.

(** *** Mission state machine *)

Inductive MissionError : Type :=
| InvalidLaneIndex (n : JS.number)
| InvalidCruiseTargetSpeedMph
| InvalidCruiseGapMeters
| InvalidReturnLaneIndex (n : JS.number)
| InvalidMissionMode (m : string)
| InvalidLaneChangeDirection.

Definition validModes : list string :=
  [ "hold"; "cruise"; "lane_change"; "overtake" ]%string.
Definition validDirections : list string := [ "left"; "right" ]%string.

Definition includes (xs : list string) (x : string) : bool :=
  bool_decide (x ∈ xs).

Definition getMission (s : t) : DrivingMissionSnapshot.t := mission s.

(** The lane-index test shared by [targetLaneIndex] and
    [returnLaneIndex]: an integer in [[0, laneProfiles.length)]. *)
Definition laneIndexOk (s : t) (n : JS.number) : bool :=
  JS.isInteger n && JS.geb n 0
  && JS.ltb n (inject_Z (Z.of_nat (length (laneProfiles s)))).

Definition numberValue (n : JS.number) : Q :=
  match n with JS.Num q => q | _ => 0 end.

(** [updateMission]: builds [next] from a copy of the mission, field by
    field; the first failing check throws before [this.mission] is
    assigned. *)
Definition validateMission (s : t) (now : Z) (update : DrivingMissionUpdate.t)
  : result MissionError DrivingMissionSnapshot.t :=
  let cur := mission s in
  (targetLaneIndex <-?
     match DrivingMissionUpdate.targetLaneIndex update with
     | None => Ok (DrivingMissionSnapshot.targetLaneIndex cur)
     | Some None => Ok None
     | Some (Some n) =>
         if laneIndexOk s n then Ok (Some (numberValue n))
         else Throw (InvalidLaneIndex n)
     end;;
   cruiseTargetSpeedMph <-?
     match DrivingMissionUpdate.cruiseTargetSpeedMph update with
     | None => Ok (DrivingMissionSnapshot.cruiseTargetSpeedMph cur)
     | Some n =>
         let minSpeed := 25 in
         let maxSpeed := 95 in
         if negb (JS.isFinite n) then Throw InvalidCruiseTargetSpeedMph
         else Ok (JS.max minSpeed (JS.min maxSpeed (numberValue n)))
     end;;
   cruiseGapMeters <-?
     match DrivingMissionUpdate.cruiseGapMeters update with
     | None => Ok (DrivingMissionSnapshot.cruiseGapMeters cur)
     | Some n =>
         if negb (JS.isFinite n) || JS.leb n 0 then Throw InvalidCruiseGapMeters
         else
           let minGap := 8 in
           let maxGap := 120 in
           Ok (JS.max minGap (JS.min maxGap (numberValue n)))
     end;;
   returnLaneIndex <-?
     match DrivingMissionUpdate.returnLaneIndex update with
     | None => Ok (DrivingMissionSnapshot.returnLaneIndex cur)
     | Some None => Ok None
     | Some (Some n) =>
         if laneIndexOk s n then Ok (Some (numberValue n))
         else Throw (InvalidReturnLaneIndex n)
     end;;
   mode <-?
     match DrivingMissionUpdate.mode update with
     | None => Ok (DrivingMissionSnapshot.mode cur)
     | Some m =>
         if negb (includes validModes m) then Throw (InvalidMissionMode m)
         else Ok m
     end;;
   laneChangeDirection <-?
     match DrivingMissionUpdate.laneChangeDirection update with
     | None => Ok (DrivingMissionSnapshot.laneChangeDirection cur)
     | Some None => Ok None
     | Some (Some d) =>
         if negb (includes validDirections d) then Throw InvalidLaneChangeDirection
         else Ok (Some d)
     end;;
   let source :=
     match DrivingMissionUpdate.source update with
     | Some src => if bool_decide (src = ""%string)
                   then DrivingMissionSnapshot.source cur else src
     | None => DrivingMissionSnapshot.source cur
     end in
   let note :=
     match DrivingMissionUpdate.note update with
     | Some n => Some n
     | None => DrivingMissionSnapshot.note cur
     end in
   Ok (DrivingMissionSnapshot.mk targetLaneIndex cruiseTargetSpeedMph
         cruiseGapMeters mode returnLaneIndex laneChangeDirection source note
         now))%result.

(** The call as the caller sees it: the mission it returns (or the error
    it throws) and the service afterwards. *)
Definition updateMission (s : t) (now : Z) (update : DrivingMissionUpdate.t)
  : result MissionError DrivingMissionSnapshot.t * t :=
  match validateMission s now update with
  | Ok next => (Ok next, set_mission next s)
  | Throw e => (Throw e, s)
  end.

(** *** Player overrides *)

(** [Partial<PlayerSnapshot> & { positionZ?: number }]. *)
Module PlayerPatch.
Record t := mk {
  laneIndex : option Q;
  position : option (Q * Q * Q);
  speedMps : option Q;
  speedMph : option Q;
  lengthMeters : option Q;
  widthMeters : option Q;
  steerAngleDeg : option Q;
  accelerationMps2 : option Q;
  positionZ : option Q
}.
Definition empty : t := mk None None None None None None None None None.
End PlayerPatch.

Definition getPlayerState (s : t) : PlayerSnapshot.t := player s.

Definition updatePlayerState (s : t) (partial : PlayerPatch.t) : t :=
  let cur := player s in
  let laneIndex := default (PlayerSnapshot.laneIndex cur) (PlayerPatch.laneIndex partial) in
  let '(speedMps, speedMph) :=
    match PlayerPatch.speedMps partial, PlayerPatch.speedMph partial with
    | Some mps, _ => (mps, mpsToMph mps)
    | None, Some mph => (mphToMps mph, mph)
    | None, None => (PlayerSnapshot.speedMps cur, PlayerSnapshot.speedMph cur)
    end in
  let position0 := default (PlayerSnapshot.position cur) (PlayerPatch.position partial) in
  let position1 :=
    match PlayerPatch.positionZ partial with
    | Some z => (getLaneCenter s laneIndex, snd (fst position0), z)
    | None => position0
    end in
  let position2 :=
    match PlayerPatch.laneIndex partial with
    | Some l => (getLaneCenter s l, snd (fst position1), snd position1)
    | None => position1
    end in
  set_player
    (PlayerSnapshot.mk "player" laneIndex position2 speedMps speedMph
       (default (PlayerSnapshot.lengthMeters cur) (PlayerPatch.lengthMeters partial))
       (default (PlayerSnapshot.widthMeters cur) (PlayerPatch.widthMeters partial))
       sedan steady
       (default (PlayerSnapshot.steerAngleDeg cur) (PlayerPatch.steerAngleDeg partial))
       (default (PlayerSnapshot.accelerationMps2 cur) (PlayerPatch.accelerationMps2 partial)))
    s.

(** *** Spawning and snapshots *)

(** The argument of [spawnVehicle].  [speedMph] and [positionZ] are
    finite numbers here; the code does not check them. *)
Module SpawnInput.
Record t := mk {
  laneIndex : JS.number;
  speedMph : option Q;
  positionZ : option Q;
  type : option VehicleKind;
  behavior : option TrafficBehaviorProfile
}.
End SpawnInput.

Inductive SpawnError : Type :=
| SpawnInvalidLaneIndex (n : JS.number).

(** The body of [spawnVehicle] once [laneProfile] has been found: draws the
    footprint, the behaviour (when not given), the base speed and the id,
    and pushes the new vehicle. *)
Definition spawnInLane (s : t) (laneProfile : TrafficLaneProfile.t)
    (lane : Z) (input : SpawnInput.t) : Eff (string * t) :=
  (dims <- pickRandom (sedan, 4.5, 1.8) VEHICLE_DIMENSIONS;;
   behavior <- match SpawnInput.behavior input with
               | Some b => ret b
               | None => pickRandom steady BEHAVIOR_PROFILES
               end;;
   baseSpeedMph <- randBetween (TrafficLaneProfile.minSpeedMph laneProfile)
                               (TrafficLaneProfile.maxSpeedMph laneProfile);;
   let bias := randomBias behavior in
   let targetSpeedMph := default (baseSpeedMph * bias) (SpawnInput.speedMph input) in
   ident <- randomUUID;;
   let state :=
     mkVehicle ident lane
       (default RESPAWN_OFFSET_METERS (SpawnInput.positionZ input))
       (mphToMps targetSpeedMph) (mphToMps targetSpeedMph)
       (default (fst (fst dims)) (SpawnInput.type input))
       behavior (snd (fst dims)) (snd dims) in
   ret (ident, set_vehicles (vehicles s ++ [state]) s))%eff.

Definition spawnVehicle (s : t) (input : SpawnInput.t)
  : Eff (result SpawnError string * t) :=
  match JS.indexN (laneProfiles s) (SpawnInput.laneIndex input) with
  | None => ret (Throw (SpawnInvalidLaneIndex (SpawnInput.laneIndex input)), s)
  | Some laneProfile =>
      (r <- spawnInLane s laneProfile
              (Qfloor (numberValue (SpawnInput.laneIndex input))) input;;
       ret (Ok (fst r), snd r))%eff
  end.

Definition vehicleSnapshot (s : t) (vehicle : TrafficVehicleState) : VehicleSnapshot.t :=
  VehicleSnapshot.mk (id vehicle) (laneIndex vehicle)
    (getLaneCenter s (inject_Z (laneIndex vehicle)), 0, positionZ vehicle)
    (speedMps vehicle) (mpsToMph (speedMps vehicle))
    (lengthMeters vehicle) (widthMeters vehicle) (type vehicle) (behavior vehicle).

Definition getSnapshot (s : t) (now : Z) : SimulationSnapshot.t :=
  let p := player s in
  SimulationSnapshot.mk now "california-101" (laneProfiles s)
    (PlayerSnapshot.mk (PlayerSnapshot.id p) (PlayerSnapshot.laneIndex p)
       (getLaneCenter s (PlayerSnapshot.laneIndex p), 0, snd (PlayerSnapshot.position p))
       (PlayerSnapshot.speedMps p) (PlayerSnapshot.speedMph p)
       (PlayerSnapshot.lengthMeters p) (PlayerSnapshot.widthMeters p)
       (PlayerSnapshot.type p) (PlayerSnapshot.behavior p)
       (PlayerSnapshot.steerAngleDeg p) (PlayerSnapshot.accelerationMps2 p))
    (map (vehicleSnapshot s) (vehicles s))
    (mission s)
    false.

(** [seedTraffic]: per lane of the scene, [max(1, round(spawnRate/60*4))]
    vehicles at random positions in [[-400, 900)]. *)
Definition seedOne (profile : TrafficLaneProfile.t) (lane : Z) (s : t) : Eff t :=
  (zPosition <- randBetween (-400) 900;;
   speedMph <- randBetween (TrafficLaneProfile.minSpeedMph profile)
                           (TrafficLaneProfile.maxSpeedMph profile);;
   behavior <- pickRandom steady BEHAVIOR_PROFILES;;
   r <- spawnInLane s profile lane
          (SpawnInput.mk (JS.Num (inject_Z lane)) (Some speedMph) (Some zPosition)
             None (Some behavior));;
   ret (snd r))%eff.

Definition seedLane (lane : LaneDefinition.t) (s : t) : Eff t :=
  match laneProfileAt (laneProfiles s) (LaneDefinition.index lane) with
  | None => ret s
  | Some profile =>
      let vehiclesPerKm := TrafficLaneProfile.spawnRatePerMinute profile / 60 in
      let seedCount := JS.max 1 (JS.round (vehiclesPerKm * 4)) in
      forEachM (fun _ => seedOne profile (LaneDefinition.index lane))
               (seq 0 (Z.to_nat (Qceiling seedCount))) s
  end.

Definition seedTraffic (s : t) : Eff t :=
  forEachM seedLane (sceneLanes s) s.

Definition resetTraffic (s : t) : Eff t :=
  seedTraffic (set_vehicles [] s).

(** The constructor: scene 0, its lane profiles, the initial player and
    mission, seeded traffic, and the clock of the first tick. *)
Definition create (now : Z) : Eff t :=
  let s0 := mk coastal101Scene_lanes (buildLaneProfiles coastal101Scene_lanes) []
               (PlayerSnapshot.mk "player" 0 (0, 0, 0) 0 0 0 0 sedan steady 0 0)
               (DrivingMissionSnapshot.mk None 0 0 "" None None "" None 0) 0 in
  let player := createInitialPlayer s0 in
  let mission :=
    DrivingMissionSnapshot.mk (Some (PlayerSnapshot.laneIndex player)) 65 32
      "cruise" None None "system" None now in
  (s <- seedTraffic (set_mission mission (set_player player s0));;
   ret (set_lastTick now s))%eff.

(** *** The tick

    During a tick the vehicles are shared between [this.vehicles] and the
    arrays of [laneMap]; a vehicle is named by its index in the store
    [vs] (the contents of [this.vehicles]), and an array of the lane map
    is a list of such indices. *)

Abbreviation Store := (list TrafficVehicleState).

Definition posOf (vs : Store) (i : nat) : Q :=
  match vs !! i with Some v => positionZ v | None => 0 end.

(** [(a, b) => a.positionZ - b.positionZ] and
    [(a, b) => b.positionZ - a.positionZ]. *)
Definition sortAscending (vs : Store) : list nat -> list nat :=
  sortBy (fun a b => Qle_bool (posOf vs a) (posOf vs b)).
Definition sortDescending (vs : Store) : list nat -> list nat :=
  sortBy (fun a b => Qle_bool (posOf vs b) (posOf vs a)).

(** The first loop of [step]: relax the speed towards the jittered target,
    integrate the position, and file the vehicle under its lane. *)
Definition advanceVehicle (profiles : list TrafficLaneProfile.t) (dt : Q)
    (i : nat) (st : Store * gmap Z (list nat)) : Eff (Store * gmap Z (list nat)) :=
  let '(vs, laneMap) := st in
  match vs !! i with
  | None => ret st
  | Some vehicle =>
      match laneProfileAt profiles (laneIndex vehicle) with
      | None => ret st
      | Some laneProfile =>
          let behaviorBias := randomBias (behavior vehicle) in
          let minSpeedMps := mphToMps (TrafficLaneProfile.minSpeedMph laneProfile) * behaviorBias in
          let maxSpeedMps := mphToMps (TrafficLaneProfile.maxSpeedMph laneProfile) * behaviorBias in
          (jitter <- randBetween (-1) 1;;
           let desiredSpeed :=
             JS.max minSpeedMps (JS.min maxSpeedMps (targetSpeedMps vehicle + jitter * 0.4)) in
           let speed1 := speedMps vehicle + (desiredSpeed - speedMps vehicle) * JS.min 1 (dt * 1.4) in
           let speed2 := JS.max minSpeedMps (JS.min maxSpeedMps speed1) in
           let vehicle' :=
             set_positionZ (positionZ vehicle + speed2 * dt) (set_speedMps speed2 vehicle) in
           let laneVehicles := default [] (laneMap !! laneIndex vehicle) in
           ret (<[i := vehicle']> vs,
                <[laneIndex vehicle := laneVehicles ++ [i]]> laneMap))%eff
      end
  end.

Definition gapBetween (front back : TrafficVehicleState) : Q :=
  positionZ front - positionZ back - lengthMeters front * 0.5 - lengthMeters back * 0.5.

(** [findNeighbors]: the closest vehicle of the array at or ahead of
    [vehicle], and the closest strictly behind it; [self] is the index of
    [vehicle] (the [candidate === vehicle] test). *)
Definition findNeighbors (vs : Store) (laneVehicles : list nat) (self : nat)
    (vehicle : TrafficVehicleState) : option nat * option nat :=
  fold_left
    (fun (acc : option nat * option nat) candidate =>
       let '(ahead, behind) := acc in
       if bool_decide (candidate = self) then acc
       else if Qle_bool (positionZ vehicle) (posOf vs candidate) then
         match ahead with
         | None => (Some candidate, behind)
         | Some a => if JS.Qlt_bool (posOf vs candidate) (posOf vs a)
                     then (Some candidate, behind) else acc
         end
       else
         match behind with
         | None => (ahead, Some candidate)
         | Some b => if JS.Qlt_bool (posOf vs b) (posOf vs candidate)
                     then (ahead, Some candidate) else acc
         end)
    laneVehicles (None, None).

(** A gap to an optional neighbour; [Number.POSITIVE_INFINITY] without one. *)
Definition gapAheadOf (vs : Store) (vehicle : TrafficVehicleState) (ahead : option nat)
  : JS.number :=
  match ahead ≫= (vs !!.) with
  | Some a => JS.Num (gapBetween a vehicle)
  | None => JS.Infinity
  end.
Definition gapBehindOf (vs : Store) (vehicle : TrafficVehicleState) (behind : option nat)
  : JS.number :=
  match behind ≫= (vs !!.) with
  | Some b =>
      JS.Num (positionZ vehicle - positionZ b
              - lengthMeters b * 0.5 - lengthMeters vehicle * 0.5)
  | None => JS.Infinity
  end.

(** [a > b] and [a + q] on numbers that may be infinite. *)
Definition gtbN (a b : JS.number) : bool :=
  match a, b with
  | JS.NaN, _ | _, JS.NaN => false
  | JS.Num p, JS.Num q => JS.Qlt_bool q p
  | JS.Infinity, JS.Infinity => false
  | JS.Infinity, _ => true
  | JS.NegInfinity, _ => false
  | JS.Num _, JS.NegInfinity => true
  | JS.Num _, JS.Infinity => false
  end.
Definition addN (a : JS.number) (q : Q) : JS.number :=
  match a with JS.Num p => JS.Num (p + q) | _ => a end.

(** The two gaps of [vehicle] in candidate lane [lane], as the gate of
    [evaluateLaneChange] measures them. *)
Definition candidateGaps (vs : Store) (laneMap : gmap Z (list nat)) (self : nat)
    (vehicle : TrafficVehicleState) (lane : Z) : JS.number * JS.number :=
  let laneVehicles := default [] (laneMap !! lane) in
  let neighbors := findNeighbors vs laneVehicles self vehicle in
  (gapAheadOf vs vehicle (fst neighbors), gapBehindOf vs vehicle (snd neighbors)).

(** The [candidateLanes.forEach] of [evaluateLaneChange]: the safety gate
    and the running best score. *)
Definition considerCandidate (profiles : list TrafficLaneProfile.t) (vs : Store)
    (laneMap : gmap Z (list nat)) (self : nat) (vehicle : TrafficVehicleState)
    (currentProfile : TrafficLaneProfile.t)
    (acc : option Z * JS.number) (lane : Z) : option Z * JS.number :=
  let '(chosenLane, chosenScore) := acc in
  match laneProfileAt profiles lane with
  | None => acc
  | Some targetProfile =>
      let '(gapAheadTarget, gapBehindTarget) := candidateGaps vs laneMap self vehicle lane in
      let minGap := TrafficLaneProfile.preferredSpacingMeters targetProfile * 0.85 in
      if JS.ltb gapAheadTarget minGap || JS.ltb gapBehindTarget minGap then acc
      else
        let targetSpeedMps := mphToMps (TrafficLaneProfile.targetSpeedMph targetProfile) in
        let currentSpeedMps := mphToMps (TrafficLaneProfile.targetSpeedMph currentProfile) in
        let speedGain := targetSpeedMps - currentSpeedMps in
        let score := addN gapAheadTarget (speedGain * 12) in
        if gtbN score chosenScore then (Some lane, score) else acc
  end.

Definition candidateLanes (profiles : list TrafficLaneProfile.t) (lane : Z) : list Z :=
  filter (fun l => (0 <= l)%Z ∧ (l < Z.of_nat (length profiles))%Z)
         [ (lane - 1)%Z; (lane + 1)%Z ].

Definition chooseLane (profiles : list TrafficLaneProfile.t) (vs : Store)
    (laneMap : gmap Z (list nat)) (self : nat) (vehicle : TrafficVehicleState)
    (currentProfile : TrafficLaneProfile.t) : option Z :=
  fst (fold_left (considerCandidate profiles vs laneMap self vehicle currentProfile)
                 (candidateLanes profiles (laneIndex vehicle))
                 (None, JS.NegInfinity)).

(** [sourceArray.splice(sourceArray.indexOf(vehicle), 1)]. *)
Fixpoint removeFirst (x : nat) (l : list nat) : list nat :=
  match l with
  | [] => []
  | y :: l' => if bool_decide (y = x) then l' else y :: removeFirst x l'
  end.

Definition evaluateLaneChange (profiles : list TrafficLaneProfile.t) (self : nat)
    (st : Store * gmap Z (list nat)) : Eff (Store * gmap Z (list nat)) :=
  let '(vs, laneMap) := st in
  match vs !! self with
  | None => ret st
  | Some vehicle =>
      match laneMap !! laneIndex vehicle, laneProfileAt profiles (laneIndex vehicle) with
      | Some currentLaneVehicles, Some currentProfile =>
          let ahead := fst (findNeighbors vs currentLaneVehicles self vehicle) in
          let gapAhead := gapAheadOf vs vehicle ahead in
          let maxLaneSpeedMps := mphToMps (TrafficLaneProfile.maxSpeedMph currentProfile) in
          let comfortableGap := TrafficLaneProfile.preferredSpacingMeters currentProfile * 0.65 in
          if gtbN gapAhead (JS.Num comfortableGap)
             && Qle_bool (speedMps vehicle) (maxLaneSpeedMps * 0.98)
          then ret st
          else
            match chooseLane profiles vs laneMap self vehicle currentProfile with
            | None => ret st
            | Some chosenLane =>
                let sourceArray := sortAscending vs (removeFirst self currentLaneVehicles) in
                let laneMap1 := <[laneIndex vehicle := sourceArray]> laneMap in
                let targetProfile := laneProfileAt profiles chosenLane in
                (nudge <- randBetween (-3) 3;;
                 let moved :=
                   set_positionZ (positionZ vehicle + nudge) (set_laneIndex chosenLane vehicle) in
                 let moved1 :=
                   match targetProfile with
                   | Some p => set_targetSpeedMps (mphToMps (TrafficLaneProfile.targetSpeedMph p)) moved
                   | None => moved
                   end in
                 let vs1 := <[self := moved1]> vs in
                 let targetArray :=
                   sortAscending vs1 (default [] (laneMap1 !! chosenLane) ++ [self]) in
                 let laneMap2 := <[chosenLane := targetArray]> laneMap1 in
                 match targetProfile with
                 | Some p =>
                     desiredMph <- randBetween (TrafficLaneProfile.minSpeedMph p)
                                               (TrafficLaneProfile.maxSpeedMph p);;
                     ret (<[self := set_targetSpeedMps (mphToMps desiredMph) moved1]> vs1,
                          laneMap2)
                 | None => ret (vs1, laneMap2)
                 end)%eff
            end
      | _, _ => ret st
      end
  end.

Definition handleLaneChanges (profiles : list TrafficLaneProfile.t)
    (st : Store * gmap Z (list nat)) : Eff (Store * gmap Z (list nat)) :=
  let '(vs, laneMap) := st in
  forEachM (evaluateLaneChange profiles) (seq 0 (length vs))
           (vs, sortAscending vs <$> laneMap).

(** The spacing loop of one lane, over the array sorted lead first:
    [lead] is [laneVehicles[i - 1]], the head of [rest] is
    [laneVehicles[i]].  Over the rationals the relocated follower ends
    exactly [minGap] behind its lead; in doubles the gap recomputed from
    the new position can fall short of [minGap] by a rounding error, so
    nothing is stated about it. *)
Fixpoint spacingLoop (minGap : Q) (lead : nat) (rest : list nat) (vs : Store) : Store :=
  match rest with
  | [] => vs
  | f :: rest' =>
      let vs' :=
        match vs !! lead, vs !! f with
        | Some leadV, Some follower =>
            let gap := gapBetween leadV follower in
            if JS.Qlt_bool gap minGap then
              <[f := set_speedMps (JS.min (speedMps follower) (speedMps leadV * 0.9))
                       (set_positionZ
                          (positionZ leadV
                           - (minGap + lengthMeters leadV * 0.5 + lengthMeters follower * 0.5))
                          follower)]> vs
            else vs
        | _, _ => vs
        end in
      spacingLoop minGap f rest' vs'
  end.

Definition spaceLane (profiles : list TrafficLaneProfile.t) (lane : Z)
    (laneVehicles : list nat) (vs : Store) : Store :=
  match laneProfileAt profiles lane with
  | None => vs
  | Some profile =>
      match sortDescending vs laneVehicles with
      | [] => vs
      | lead :: rest =>
          spacingLoop (TrafficLaneProfile.preferredSpacingMeters profile) lead rest vs
      end
  end.

(** [laneMap.forEach] of the spacing pass.  Each callback reads and writes
    only the vehicles of its own array, so the order in which the lanes
    are visited does not show in the result. *)
Definition applySpacing (profiles : list TrafficLaneProfile.t)
    (laneMap : gmap Z (list nat)) (vs : Store) : Store :=
  map_fold (spaceLane profiles) vs laneMap.

(** The despawn loop walks [this.vehicles] from the end and splices out
    every vehicle beyond either bound; the two tests exclude each other,
    so what stays is the vehicles inside the corridor, in order. *)
Definition inCorridor (v : TrafficVehicleState) : bool :=
  negb (JS.Qlt_bool DESPAWN_DISTANCE_METERS (positionZ v))
  && negb (JS.Qlt_bool (positionZ v) (RESPAWN_OFFSET_METERS * 1.5)).

Definition despawn (vs : Store) : Store := List.filter inCorridor vs.

(** [laneVehicles.filter(positionZ < 0).sort(descending)[0]]. *)
Definition closestBehind (vs : Store) (lane : Z) : option TrafficVehicleState :=
  let laneVehicles := List.filter (fun v => bool_decide (laneIndex v = lane)) vs in
  let behind := List.filter (fun v => JS.Qlt_bool (positionZ v) 0) laneVehicles in
  let order := sortDescending behind (seq 0 (length behind)) in
  head order ≫= (behind !!.).

Definition spawnInto (dt : Q) (entry : nat * TrafficLaneProfile.t) (s : t) : Eff t :=
  let '(laneIndex, profile) := entry in
  let spawnProbability := TrafficLaneProfile.spawnRatePerMinute profile / 60 * dt in
  (r <- Math_random;;
   if JS.Qlt_bool spawnProbability r then ret s
   else
     let blocked :=
       match closestBehind (vehicles s) (Z.of_nat laneIndex) with
       | Some c =>
           JS.Qlt_bool (JS.abs (positionZ c - RESPAWN_OFFSET_METERS))
                       (TrafficLaneProfile.preferredSpacingMeters profile)
       | None => false
       end in
     if blocked then ret s
     else
       speedMph <- randBetween (TrafficLaneProfile.minSpeedMph profile)
                               (TrafficLaneProfile.maxSpeedMph profile);;
       r <- spawnInLane s profile (Z.of_nat laneIndex)
              (SpawnInput.mk (JS.Num (inject_Z (Z.of_nat laneIndex))) (Some speedMph)
                 (Some RESPAWN_OFFSET_METERS) None None);;
       ret (snd r))%eff.

Definition spawnNewVehicles (dt : Q) (s : t) : Eff t :=
  forEachM (spawnInto dt) (imap (fun i p => (i, p)) (laneProfiles s)) s.

(** [step] from the first loop to the end of the spacing pass: the
    vehicles as the despawn loop finds them. *)
Definition moveTraffic (dt : Q) (s : t) : Eff Store :=
  (st <- forEachM (advanceVehicle (laneProfiles s) dt) (seq 0 (length (vehicles s)))
                  (vehicles s, ∅);;
   st' <- handleLaneChanges (laneProfiles s) st;;
   ret (applySpacing (laneProfiles s) (snd st') (fst st')))%eff.

(** [step] up to and including the despawn loop. *)
Definition stepTraffic (dt : Q) (s : t) : Eff t :=
  (vs <- moveTraffic dt s;; ret (set_vehicles (despawn vs) s))%eff.

Definition tickDt (s : t) (now : Z) : Q :=
  JS.min 0.5 (inject_Z (now - lastTick s) / 1000).

Definition step (s : t) (now : Z) : Eff t :=
  let dt := tickDt s now in
  let s := set_lastTick now s in
  if Qle_bool dt 0 then ret s
  else (s' <- stepTraffic dt s;; spawnNewVehicles dt s')%eff.

End Sim.

(** ** [rl/drivingEnv.ts]: the reinforcement-learning environment *)

Module Env.
Import Models.
Local Open Scope Q_scope.

Definition MPH_TO_MPS : Q := 0.44704.
Definition LANE_WIDTH_METERS : Q := 3.6.

Definition mphToMps (mph : Q) : Q := mph * MPH_TO_MPS.
Definition mpsToMph (mps : Q) : Q := mps / MPH_TO_MPS.

Record EnvironmentVehicle := mkVehicle {
  id : string;
  laneIndex : Z;
  positionZ : Q;
  speedMps : Q;
  lengthMeters : Q;
  widthMeters : Q;
  type : VehicleKind
}.

Module EgoState.
Record t := mk {
  laneIndex : Q;
  laneOffset : Q;
  speedMps : Q;
  positionZ : Q;
  headingRad : Q;
  gear : Q
}.
End EgoState.

Module DrivingMission.
Record t := mk {
  targetLaneIndex : option Q;                 (* number | null *)
  cruiseTargetSpeedMps : Q;
  cruiseGapMeters : Q;
  mode : string;
  returnLaneIndex : option (option Q);        (* absent, null or a number *)
  laneChangeDirection : option (option string)
}.
End DrivingMission.

(** [Partial<DrivingMission>]. *)
Module MissionGoal.
Record t := mk {
  targetLaneIndex : option (option Q);
  cruiseTargetSpeedMps : option Q;
  cruiseGapMeters : option Q;
  mode : option string;
  returnLaneIndex : option (option Q);
  laneChangeDirection : option (option string)
}.
End MissionGoal.

Module Config.
Record t := mk {
  timeStepSeconds : Q;
  maxEpisodeSeconds : Q;
  maxSpeedMps : Q;
  maxAccelMps2 : Q;
  maxBrakeMps2 : Q;
  coastDragMps2 : Q;
  laneCount : Q
}.
End Config.

Definition DEFAULT_CONFIG : Config.t :=
  Config.mk 0.2 180 (mphToMps 90) 3.6 6.5 1.2 5.

Definition FALLBACK_LANE_PROFILE : TrafficLaneProfile.t :=
  TrafficLaneProfile.mk 0 general 60 45 70 32 18.

(** The fields of a [DrivingEnvironment]. *)
Record t := mk {
  config : Config.t;
  laneProfiles : list TrafficLaneProfile.t;
  traffic : list EnvironmentVehicle;
  ego : EgoState.t;
  elapsedSeconds : Q;
  episodeId : string;
  mission : DrivingMission.t
}.

Module StepInfo.
Record t := mk {
  collisions : Z;
  laneChanges : Z;
  elapsedSeconds : Q;
  snapshot : SimulationSnapshot.t
}.
End StepInfo.

Module DrivingStepResult.
Record t := mk {
  observation : DrivingObservation.t;
  reward : RewardBreakdown.t;
  done : bool;
  info : StepInfo.t
}.
End DrivingStepResult.

Definition setMission (goal : MissionGoal.t) (m : DrivingMission.t) : DrivingMission.t :=
  DrivingMission.mk
    (default (DrivingMission.targetLaneIndex m) (MissionGoal.targetLaneIndex goal))
    (default (DrivingMission.cruiseTargetSpeedMps m) (MissionGoal.cruiseTargetSpeedMps goal))
    (default (DrivingMission.cruiseGapMeters m) (MissionGoal.cruiseGapMeters goal))
    (default (DrivingMission.mode m) (MissionGoal.mode goal))
    (match MissionGoal.returnLaneIndex goal with
     | Some r => Some r
     | None => DrivingMission.returnLaneIndex m
     end)
    (match MissionGoal.laneChangeDirection goal with
     | Some d => Some d
     | None => DrivingMission.laneChangeDirection m
     end).

Definition getMission (e : t) : DrivingMission.t := mission e.
Definition getTimeStepSeconds (e : t) : Q := Config.timeStepSeconds (config e).
Definition getEpisodeId (e : t) : string := episodeId e.

Definition snapshotMissionToDrivingMission (snapshot : DrivingMissionSnapshot.t)
  : MissionGoal.t :=
  MissionGoal.mk
    (Some (DrivingMissionSnapshot.targetLaneIndex snapshot))
    (Some (mphToMps (DrivingMissionSnapshot.cruiseTargetSpeedMph snapshot)))
    (Some (DrivingMissionSnapshot.cruiseGapMeters snapshot))
    (Some (DrivingMissionSnapshot.mode snapshot))
    (Some (DrivingMissionSnapshot.returnLaneIndex snapshot))
    (Some (DrivingMissionSnapshot.laneChangeDirection snapshot)).

Definition loadMissionFromService (svc : Sim.t) : MissionGoal.t :=
  snapshotMissionToDrivingMission (Sim.getMission svc).

Definition sameLane (vehicle : EnvironmentVehicle) (lane : Q) : bool :=
  Qeq_bool (inject_Z (laneIndex vehicle)) lane.

Definition buildObservation (e : t) : DrivingObservation.t :=
  let eg := ego e in
  let laneVehicles :=
    sortBy (fun a b => Qle_bool (positionZ a) (positionZ b))
           (List.filter (fun v => sameLane v (EgoState.laneIndex eg)) (traffic e)) in
  let ahead :=
    List.find (fun v => JS.Qlt_bool (EgoState.positionZ eg) (positionZ v)) laneVehicles in
  let behind :=
    List.find (fun v => JS.Qlt_bool (positionZ v) (EgoState.positionZ eg))
              (rev laneVehicles) in
  let laneProfile :=
    match JS.index (laneProfiles e) (EgoState.laneIndex eg) with
    | Some p => p
    | None => default FALLBACK_LANE_PROFILE (laneProfiles e !! 0%nat)
    end in
  let gapAhead :=
    match ahead with
    | Some a => positionZ a - EgoState.positionZ eg - lengthMeters a * 0.5
    | None => 120
    end in
  let gapBehind :=
    match behind with
    | Some b => EgoState.positionZ eg - positionZ b - lengthMeters b * 0.5
    | None => 120
    end in
  DrivingObservation.mk
    (EgoState.laneIndex eg)
    (EgoState.laneOffset eg)
    (EgoState.speedMps eg)
    (mphToMps (TrafficLaneProfile.targetSpeedMph laneProfile))
    (DrivingMission.cruiseTargetSpeedMps (mission e))
    (DrivingMission.cruiseGapMeters (mission e))
    gapAhead
    gapBehind
    (match ahead with Some a => speedMps a - EgoState.speedMps eg | None => 0 end)
    (match behind with Some b => speedMps b - EgoState.speedMps eg | None => 0 end)
    (DrivingMission.targetLaneIndex (mission e))
    (DrivingMission.mode (mission e))
    (DrivingMission.returnLaneIndex (mission e)).

Definition buildMissionSnapshot (e : t) (now : Z) : DrivingMissionSnapshot.t :=
  DrivingMissionSnapshot.mk
    (DrivingMission.targetLaneIndex (mission e))
    (mpsToMph (DrivingMission.cruiseTargetSpeedMps (mission e)))
    (DrivingMission.cruiseGapMeters (mission e))
    (DrivingMission.mode (mission e))
    (default None (DrivingMission.returnLaneIndex (mission e)))
    (default None (DrivingMission.laneChangeDirection (mission e)))
    "rl" None now.

Definition buildSnapshot (e : t) (now : Z) (collision : bool) : SimulationSnapshot.t :=
  let eg := ego e in
  SimulationSnapshot.mk now "california-101" (laneProfiles e)
    (PlayerSnapshot.mk "rl-player" (EgoState.laneIndex eg)
       (0, 0, EgoState.positionZ eg) (EgoState.speedMps eg)
       (mpsToMph (EgoState.speedMps eg)) 4.5 1.9 sedan steady
       (EgoState.laneOffset eg * 4) 0)
    (map (fun vehicle =>
            VehicleSnapshot.mk (id vehicle) (laneIndex vehicle)
              (0, 0, positionZ vehicle) (speedMps vehicle)
              (mpsToMph (speedMps vehicle)) (lengthMeters vehicle)
              (widthMeters vehicle) (type vehicle) steady)
         (traffic e))
    (buildMissionSnapshot e now)
    collision.

(** [reset]: a fresh episode id, traffic and ego copied from the live
    service's snapshot, the live mission, then the caller's goal. *)
Definition reset (e : t) (svc : Sim.t) (now : Z) (goal : option MissionGoal.t)
  : Eff ((DrivingObservation.t * SimulationSnapshot.t) * t) :=
  (ident <- randomUUID;;
   let snapshot := Sim.getSnapshot svc now in
   let traffic :=
     map (fun vehicle =>
            mkVehicle (VehicleSnapshot.id vehicle) (VehicleSnapshot.laneIndex vehicle)
              (snd (VehicleSnapshot.position vehicle)) (VehicleSnapshot.speedMps vehicle)
              (VehicleSnapshot.lengthMeters vehicle) (VehicleSnapshot.widthMeters vehicle)
              (VehicleSnapshot.type vehicle))
         (SimulationSnapshot.vehicles snapshot) in
   let player := SimulationSnapshot.player snapshot in
   let ego :=
     EgoState.mk (PlayerSnapshot.laneIndex player) 0 (PlayerSnapshot.speedMps player)
                 (snd (PlayerSnapshot.position player)) 0 3 in
   let mission1 := setMission (loadMissionFromService svc) (mission e) in
   let mission2 :=
     match goal with
     | Some g => setMission g mission1
     | None =>
         match DrivingMission.targetLaneIndex mission1 with
         | None =>
             DrivingMission.mk (Some (EgoState.laneIndex ego))
               (DrivingMission.cruiseTargetSpeedMps mission1)
               (DrivingMission.cruiseGapMeters mission1)
               (DrivingMission.mode mission1)
               (DrivingMission.returnLaneIndex mission1)
               (DrivingMission.laneChangeDirection mission1)
         | Some _ => mission1
         end
     end in
   let e' := mk (config e) (laneProfiles e) traffic ego 0 ident mission2 in
   ret ((buildObservation e', buildSnapshot e' now false), e'))%eff.

(** The constructor: the lane profiles of the live snapshot, the mission of
    the live service, then [reset()]. *)
Definition create (cfg : Config.t) (svc : Sim.t) (now : Z) : Eff t :=
  (ident <- randomUUID;;
   let lanes := SimulationSnapshot.lanes (Sim.getSnapshot svc now) in
   let ego :=
     EgoState.mk
       (JS.min (JS.floor (Config.laneCount cfg / 2))
               (inject_Z (Z.of_nat (length lanes)) - 1))
       0 (mphToMps 55) 0 0 3 in
   let mission :=
     setMission (loadMissionFromService svc)
       (DrivingMission.mk (Some (EgoState.laneIndex ego)) (mphToMps 65) 36 "cruise"
          (Some None) None) in
   r <- reset (mk cfg lanes [] ego 0 ident mission) svc now None;;
   ret (snd r))%eff.

Definition updateTraffic (dt : Q) (traffic : list EnvironmentVehicle)
  : list EnvironmentVehicle :=
  List.filter (fun vehicle => JS.Qlt_bool (positionZ vehicle) 1200)
    (map (fun vehicle =>
            mkVehicle (id vehicle) (laneIndex vehicle)
              (positionZ vehicle + speedMps vehicle * dt) (speedMps vehicle)
              (lengthMeters vehicle) (widthMeters vehicle) (type vehicle))
         traffic).

Definition collidesWith (eg : EgoState.t) (vehicle : EnvironmentVehicle) : bool :=
  let egoHalfLength := 2.3 in
  let egoHalfWidth := 0.9 in
  if negb (sameLane vehicle (EgoState.laneIndex eg)) then false
  else
    let longitudinalGap := JS.abs (positionZ vehicle - EgoState.positionZ eg) in
    if JS.Qlt_bool (egoHalfLength + lengthMeters vehicle * 0.5 + 3) longitudinalGap
    then false
    else
      let lateralGap := JS.abs (EgoState.laneOffset eg) in
      JS.Qlt_bool lateralGap (egoHalfWidth + widthMeters vehicle * 0.5).

Definition detectCollision (e : t) : bool :=
  existsb (collidesWith (ego e)) (traffic e).

Definition computeReward (e : t) (observation : DrivingObservation.t)
    (collision : bool) (netAccel laneDelta : Q) : RewardBreakdown.t :=
  let progress :=
    DrivingObservation.speedMps observation * Config.timeStepSeconds (config e) in
  let targetLane := DrivingMission.targetLaneIndex (mission e) in
  let laneAlignment :=
    match targetLane with
    | None => 0
    | Some tl => - JS.abs (tl - DrivingObservation.laneIndex observation) * 0.35
    end in
  let laneKeeping :=
    - JS.abs (DrivingObservation.laneOffsetMeters observation) * 0.1 + laneAlignment in
  let comfort := - JS.abs netAccel * 0.05 in
  let ruleCompliance :=
    if Qle_bool (DrivingObservation.speedMps observation)
                (DrivingObservation.targetSpeedMps observation * 1.1)
    then 0.2 else -0.4 in
  let cruiseTarget := DrivingMission.cruiseTargetSpeedMps (mission e) in
  let cruiseTracking :=
    - JS.abs (DrivingObservation.speedMps observation - cruiseTarget) * 0.04 in
  let gapTarget := DrivingMission.cruiseGapMeters (mission e) in
  let gapKeeping :=
    if JS.Qlt_bool 0 gapTarget then
      let gapError := gapTarget - DrivingObservation.gapAheadMeters observation in
      let gapKeeping := - JS.abs gapError * 0.01 in
      if JS.Qlt_bool (DrivingObservation.gapAheadMeters observation) (gapTarget * 0.6)
      then gapKeeping - 0.6 else gapKeeping
    else 0 in
  let collisionPenalty := if collision then -25 else 0 in
  let laneDisciplinePenalty :=
    if JS.Qlt_bool 0.5 (JS.abs laneDelta) then -0.2 else 0 in
  let total :=
    progress + laneKeeping + comfort + ruleCompliance + cruiseTracking
    + gapKeeping + collisionPenalty + laneDisciplinePenalty in
  RewardBreakdown.mk progress laneKeeping comfort ruleCompliance cruiseTracking
    gapKeeping (collisionPenalty + laneDisciplinePenalty) total.

(** The longitudinal part of [step]. *)
Definition netAccelOf (cfg : Config.t) (action : DrivingAction.t) : Q :=
  let accelCommand := DrivingAction.acceleration action in
  let brakeCommand := DrivingAction.brake action in
  let throttleAccel := accelCommand * Config.maxAccelMps2 cfg in
  let brakeDecel := brakeCommand * Config.maxBrakeMps2 cfg in
  let coastDrag :=
    Config.coastDragMps2 cfg * (if JS.Qlt_bool accelCommand 0.05 then 1 else 0.4) in
  throttleAccel - brakeDecel - coastDrag.

Definition requestedLaneOf (e : t) (action : DrivingAction.t) : Q :=
  match DrivingAction.requestedLaneIndex action with
  | Some l => l
  | None => default (EgoState.laneIndex (ego e)) (DrivingMission.targetLaneIndex (mission e))
  end.

(** The ego after the longitudinal and lateral updates of [step]. *)
Definition moveEgo (e : t) (action : DrivingAction.t) : EgoState.t :=
  let cfg := config e in
  let eg := ego e in
  let dt := Config.timeStepSeconds cfg in
  let netAccel := netAccelOf cfg action in
  let speed :=
    JS.max 0 (JS.min (Config.maxSpeedMps cfg) (EgoState.speedMps eg + netAccel * dt)) in
  let position := EgoState.positionZ eg + speed * dt in
  let laneDelta := requestedLaneOf e action - EgoState.laneIndex eg in
  if JS.Qlt_bool 0.01 (JS.abs laneDelta) then
    let direction := JS.sign laneDelta in
    let offset := EgoState.laneOffset eg + direction * dt * (LANE_WIDTH_METERS / 1.2) in
    if Qle_bool (LANE_WIDTH_METERS * 0.5) (JS.abs offset) then
      EgoState.mk
        (JS.max 0 (JS.min (inject_Z (Z.of_nat (length (laneProfiles e))) - 1)
                          (EgoState.laneIndex eg + direction)))
        0 speed position (EgoState.headingRad eg) (EgoState.gear eg)
    else
      EgoState.mk (EgoState.laneIndex eg) offset speed position
                  (EgoState.headingRad eg) (EgoState.gear eg)
  else
    EgoState.mk (EgoState.laneIndex eg) (EgoState.laneOffset eg * 0.8) speed position
                (EgoState.headingRad eg) (EgoState.gear eg).

Definition step (e : t) (now : Z) (action : DrivingAction.t)
  : DrivingStepResult.t * t :=
  let cfg := config e in
  let dt := Config.timeStepSeconds cfg in
  let netAccel := netAccelOf cfg action in
  let previousLaneIndex := EgoState.laneIndex (ego e) in
  let laneDelta := requestedLaneOf e action - EgoState.laneIndex (ego e) in
  let e1 := mk cfg (laneProfiles e) (updateTraffic dt (traffic e)) (moveEgo e action)
               (elapsedSeconds e) (episodeId e) (mission e) in
  let collision := detectCollision e1 in
  let e2 := mk cfg (laneProfiles e1) (traffic e1) (ego e1) (elapsedSeconds e + dt)
               (episodeId e) (mission e) in
  let observation := buildObservation e2 in
  let reward := computeReward e2 observation collision netAccel laneDelta in
  let done := collision || Qle_bool (Config.maxEpisodeSeconds cfg) (elapsedSeconds e2) in
  let snapshot := buildSnapshot e2 now collision in
  let laneChanged :=
    if Qeq_bool (EgoState.laneIndex (ego e2)) previousLaneIndex then 0%Z else 1%Z in
  (DrivingStepResult.mk observation reward done
     (StepInfo.mk (if collision then 1%Z else 0%Z) laneChanged (elapsedSeconds e2) snapshot),
   e2).

End Env.

(** ** [rl/policies/cruiseHeuristic.ts] *)

Module Policy.
Import Models.
Local Open Scope Q_scope.

Definition clamp (value lo hi : Q) : Q := JS.max lo (JS.min hi value).
Definition LANE_WIDTH_METERS : Q := 3.6.

Module CruiseHeuristicOptions.
Record t := mk { speedAggressiveness : Q; laneAggressiveness : Q }.
End CruiseHeuristicOptions.

Definition DEFAULT_OPTIONS : CruiseHeuristicOptions.t :=
  CruiseHeuristicOptions.mk 0.35 0.8.

Definition cruiseHeuristicPolicyWith (mergedOptions : CruiseHeuristicOptions.t)
    (observation : DrivingObservation.t) (mission : Env.DrivingMission.t)
  : DrivingAction.t :=
  let speedAggressiveness := CruiseHeuristicOptions.speedAggressiveness mergedOptions in
  let laneAggressiveness := CruiseHeuristicOptions.laneAggressiveness mergedOptions in
  let targetSpeed :=
    if JS.Qlt_bool 0 (Env.DrivingMission.cruiseTargetSpeedMps mission)
    then Env.DrivingMission.cruiseTargetSpeedMps mission
    else DrivingObservation.targetSpeedMps observation in
  let gapTarget :=
    if JS.Qlt_bool 0 (Env.DrivingMission.cruiseGapMeters mission)
    then Env.DrivingMission.cruiseGapMeters mission else 0 in
  let speedError := targetSpeed - DrivingObservation.speedMps observation in
  let acceleration0 :=
    if JS.Qlt_bool 0 speedError then clamp (speedError * speedAggressiveness) 0 1 else 0 in
  let brake0 :=
    if JS.Qlt_bool 0 speedError then 0
    else if JS.Qlt_bool speedError 0
         then clamp (- speedError * (speedAggressiveness * 0.9)) 0 1
         else 0 in
  let '(acceleration, brake) :=
    if JS.Qlt_bool 0 gapTarget
       && JS.Qlt_bool (DrivingObservation.gapAheadMeters observation) gapTarget
    then
      let gapDeficit := gapTarget - DrivingObservation.gapAheadMeters observation in
      let closingSpeed :=
        JS.max 0 (- DrivingObservation.relativeSpeedAheadMps observation) in
      let brakeDemand :=
        gapDeficit / JS.max gapTarget 1 + closingSpeed / JS.max targetSpeed 0.1 in
      (JS.min acceleration0 0.25, JS.max brake0 (clamp brakeDemand 0 1))
    else (acceleration0, brake0) in
  let desiredLaneIndex :=
    match Env.DrivingMission.targetLaneIndex mission with
    | Some l => l
    | None => default (DrivingObservation.laneIndex observation)
                      (DrivingObservation.targetLaneIndex observation)
    end in
  let laneDelta := desiredLaneIndex - DrivingObservation.laneIndex observation in
  let requestedLaneIndex := JS.max 0 (JS.round desiredLaneIndex) in
  let lateral :=
    if Qeq_bool laneDelta 0
    then clamp (- DrivingObservation.laneOffsetMeters observation
                / (LANE_WIDTH_METERS * 0.5)) (-1) 1
    else clamp (laneDelta * laneAggressiveness) (-1) 1 in
  DrivingAction.mk lateral acceleration brake (Some requestedLaneIndex).

Definition cruiseHeuristicPolicy := cruiseHeuristicPolicyWith DEFAULT_OPTIONS.

End Policy.

(** ** [rl/episodeGenerator.ts] and [rl/episodeTypes.ts] *)

Module Episode.
Import Models.
Local Open Scope Q_scope.

Definition MPH_TO_MPS : Q := 0.44704.

Module MissionOverrides.
Record t := mk {
  targetLaneIndex : option (option Q);
  cruiseTargetSpeedMph : option Q;
  cruiseGapMeters : option Q
}.
End MissionOverrides.

Module EpisodeMetadata.
Record t := mk { sceneId : string; command : string; description : option string }.
End EpisodeMetadata.

Definition Controller : Type :=
  DrivingObservation.t -> Env.DrivingMission.t -> DrivingAction.t.

Module EpisodeGenerationOptions.
Record t := mk {
  mission : MissionOverrides.t;
  maxSteps : option nat;
  seed : option Z;
  metadata : EpisodeMetadata.t;
  controller : option Controller
}.
End EpisodeGenerationOptions.

Module EpisodeStepRecord.
Record t := mk {
  step : nat;
  timestampSeconds : Q;
  observation : DrivingObservation.t;
  action : DrivingAction.t;
  reward : RewardBreakdown.t;
  collisions : Z;        (* info.collisions *)
  laneChanges : Z;       (* info.laneChanges *)
  done : bool
}.
End EpisodeStepRecord.

Module Summary.
Record t := mk {
  totalReward : Q;
  collisions : Z;
  laneChanges : Z;
  durationSeconds : Q
}.
End Summary.

Module EpisodeRecord.
Record t := mk {
  episodeId : string;
  seed : Z;
  mission : Env.DrivingMission.t;
  metadata : EpisodeMetadata.t;
  steps : list EpisodeStepRecord.t;
  summary : Summary.t
}.
End EpisodeRecord.

Definition resolveMissionOverrides (base : Env.DrivingMission.t)
    (overrides : MissionOverrides.t) : Env.MissionGoal.t :=
  Env.MissionGoal.mk
    (Some (default (Env.DrivingMission.targetLaneIndex base)
                   (MissionOverrides.targetLaneIndex overrides)))
    (Some (match MissionOverrides.cruiseTargetSpeedMph overrides with
           | None => Env.DrivingMission.cruiseTargetSpeedMps base
           | Some mph => mph * MPH_TO_MPS
           end))
    (Some (default (Env.DrivingMission.cruiseGapMeters base)
                   (MissionOverrides.cruiseGapMeters overrides)))
    None None None.

Definition computeSummary (steps : list EpisodeStepRecord.t) : Summary.t :=
  let totalReward :=
    fold_left (fun sum step => sum + RewardBreakdown.total (EpisodeStepRecord.reward step))
              steps 0 in
  let collisions :=
    fold_left (fun sum step => (sum + EpisodeStepRecord.collisions step)%Z) steps 0%Z in
  let laneChanges :=
    fold_left (fun sum step => (sum + EpisodeStepRecord.laneChanges step)%Z) steps 0%Z in
  let durationSeconds :=
    match last steps with
    | Some lastStep => EpisodeStepRecord.timestampSeconds lastStep
    | None => 0
    end in
  Summary.mk totalReward collisions laneChanges durationSeconds.

(** The [while (!done && stepIndex < maxSteps)] loop; [fuel] is the number
    of iterations still allowed by [maxSteps], [clock k] the time read by
    the environment's step number [k]. *)
Fixpoint rollout (controller : Controller) (mission : Env.DrivingMission.t) (dt : Q)
    (clock : nat -> Z) (fuel : nat) (stepIndex : nat) (env : Env.t)
    (observation : DrivingObservation.t) (lastSnapshot : SimulationSnapshot.t)
  : list EpisodeStepRecord.t * SimulationSnapshot.t * Env.t :=
  match fuel with
  | O => ([], lastSnapshot, env)
  | S fuel' =>
      let action := controller observation mission in
      let '(result, env') := Env.step env (clock stepIndex) action in
      let record :=
        EpisodeStepRecord.mk stepIndex
          (inject_Z (Z.of_nat (stepIndex + 1)) * dt)
          observation action
          (Env.DrivingStepResult.reward result)
          (Env.StepInfo.collisions (Env.DrivingStepResult.info result))
          (Env.StepInfo.laneChanges (Env.DrivingStepResult.info result))
          (Env.DrivingStepResult.done result) in
      let snapshot := Env.StepInfo.snapshot (Env.DrivingStepResult.info result) in
      if Env.DrivingStepResult.done result then ([record], snapshot, env')
      else
        let '(rest, snapshot', env'') :=
          rollout controller mission dt clock fuel' (S stepIndex) env'
                  (Env.DrivingStepResult.observation result) snapshot in
        (record :: rest, snapshot', env'')
  end.

(** [simulateEpisode] against the live service [svc] that [env.reset]
    reads; [now] is the time of the reset.  The default step bound is
    [Math.floor(180 / dt)]; at [dt = 0] that is [Infinity] in the code and
    the loop runs until a step is done, which this bounded definition does
    not follow: what is proved of the default bound assumes [0 < dt]. *)
Definition simulateEpisode (env : Env.t) (svc : Sim.t) (now : Z) (clock : nat -> Z)
    (options : EpisodeGenerationOptions.t) : Eff (EpisodeRecord.t * Env.t) :=
  let controller :=
    default Policy.cruiseHeuristicPolicy (EpisodeGenerationOptions.controller options) in
  let baseMission := Env.getMission env in
  let missionUpdate :=
    resolveMissionOverrides baseMission (EpisodeGenerationOptions.mission options) in
  (r <- Env.reset env svc now (Some missionUpdate);;
   let '((initialObservation, snapshot), env1) := r in
   let mission := Env.getMission env1 in
   let dt := Env.getTimeStepSeconds env1 in
   let maxSteps :=
     default (Z.to_nat (Qfloor (180 / dt))) (EpisodeGenerationOptions.maxSteps options) in
   let '(steps, lastStepResultSnapshot, env2) :=
     rollout controller mission dt clock maxSteps 0 env1 initialObservation snapshot in
   let summary := computeSummary steps in
   seed <- match EpisodeGenerationOptions.seed options with
           | Some sd => ret sd
           | None => randomInt
           end;;
   ret (EpisodeRecord.mk (Env.getEpisodeId env2) seed mission
          (EpisodeMetadata.mk
             (SimulationSnapshot.sceneId lastStepResultSnapshot)
             (EpisodeMetadata.command (EpisodeGenerationOptions.metadata options))
             (EpisodeMetadata.description (EpisodeGenerationOptions.metadata options)))
          steps summary,
        env2))%eff.

Module EpisodeBatchOptions.
Record t := mk {
  base : EpisodeGenerationOptions.t;
  episodeCount : nat;
  envConfig : option Env.Config.t
}.
End EpisodeBatchOptions.

(** The [for] loop of [generateEpisodeBatch]; [svcAt i] and [nowAt i] are
    the live service and the time as episode [i] finds them. *)
Fixpoint batchLoop (options : EpisodeBatchOptions.t) (svcAt : nat -> Sim.t)
    (nowAt : nat -> Z) (clock : nat -> Z) (count i : nat) (env : Env.t)
  : Eff (list EpisodeRecord.t) :=
  match count with
  | O => ret []
  | S count' =>
      let base := EpisodeBatchOptions.base options in
      let episodeOptions :=
        EpisodeGenerationOptions.mk
          (EpisodeGenerationOptions.mission base)
          (EpisodeGenerationOptions.maxSteps base)
          (match EpisodeGenerationOptions.seed base with
           | Some sd => Some (sd + Z.of_nat i)%Z
           | None => None
           end)
          (EpisodeGenerationOptions.metadata base)
          (EpisodeGenerationOptions.controller base) in
      (r <- simulateEpisode env (svcAt i) (nowAt i) clock episodeOptions;;
       rest <- batchLoop options svcAt nowAt clock count' (S i) (snd r);;
       ret (fst r :: rest))%eff
  end.

Definition generateEpisodeBatch (options : EpisodeBatchOptions.t) (svc0 : Sim.t)
    (now0 : Z) (svcAt : nat -> Sim.t) (nowAt : nat -> Z) (clock : nat -> Z)
  : Eff (list EpisodeRecord.t) :=
  (env <- Env.create
            (default Env.DEFAULT_CONFIG (EpisodeBatchOptions.envConfig options))
            svc0 now0;;
   batchLoop options svcAt nowAt clock (EpisodeBatchOptions.episodeCount options) 0 env)%eff.

End Episode.

(** ** The mission tail of [controllers/voiceController.ts] *)

Module Voice.
Import Models.
Local Open Scope Q_scope.

Definition MPS_TO_MPH : Q := 1 / 0.44704.

(** [currentSpeedMph] as [applyMission] reads it from [getPlayerState()]:
    the player's [speedMph] when it is finite, else its [speedMps]
    converted.  The player's speeds are rationals here, so the first branch
    is the one taken. *)
Definition currentSpeedMph (svc : Sim.t) : Q :=
  let playerState := Sim.getPlayerState svc in
  if JS.isFinite (JS.Num (PlayerSnapshot.speedMph playerState))
  then PlayerSnapshot.speedMph playerState
  else PlayerSnapshot.speedMps playerState * MPS_TO_MPH.

(** The two defaults applied to the patch built from the request, just
    before the call of [updateMission]. *)
Definition applyCruiseDefaults (currentSpeedMph : Q) (patch : DrivingMissionUpdate.t)
  : DrivingMissionUpdate.t :=
  let isCruise := bool_decide (DrivingMissionUpdate.mode patch = Some "cruise"%string) in
  let cruiseTargetSpeedMph :=
    match DrivingMissionUpdate.cruiseTargetSpeedMph patch with
    | None => if isCruise then Some (JS.Num currentSpeedMph) else None
    | Some v => Some v
    end in
  let cruiseGapMeters :=
    match DrivingMissionUpdate.cruiseGapMeters patch with
    | None => if isCruise then Some (JS.Num (2 * 4.6)) else None
    | Some v => Some v
    end in
  DrivingMissionUpdate.mk
    (DrivingMissionUpdate.targetLaneIndex patch)
    cruiseTargetSpeedMph cruiseGapMeters
    (DrivingMissionUpdate.source patch)
    (DrivingMissionUpdate.note patch)
    (DrivingMissionUpdate.mode patch)
    (DrivingMissionUpdate.returnLaneIndex patch)
    (DrivingMissionUpdate.laneChangeDirection patch).

Definition hasMeaningfulUpdate (patch : DrivingMissionUpdate.t) : bool :=
  bool_decide (is_Some (DrivingMissionUpdate.cruiseTargetSpeedMph patch))
  || bool_decide (is_Some (DrivingMissionUpdate.cruiseGapMeters patch))
  || bool_decide (is_Some (DrivingMissionUpdate.targetLaneIndex patch))
  || bool_decide (is_Some (DrivingMissionUpdate.returnLaneIndex patch))
  || bool_decide (is_Some (DrivingMissionUpdate.laneChangeDirection patch))
  || bool_decide (is_Some (DrivingMissionUpdate.mode patch)).

(** What the [catch] of [applyMission] answers with status 400: the error
    [updateMission] threw, or the [TypeError] of the call
    [this.simulationService.updateVoiceStatus(...)]. *)
Inductive VoiceError : Type :=
| MissionRejected (error : Sim.MissionError)
| UpdateVoiceStatusIsNotAFunction.

Inductive Response : Type :=
| Applied (mission : DrivingMissionSnapshot.t)       (* 200 { mission, summary } *)
| BadRequest (error : VoiceError)                    (* 400 from the catch *)
| NotActionable.                                     (* no meaningful key *)

(** [this.simulationService.updateVoiceStatus({ ... })]: [SimulationService]
    has no method of that name, so the call throws. *)
Definition updateVoiceStatus (svc : Sim.t) : result VoiceError Sim.t :=
  Throw UpdateVoiceStatusIsNotAFunction.

(** [applyMission] from the cruise defaults on, for the patch that the
    request parsing above them has produced.  Inside the [try],
    [updateMission] stores the mission first; the call of
    [updateVoiceStatus] comes after it. *)
Definition applyMission (svc : Sim.t) (now : Z) (patch0 : DrivingMissionUpdate.t)
  : Response * Sim.t :=
  let patch := applyCruiseDefaults (currentSpeedMph svc) patch0 in
  if negb (hasMeaningfulUpdate patch) then (NotActionable, svc)
  else
    match Sim.updateMission svc now patch with
    | (Ok mission, svc') =>
        match updateVoiceStatus svc' with
        | Ok svc'' => (Applied mission, svc'')
        | Throw e => (BadRequest e, svc')
        end
    | (Throw e, svc') => (BadRequest (MissionRejected e), svc')
    end.

End Voice.

(** ** The mission endpoint of [controllers/simulationController.ts] *)

Module Api.
Import Models.
Local Open Scope Q_scope.

(** A value of a parsed JSON request body; a number too large for a
    double is parsed as an infinity. *)
#[warnings="-register-all"] Inductive JsonValue : Type :=
| JNull
| JBool (b : bool)
| JNumber (n : JS.number)
| JString (s : string)
| JArray (items : list JsonValue)
| JObject (fields : list (string * JsonValue)).

(** The fields [updateMission] reads from [req.body]; an absent field is
    [undefined]. *)
Module MissionBody.
Record t := mk {
  speedMph : option JsonValue;
  gapMeters : option JsonValue;
  gapCars : option JsonValue;
  targetLane : option JsonValue;
  note : option JsonValue;
  source : option JsonValue;
  mode : option JsonValue;
  returnLane : option JsonValue;
  laneChangeDirection : option JsonValue
}.
Definition empty : t := mk None None None None None None None None None.
End MissionBody.

(** The answers of the handler: [200] with the mission, or [400] with one
    of its own messages or the message of the error [updateMission]
    threw. *)
Inductive MissionReply : Type :=
| Status200 (mission : DrivingMissionSnapshot.t)
| SpeedMphMustBeNumber
| GapMustBeNumeric
| TargetLaneMustBeIntegerOrNull
| SourceMustBeOneOf
| ModeMustBeOneOf
| ReturnLaneMustBeIntegerOrNull
| LaneChangeDirectionMustBeLeftOrRight
| NoteMustBeString
| ServiceRejected (error : Sim.MissionError).

Definition CAR_LENGTH_METERS : Q := 4.6.

Definition validSources : list string :=
  [ "system"; "manual"; "voice"; "intent"; "rl" ]%string.
Definition validModes : list string :=
  [ "hold"; "cruise"; "lane_change"; "overtake" ]%string.

(** [n * q] for a possibly non-finite [n] and a positive [q]. *)
Definition timesPositive (n : JS.number) (q : Q) : JS.number :=
  match n with JS.Num p => JS.Num (p * q) | _ => n end.

Section Coercions.

(** [Number(s)] for a string, [Number(v)] for an array or an object,
    [String(n)] for a number and [String(v)] for an array or an object are
    left to the JavaScript engine. *)
Variable stringToNumber : string -> JS.number.
Variable objectToNumber : JsonValue -> JS.number.
Variable numberToString : JS.number -> string.
Variable objectToString : JsonValue -> string.

Definition toNumber (v : JsonValue) : JS.number :=
  match v with
  | JNull => JS.Num 0
  | JBool true => JS.Num 1
  | JBool false => JS.Num 0
  | JNumber n => n
  | JString s => stringToNumber s
  | JArray _ | JObject _ => objectToNumber v
  end.

Definition toString (v : JsonValue) : string :=
  match v with
  | JNull => "null"
  | JBool true => "true"
  | JBool false => "false"
  | JNumber n => numberToString n
  | JString s => s
  | JArray _ | JObject _ => objectToString v
  end.

(** [value === null || value === "null"]. *)
Definition isNullish (v : JsonValue) : bool :=
  match v with
  | JNull => true
  | JString s => bool_decide (s = "null"%string)
  | _ => false
  end.

(** A lane field of the body: absent, null, or an integer. *)
Definition laneField (error : MissionReply) (field : option JsonValue)
  : result MissionReply (option (option JS.number)) :=
  match field with
  | None => Ok None
  | Some v =>
      if isNullish v then Ok (Some None)
      else
        let parsed := toNumber v in
        if negb (JS.isInteger parsed) then Throw error
        else Ok (Some (Some parsed))
  end.

(** The gap of the body in metres, once computed. *)
Definition gapField (metersValue : JS.number) : result MissionReply (option JS.number) :=
  if negb (JS.isFinite metersValue) then Throw GapMustBeNumeric
  else Ok (Some metersValue).

(** The patch the handler builds from the body, or the [400] it answers
    before calling the service. *)
Definition buildPatch (body : MissionBody.t) : result MissionReply DrivingMissionUpdate.t :=
  (cruiseTargetSpeedMph <-?
     match MissionBody.speedMph body with
     | None => Ok None
     | Some v =>
         let parsed := toNumber v in
         if negb (JS.isFinite parsed) then Throw SpeedMphMustBeNumber
         else Ok (Some parsed)
     end;;
   cruiseGapMeters <-?
     match MissionBody.gapMeters body, MissionBody.gapCars body with
     | None, None => Ok None
     | Some v, _ => gapField (toNumber v)
     | None, Some c => gapField (timesPositive (toNumber c) CAR_LENGTH_METERS)
     end;;
   targetLaneIndex <-?
     laneField TargetLaneMustBeIntegerOrNull (MissionBody.targetLane body);;
   source <-?
     match MissionBody.source body with
     | Some v =>
         let normalized := toString v in
         if negb (Sim.includes validSources normalized) then Throw SourceMustBeOneOf
         else Ok normalized
     | None => Ok "manual"%string
     end;;
   mode <-?
     match MissionBody.mode body with
     | None => Ok None
     | Some v =>
         let normalizedMode := toString v in
         if negb (Sim.includes validModes normalizedMode) then Throw ModeMustBeOneOf
         else Ok (Some normalizedMode)
     end;;
   returnLaneIndex <-?
     laneField ReturnLaneMustBeIntegerOrNull (MissionBody.returnLane body);;
   laneChangeDirection <-?
     match MissionBody.laneChangeDirection body with
     | None => Ok None
     | Some v =>
         let normalizedDirection := toString v in
         if negb (bool_decide (normalizedDirection = "left"%string))
            && negb (bool_decide (normalizedDirection = "right"%string))
         then Throw LaneChangeDirectionMustBeLeftOrRight
         else Ok (Some (Some normalizedDirection))
     end;;
   note <-?
     match MissionBody.note body with
     | None => Ok None
     | Some (JString s) => Ok (Some s)
     | Some _ => Throw NoteMustBeString
     end;;
   Ok (DrivingMissionUpdate.mk targetLaneIndex cruiseTargetSpeedMph cruiseGapMeters
         (Some source) note mode returnLaneIndex laneChangeDirection))%result.

(** [updateMission]: the reply and the service afterwards. *)
Definition updateMission (svc : Sim.t) (now : Z) (body : MissionBody.t)
  : MissionReply * Sim.t :=
  match buildPatch body with
  | Throw reply => (reply, svc)
  | Ok patch =>
      match Sim.updateMission svc now patch with
      | (Ok mission, svc') => (Status200 mission, svc')
      | (Throw error, svc') => (ServiceRejected error, svc')
      end
  end.

End Coercions.

End Api.

(** ** Concrete states used in the examples *)

Module Examples.
Import Models.
Local Open Scope Q_scope.

(** A world whose [Math.random()] always answers [1/2] and whose UUIDs
    are [uuid-0], [uuid-1], ... *)
Definition w0 : World :=
  mkWorld (fun _ => 1 # 2) 0 (fun n => ("uuid-" +:+ pretty n)%string) 0 (fun _ => 0%Z) 0.

(** The service as its constructor leaves it at time 0 in [w0], and the
    world it leaves. *)
Definition svc0 : Sim.t := fst (Sim.create 0 w0).
Definition w0' : World := snd (Sim.create 0 w0).

(** [{ mode: m }], [{ cruiseTargetSpeedMph: v, cruiseGapMeters: g }] and
    [{ targetLaneIndex: l, cruiseTargetSpeedMph: v }]. *)
Definition modePatch (m : string) : DrivingMissionUpdate.t :=
  DrivingMissionUpdate.mk None None None None None (Some m) None None.
Definition speedGapPatch (v g : Q) : DrivingMissionUpdate.t :=
  DrivingMissionUpdate.mk None (Some (JS.Num v)) (Some (JS.Num g)) None None None
    None None.
Definition laneSpeedPatch (l v : Q) : DrivingMissionUpdate.t :=
  DrivingMissionUpdate.mk (Some (Some (JS.Num l))) (Some (JS.Num v)) None None None
    None None None.

(** [svc0] after a patch [{ mode: "hold" }]. *)
Definition svcHold : Sim.t := snd (Sim.updateMission svc0 1 (modePatch "hold")).

(** A world whose [Math.random()] always answers [9/10]: [pickRandom]
    then takes the last entry of a table (the motorcycle footprint). *)
Definition w9 : World :=
  mkWorld (fun _ => 9 # 10) 0 (fun n => ("uuid-9-" +:+ pretty n)%string) 0 (fun _ => 0%Z) 0.

(** [spawnVehicle({ laneIndex, speedMph, positionZ })] in world [w]. *)
Definition spawnAt (w : World) (s : Sim.t) (lane speedMph z : Q) : Sim.t :=
  snd (fst (Sim.spawnVehicle s
              (Sim.SpawnInput.mk (JS.Num lane) (Some speedMph) (Some z) None None) w)).

(** The live player moved to lane 7 by [updatePlayerState({ laneIndex: 7 })],
    or stopped by [updatePlayerState({ speedMps: 0 })]. *)
Definition svcLane7 : Sim.t :=
  Sim.updatePlayerState svc0
    (Sim.PlayerPatch.mk (Some 7) None None None None None None None None).
Definition svcStopped : Sim.t :=
  Sim.updatePlayerState svc0
    (Sim.PlayerPatch.mk None None (Some 0) None None None None None None).

(** A motorcycle at 75 mph, and a truck at the player's 58 mph, spawned in
    the player's lane at the player's position. *)
Definition svcBike : Sim.t := spawnAt w9 svcStopped 0 75 0.
Definition svcTruck : Sim.t := spawnAt w0 svc0 0 58 0.

(** Environments constructed over these services. *)
Definition envOf (svc : Sim.t) : Env.t := fst (Env.create Env.DEFAULT_CONFIG svc 0 w0).
Definition env0 : Env.t := envOf svc0.
Definition env7 : Env.t := envOf svcLane7.
Definition envBike : Env.t := envOf svcBike.
Definition envTruck : Env.t := envOf svcTruck.

(** [env0] reset with the goal [{ cruiseGapMeters: 0 }]. *)
Definition envGap0 : Env.t :=
  snd (fst (Env.reset env0 svc0 0
              (Some (Env.MissionGoal.mk None None (Some 0) None None None)) w0)).

(** A world whose [Math.random()] always answers [0]: every lane draws a
    spawn event, and [pickRandom] takes the first entry of a table. *)
Definition wz : World :=
  mkWorld (fun _ => 0) 0 (fun n => ("uuid-z-" +:+ pretty n)%string) 0 (fun _ => 0%Z) 0.

(** [svc0] with one more vehicle in lane 0, 852 m behind the origin. *)
Definition svcTail : Sim.t := spawnAt w0 svc0 0 70 (-852).

(** [svc0] with two more vehicles in lane 0, both behind the origin: one
    100 m behind it, the other 806 m behind it, next to the spawn point at
    -800 m. *)
Definition spawnInput (lane speedMph z : Q) : Sim.SpawnInput.t :=
  Sim.SpawnInput.mk (JS.Num lane) (Some speedMph) (Some z) None None.
Definition svcNearSpawn : Sim.t :=
  let r1 := Sim.spawnVehicle svc0 (spawnInput 0 70 (-100)) w0' in
  let r2 := Sim.spawnVehicle (snd (fst r1)) (spawnInput 0 70 (-806)) (snd r1) in
  snd (fst r2).

(** The live service one tick (160 ms) after [svc0]. *)
Definition svcLater : Sim.t := fst (Sim.step svc0 160 w0).

(** One-step episodes with the explicit seed 42 and the default policy. *)
Definition episodeOptions : Episode.EpisodeGenerationOptions.t :=
  Episode.EpisodeGenerationOptions.mk
    (Episode.MissionOverrides.mk None None None) (Some 1%nat) (Some 42%Z)
    (Episode.EpisodeMetadata.mk "california-101" "cruise_control" None) None.


(** [spawnVehicle({ laneIndex: 1 })]. *)
Definition spawnLane1 : Sim.SpawnInput.t :=
  Sim.SpawnInput.mk (JS.Num 1) None None None None.

(** Actions: coast, brake fully, or coast while requesting lane [l]. *)
Definition coast : DrivingAction.t := DrivingAction.mk 0 0 0 None.
Definition brakeHard : DrivingAction.t := DrivingAction.mk 0 0 1 None.
Definition requestLane (l : Q) : DrivingAction.t := DrivingAction.mk 0 0 0 (Some l).

End Examples.

(** * Properties *)

Section Numbers.
Local Open Scope Q_scope.

Lemma Qlt_bool_iff (a b : Q) : JS.Qlt_bool a b = true <-> a < b.
Proof.
  unfold JS.Qlt_bool. rewrite negb_true_iff.
  split.
  - intros H. apply Qnot_le_lt. intros Hle.
    apply Qle_bool_iff in Hle. congruence.
  - intros H. destruct (Qle_bool b a) eqn:E; [|reflexivity].
    apply Qle_bool_iff in E. lra.
Qed.

Lemma Qlt_bool_false_iff (a b : Q) : JS.Qlt_bool a b = false <-> b <= a.
Proof.
  unfold JS.Qlt_bool. rewrite negb_false_iff. apply Qle_bool_iff.
Qed.

Lemma Qle_bool_false_iff (a b : Q) : Qle_bool a b = false <-> b < a.
Proof.
  rewrite <- Qlt_bool_iff. unfold JS.Qlt_bool.
  destruct (Qle_bool a b); simpl; intuition congruence.
Qed.

Lemma isIntegerQ_iff (q : Q) :
  JS.isIntegerQ q = true <-> exists z : Z, q == inject_Z z.
Proof.
  unfold JS.isIntegerQ. rewrite Qeq_bool_iff. split.
  - intros H. exists (Qfloor q). symmetry. exact H.
  - intros [z Hz]. rewrite Hz at 1. rewrite Qfloor_Z. symmetry. exact Hz.
Qed.

Lemma max_min_clamp (lo hi v : Q) :
  lo <= hi -> lo <= JS.max lo (JS.min hi v) <= hi.
Proof.
  intros Hle. unfold JS.max, JS.min.
  destruct (Q.max_spec lo (Qmin hi v)) as [[? ->]|[? ->]];
    destruct (Q.min_spec hi v) as [[? E]|[? E]]; rewrite ?E in *; lra.
Qed.

Lemma max_min_inside (lo hi v : Q) :
  lo <= v <= hi -> JS.max lo (JS.min hi v) == v.
Proof.
  intros Hle. unfold JS.max, JS.min.
  destruct (Q.max_spec lo (Qmin hi v)) as [[? ->]|[? ->]];
    destruct (Q.min_spec hi v) as [[? E]|[? E]]; rewrite ?E in *; lra.
Qed.

End Numbers.

(** ** The mission state machine *)

(** What the data model asks of each field of a patch. *)
Module MissionSpec.
Import Models.
Local Open Scope Q_scope.

Definition validLane (s : Sim.t) (n : JS.number) : Prop :=
  exists z : Z,
    (0 <= z < Z.of_nat (length (Sim.laneProfiles s)))%Z /\
    exists q : Q, n = JS.Num q /\ q == inject_Z z.

Definition laneFieldOk (s : Sim.t) (f : option (option JS.number)) : Prop :=
  forall n, f = Some (Some n) -> validLane s n.

Definition speedFieldOk (f : option JS.number) : Prop :=
  forall n, f = Some n -> exists q : Q, n = JS.Num q.

Definition gapFieldOk (f : option JS.number) : Prop :=
  forall n, f = Some n -> exists q : Q, n = JS.Num q /\ 0 < q.

Definition modeFieldOk (f : option string) : Prop :=
  forall m, f = Some m ->
    m = "hold"%string \/ m = "cruise"%string \/ m = "lane_change"%string
    \/ m = "overtake"%string.

Definition directionFieldOk (f : option (option string)) : Prop :=
  forall d, f = Some (Some d) -> d = "left"%string \/ d = "right"%string.

Definition validPatch (s : Sim.t) (u : DrivingMissionUpdate.t) : Prop :=
  laneFieldOk s (DrivingMissionUpdate.targetLaneIndex u)
  /\ speedFieldOk (DrivingMissionUpdate.cruiseTargetSpeedMph u)
  /\ gapFieldOk (DrivingMissionUpdate.cruiseGapMeters u)
  /\ laneFieldOk s (DrivingMissionUpdate.returnLaneIndex u)
  /\ modeFieldOk (DrivingMissionUpdate.mode u)
  /\ directionFieldOk (DrivingMissionUpdate.laneChangeDirection u).

Definition clampSpeed (v : Q) : Q := Qmax 25 (Qmin 95 v).
Definition clampGap (g : Q) : Q := Qmax 8 (Qmin 120 g).

End MissionSpec.

Section Mission.
Import Models MissionSpec.
Local Open Scope Q_scope.

Lemma laneIndexOk_iff (s : Sim.t) (n : JS.number) :
  Sim.laneIndexOk s n = true <-> validLane s n.
Proof.
  unfold Sim.laneIndexOk, validLane. rewrite !andb_true_iff. split.
  - intros [[Hint Hge] Hlt]. destruct n as [q| | |]; simpl in *; try discriminate.
    apply isIntegerQ_iff in Hint as [z Hz].
    apply Qle_bool_iff in Hge. apply Qlt_bool_iff in Hlt.
    exists z. split; [|eauto].
    rewrite Hz in Hge, Hlt. change 0 with (inject_Z 0) in Hge.
    rewrite <- Zle_Qle in Hge. rewrite <- Zlt_Qlt in Hlt. lia.
  - intros (z & Hz & q & -> & Hq). simpl.
    split; [split|].
    + apply isIntegerQ_iff. eauto.
    + apply Qle_bool_iff. rewrite Hq. change 0 with (inject_Z 0).
      rewrite <- Zle_Qle. lia.
    + apply Qlt_bool_iff. rewrite Hq. rewrite <- Zlt_Qlt. lia.
Qed.

Lemma includes_validModes (m : string) :
  Sim.includes Sim.validModes m = true <->
  m = "hold"%string \/ m = "cruise"%string \/ m = "lane_change"%string
  \/ m = "overtake"%string.
Proof.
  unfold Sim.includes, Sim.validModes. rewrite bool_decide_eq_true.
  rewrite !elem_of_cons, elem_of_nil. tauto.
Qed.

Lemma includes_validDirections (d : string) :
  Sim.includes Sim.validDirections d = true <->
  d = "left"%string \/ d = "right"%string.
Proof.
  unfold Sim.includes, Sim.validDirections. rewrite bool_decide_eq_true.
  rewrite !elem_of_cons, elem_of_nil. tauto.
Qed.

(** A patch passes the checks of [updateMission] exactly when each of its
    fields is valid. *)
Lemma validateMission_Ok (s : Sim.t) (now : Z) (u : DrivingMissionUpdate.t) next :
  Sim.validateMission s now u = Ok next -> validPatch s u.
Proof.
  unfold Sim.validateMission, validPatch, laneFieldOk, speedFieldOk, gapFieldOk,
    modeFieldOk, directionFieldOk.
  destruct u as [tl sp gp src nt md rl dir]; simpl.
  intros H.
  destruct tl as [[n1|]|]; simpl in H;
    [destruct (Sim.laneIndexOk s n1) eqn:E1; simpl in H; [|discriminate]| |];
  (destruct sp as [n2|]; simpl in H;
    [destruct (JS.isFinite n2) eqn:E2; simpl in H; [|discriminate]|]);
  (destruct gp as [n3|]; simpl in H;
    [destruct (JS.isFinite n3) eqn:E3; simpl in H; [|discriminate];
     destruct (JS.leb n3 0) eqn:E3'; simpl in H; [discriminate|]|]);
  (destruct rl as [[n4|]|]; simpl in H;
    [destruct (Sim.laneIndexOk s n4) eqn:E4; simpl in H; [|discriminate]| |]);
  (destruct md as [m|]; simpl in H;
    [destruct (Sim.includes Sim.validModes m) eqn:E5; simpl in H; [|discriminate]|]);
  (destruct dir as [[d|]|]; simpl in H;
    [destruct (Sim.includes Sim.validDirections d) eqn:E6; simpl in H; [|discriminate]| |]);
  repeat split; intros x Hx; simplify_eq;
    try (apply laneIndexOk_iff; assumption);
    try (apply includes_validModes; assumption);
    try (apply includes_validDirections; assumption);
    try (destruct x; try discriminate; eexists; split; [reflexivity|];
         simpl in *; apply Qle_bool_false_iff; assumption);
    try (destruct x; try discriminate; eexists; reflexivity).
Qed.

Lemma validateMission_complete (s : Sim.t) (now : Z) (u : DrivingMissionUpdate.t) :
  validPatch s u ->
  exists next, Sim.validateMission s now u = Ok next
    /\ (forall v, DrivingMissionUpdate.cruiseTargetSpeedMph u = Some (JS.Num v) ->
        DrivingMissionSnapshot.cruiseTargetSpeedMph next = clampSpeed v)
    /\ (forall g, DrivingMissionUpdate.cruiseGapMeters u = Some (JS.Num g) ->
        DrivingMissionSnapshot.cruiseGapMeters next = clampGap g)
    /\ (DrivingMissionUpdate.cruiseTargetSpeedMph u = None ->
        DrivingMissionSnapshot.cruiseTargetSpeedMph next
        = DrivingMissionSnapshot.cruiseTargetSpeedMph (Sim.mission s))
    /\ (DrivingMissionUpdate.cruiseGapMeters u = None ->
        DrivingMissionSnapshot.cruiseGapMeters next
        = DrivingMissionSnapshot.cruiseGapMeters (Sim.mission s))
    /\ (forall m, DrivingMissionUpdate.mode u = Some m ->
        DrivingMissionSnapshot.mode next = m).
Proof.
  unfold validPatch, laneFieldOk, speedFieldOk, gapFieldOk, modeFieldOk,
    directionFieldOk, Sim.validateMission.
  destruct u as [tl sp gp src nt md rl dir]; simpl.
  intros (Htl & Hsp & Hgp & Hrl & Hmd & Hdir).
  assert (Etl : forall n, tl = Some (Some n) -> Sim.laneIndexOk s n = true).
  { intros n Hn. apply laneIndexOk_iff. auto. }
  assert (Erl : forall n, rl = Some (Some n) -> Sim.laneIndexOk s n = true).
  { intros n Hn. apply laneIndexOk_iff. auto. }
  assert (Emd : forall m, md = Some m -> Sim.includes Sim.validModes m = true).
  { intros m Hm. apply includes_validModes. auto. }
  assert (Edir : forall d, dir = Some (Some d) ->
                           Sim.includes Sim.validDirections d = true).
  { intros d Hd. apply includes_validDirections. auto. }
  destruct tl as [[n1|]|]; simpl; rewrite ?(Etl _ eq_refl); simpl;
  (destruct sp as [n2|]; simpl;
    [destruct (Hsp _ eq_refl) as [q2 ->]; simpl|]);
  (destruct gp as [n3|]; simpl;
    [destruct (Hgp _ eq_refl) as (q3 & -> & Hq3); simpl;
     apply Qle_bool_false_iff in Hq3; rewrite Hq3; simpl|]);
  (destruct rl as [[n4|]|]; simpl; rewrite ?(Erl _ eq_refl); simpl);
  (destruct md as [m|]; simpl; rewrite ?(Emd _ eq_refl); simpl);
  (destruct dir as [[d|]|]; simpl; rewrite ?(Edir _ eq_refl); simpl);
  eexists; (split; [reflexivity|]); simpl;
  repeat split; intros; simplify_eq; reflexivity.
Qed.

End Mission.

Section MissionClaims.
Import Models MissionSpec Examples.
Local Open Scope Q_scope.

(** The error thrown by [updateMission] names a field of the patch that is
    indeed invalid. *)
Definition describes (s : Sim.t) (u : DrivingMissionUpdate.t) (e : Sim.MissionError)
  : Prop :=
  match e with
  | Sim.InvalidLaneIndex n =>
      DrivingMissionUpdate.targetLaneIndex u = Some (Some n) /\ ~ validLane s n
  | Sim.InvalidCruiseTargetSpeedMph =>
      ~ speedFieldOk (DrivingMissionUpdate.cruiseTargetSpeedMph u)
  | Sim.InvalidCruiseGapMeters =>
      ~ gapFieldOk (DrivingMissionUpdate.cruiseGapMeters u)
  | Sim.InvalidReturnLaneIndex n =>
      DrivingMissionUpdate.returnLaneIndex u = Some (Some n) /\ ~ validLane s n
  | Sim.InvalidMissionMode m =>
      DrivingMissionUpdate.mode u = Some m /\ ~ modeFieldOk (Some m)
  | Sim.InvalidLaneChangeDirection =>
      ~ directionFieldOk (DrivingMissionUpdate.laneChangeDirection u)
  end.

Lemma laneIndexOk_false (s : Sim.t) (n : JS.number) :
  Sim.laneIndexOk s n = false -> ~ validLane s n.
Proof.
  intros E H. apply laneIndexOk_iff in H. congruence.
Qed.

Lemma validateMission_Throw (s : Sim.t) (now : Z) (u : DrivingMissionUpdate.t) e :
  Sim.validateMission s now u = Throw e -> describes s u e.
Proof.
  unfold Sim.validateMission, describes, speedFieldOk, gapFieldOk, modeFieldOk,
    directionFieldOk.
  destruct u as [tl sp gp src nt md rl dir]; simpl.
  intros H.
  destruct tl as [[n1|]|]; simpl in H;
    [destruct (Sim.laneIndexOk s n1) eqn:E1; simpl in H;
     [|injection H as <-; split; [reflexivity|by apply laneIndexOk_false]]| |];
  (destruct sp as [n2|]; simpl in H;
    [destruct (JS.isFinite n2) eqn:E2; simpl in H;
     [|injection H as <-; intros Hc; destruct (Hc _ eq_refl) as [q ->];
       discriminate]|]);
  (destruct gp as [n3|]; simpl in H;
    [destruct (JS.isFinite n3) eqn:E3; simpl in H;
     [destruct (JS.leb n3 0) eqn:E3'; simpl in H;
      [injection H as <-; intros Hc; destruct (Hc _ eq_refl) as (q & -> & Hq);
       simpl in E3'; apply Qle_bool_iff in E3'; lra|]
     |injection H as <-; intros Hc; destruct (Hc _ eq_refl) as (q & -> & Hq);
      discriminate]|]);
  (destruct rl as [[n4|]|]; simpl in H;
    [destruct (Sim.laneIndexOk s n4) eqn:E4; simpl in H;
     [|injection H as <-; split; [reflexivity|by apply laneIndexOk_false]]| |]);
  (destruct md as [m|]; simpl in H;
    [destruct (Sim.includes Sim.validModes m) eqn:E5; simpl in H;
     [|injection H as <-; split; [reflexivity|];
       intros Hc; specialize (Hc _ eq_refl); apply includes_validModes in Hc;
       congruence]|]);
  (destruct dir as [[d|]|]; simpl in H;
    [destruct (Sim.includes Sim.validDirections d) eqn:E6; simpl in H;
     [|injection H as <-; intros Hc; specialize (Hc _ eq_refl);
       apply includes_validDirections in Hc; congruence]| |]);
  discriminate.
Qed.

(** C1 (as the code has it): a patch whose fields are all valid is
    accepted, and the mission the call returns is the mission stored after
    it; a finite cruise target speed is stored clamped into [[25, 95]] and
    a finite positive gap clamped into [[8, 120]], so an out-of-range value
    such as 200 or 500 is replaced by the nearest bound.  The stored
    mission differs from the one before the call as soon as the clamped
    speed, or the clamped gap, differs from the stored one. *)
Theorem updateMission_clamps_speed_and_gap
    (s : Sim.t) (now : Z) (u : DrivingMissionUpdate.t) :
  validPatch s u ->
  exists next,
    Sim.updateMission s now u = (Ok next, Sim.set_mission next s)
    /\ Sim.getMission (snd (Sim.updateMission s now u)) = next
    /\ (forall v, DrivingMissionUpdate.cruiseTargetSpeedMph u = Some (JS.Num v) ->
        DrivingMissionSnapshot.cruiseTargetSpeedMph next == clampSpeed v
        /\ 25 <= DrivingMissionSnapshot.cruiseTargetSpeedMph next <= 95
        /\ (~ clampSpeed v
              == DrivingMissionSnapshot.cruiseTargetSpeedMph (Sim.getMission s) ->
            Sim.getMission (snd (Sim.updateMission s now u)) <> Sim.getMission s))
    /\ (forall g, DrivingMissionUpdate.cruiseGapMeters u = Some (JS.Num g) ->
        DrivingMissionSnapshot.cruiseGapMeters next == clampGap g
        /\ 8 <= DrivingMissionSnapshot.cruiseGapMeters next <= 120
        /\ (~ clampGap g
              == DrivingMissionSnapshot.cruiseGapMeters (Sim.getMission s) ->
            Sim.getMission (snd (Sim.updateMission s now u)) <> Sim.getMission s)).
Proof.
  intros Hv.
  destruct (validateMission_complete s now u Hv) as (next & E & Hs & Hg & _).
  exists next. unfold Sim.updateMission. rewrite E. cbn [snd].
  assert (Hstored : Sim.getMission (Sim.set_mission next s) = next)
    by (destruct next; reflexivity).
  split; [reflexivity|]. split; [exact Hstored|]. rewrite Hstored.
  split.
  - intros v Hu. rewrite (Hs v Hu). split; [reflexivity|].
    split; [apply (max_min_clamp 25 95 v); lra|].
    intros Hne Heq. apply Hne. rewrite <- Heq, (Hs v Hu). reflexivity.
  - intros g Hu. rewrite (Hg g Hu). split; [reflexivity|].
    split; [apply (max_min_clamp 8 120 g); lra|].
    intros Hne Heq. apply Hne. rewrite <- Heq, (Hg g Hu). reflexivity.
Qed.

Lemma speedGapPatch_valid (s : Sim.t) (v g : Q) :
  0 < g -> validPatch s (speedGapPatch v g).
Proof.
  intros Hg. unfold validPatch, speedGapPatch; simpl.
  repeat split; intros x Hx; try discriminate; simplify_eq; eauto.
Qed.

Lemma updateMission_clamps_speed_and_gap_witness :
  validPatch svc0 (speedGapPatch 200 500)
  /\ exists next,
      Sim.updateMission svc0 1 (speedGapPatch 200 500)
      = (Ok next, Sim.set_mission next svc0)
      /\ Sim.getMission (snd (Sim.updateMission svc0 1 (speedGapPatch 200 500))) = next
      /\ DrivingMissionSnapshot.cruiseTargetSpeedMph next == clampSpeed 200
      /\ DrivingMissionSnapshot.cruiseGapMeters next == clampGap 500.
Proof.
  assert (H : validPatch svc0 (speedGapPatch 200 500)).
  { apply speedGapPatch_valid. reflexivity. }
  split; [exact H|].
  destruct (updateMission_clamps_speed_and_gap svc0 1 (speedGapPatch 200 500) H)
    as (next & E & Hst & Hs & Hg).
  exists next. split; [exact E|]. split; [exact Hst|]. split.
  - exact (proj1 (Hs 200 eq_refl)).
  - exact (proj1 (Hg 500 eq_refl)).
Defined.

(** C1, as stated, fails: the patch [{ cruiseTargetSpeedMph: 200,
    cruiseGapMeters: 500 }] is accepted, and the mission stored afterwards
    (speed 95, gap 120) differs from the one stored before (65 and 32). *)
Lemma updateMission_out_of_range_accepted :
  exists next,
    Sim.updateMission svc0 1 (speedGapPatch 200 500)
    = (Ok next, Sim.set_mission next svc0)
    /\ DrivingMissionSnapshot.cruiseTargetSpeedMph next == 95
    /\ DrivingMissionSnapshot.cruiseGapMeters next == 120
    /\ DrivingMissionSnapshot.cruiseTargetSpeedMph (Sim.getMission svc0) == 65
    /\ DrivingMissionSnapshot.cruiseGapMeters (Sim.getMission svc0) == 32
    /\ Sim.getMission (snd (Sim.updateMission svc0 1 (speedGapPatch 200 500)))
       <> Sim.getMission svc0.
Proof.
  eexists. split; [vm_compute; reflexivity|].
  repeat split; try (vm_compute; reflexivity).
  vm_compute. discriminate.
Qed.

(** C4: a patch with an invalid field makes [updateMission] throw an error
    that names an invalid field of the patch, and leaves the service, and
    so the stored mission, exactly as it was. *)
Theorem updateMission_invalid_patch_atomic
    (s : Sim.t) (now : Z) (u : DrivingMissionUpdate.t) :
  ~ validPatch s u ->
  exists e,
    Sim.updateMission s now u = (Throw e, s)
    /\ describes s u e
    /\ Sim.getMission (snd (Sim.updateMission s now u)) = Sim.getMission s.
Proof.
  intros Hinv. unfold Sim.updateMission.
  destruct (Sim.validateMission s now u) as [next|e] eqn:E.
  - exfalso. apply Hinv. eapply validateMission_Ok. exact E.
  - exists e. split; [reflexivity|]. split; [|reflexivity].
    eapply validateMission_Throw. exact E.
Qed.

Lemma laneSpeedPatch_7_invalid : ~ validPatch svc0 (laneSpeedPatch 7 70).
Proof.
  intros (Hl & _). destruct (Hl _ eq_refl) as (z & Hz & q & Hq & Hqz).
  injection Hq as <-. change 7 with (inject_Z 7) in Hqz.
  rewrite inject_Z_injective in Hqz. subst z. vm_compute in Hz.
  destruct Hz as [_ Hz]. discriminate.
Qed.

Lemma updateMission_invalid_patch_atomic_witness :
  ~ validPatch svc0 (laneSpeedPatch 7 70)
  /\ exists e,
      Sim.updateMission svc0 1 (laneSpeedPatch 7 70) = (Throw e, svc0)
      /\ describes svc0 (laneSpeedPatch 7 70) e
      /\ Sim.getMission (snd (Sim.updateMission svc0 1 (laneSpeedPatch 7 70)))
         = Sim.getMission svc0.
Proof.
  split; [exact laneSpeedPatch_7_invalid|].
  exact (updateMission_invalid_patch_atomic svc0 1 (laneSpeedPatch 7 70)
           laneSpeedPatch_7_invalid).
Defined.

End MissionClaims.

Section CruiseDefaults.
Import Models MissionSpec Examples.
Local Open Scope Q_scope.

Lemma applyCruiseDefaults_valid (s : Sim.t) (cur : Q) (p : DrivingMissionUpdate.t) :
  validPatch s p ->
  DrivingMissionUpdate.mode p = Some "cruise"%string ->
  DrivingMissionUpdate.cruiseTargetSpeedMph p = None ->
  DrivingMissionUpdate.cruiseGapMeters p = None ->
  validPatch s (Voice.applyCruiseDefaults cur p)
  /\ DrivingMissionUpdate.cruiseTargetSpeedMph (Voice.applyCruiseDefaults cur p)
     = Some (JS.Num cur)
  /\ DrivingMissionUpdate.cruiseGapMeters (Voice.applyCruiseDefaults cur p)
     = Some (JS.Num (2 * 4.6))
  /\ DrivingMissionUpdate.mode (Voice.applyCruiseDefaults cur p) = Some "cruise"%string.
Proof.
  intros (Htl & Hsp & Hgp & Hrl & Hmd & Hdir) Em Es Eg.
  unfold Voice.applyCruiseDefaults. rewrite Em, Es, Eg. simpl.
  repeat split; simpl; try assumption.
  - intros n [= <-]. eauto.
  - intros n [= <-]. eexists. split; [reflexivity|]. reflexivity.
  - rewrite <- Em. assumption.
Qed.

(** C5 (as the code has it): the defaults are filled in by the voice front
    door, not by [updateMission].  After [applyMission] has been given a
    valid patch that sets mode cruise without speed or gap, the mission
    stored in the service is in cruise mode, with the ego's current speed
    in mph clamped into [[25, 95]] (the speed itself when it lies in that
    range) and a gap of 9.2 m, two car lengths of 4.6 m; the same patch
    given to [updateMission] directly keeps the previous speed and gap.
    What [applyMission] answers after storing the mission is not part of
    the statement. *)
Theorem applyMission_cruise_defaults
    (s : Sim.t) (now : Z) (p : DrivingMissionUpdate.t) :
  validPatch s p ->
  DrivingMissionUpdate.mode p = Some "cruise"%string ->
  DrivingMissionUpdate.cruiseTargetSpeedMph p = None ->
  DrivingMissionUpdate.cruiseGapMeters p = None ->
  (let stored := Sim.getMission (snd (Voice.applyMission s now p)) in
   DrivingMissionSnapshot.mode stored = "cruise"%string
   /\ DrivingMissionSnapshot.cruiseTargetSpeedMph stored
      == clampSpeed (PlayerSnapshot.speedMph (Sim.getPlayerState s))
   /\ (25 <= PlayerSnapshot.speedMph (Sim.getPlayerState s) <= 95 ->
       DrivingMissionSnapshot.cruiseTargetSpeedMph stored
       == PlayerSnapshot.speedMph (Sim.getPlayerState s))
   /\ DrivingMissionSnapshot.cruiseGapMeters stored == 9.2)
  /\ (exists next,
      Sim.updateMission s now p = (Ok next, Sim.set_mission next s)
      /\ DrivingMissionSnapshot.cruiseTargetSpeedMph next
         = DrivingMissionSnapshot.cruiseTargetSpeedMph (Sim.getMission s)
      /\ DrivingMissionSnapshot.cruiseGapMeters next
         = DrivingMissionSnapshot.cruiseGapMeters (Sim.getMission s)).
Proof.
  intros Hv Em Es Eg. split.
  - destruct (applyCruiseDefaults_valid s (Voice.currentSpeedMph s) p Hv Em Es Eg)
      as (Hv' & Es' & Eg' & Em').
    destruct (validateMission_complete s now _ Hv')
      as (next & E & Hs & Hg & _ & _ & Hm).
    assert (Ecur : Voice.currentSpeedMph s = PlayerSnapshot.speedMph (Sim.getPlayerState s))
      by reflexivity.
    unfold Voice.applyMission, Voice.hasMeaningfulUpdate.
    rewrite Es'. simpl. unfold Sim.updateMission. rewrite E.
    cbn [Voice.updateVoiceStatus snd Sim.getMission Sim.set_mission Sim.mission].
    split; [exact (Hm _ Em')|].
    rewrite (Hs _ Es'), (Hg _ Eg'), Ecur.
    split; [reflexivity|]. split.
    + intros Hr. apply (max_min_inside 25 95). exact Hr.
    + apply (max_min_inside 8 120). split; vm_compute; discriminate.
  - destruct (validateMission_complete s now p Hv)
      as (next & E & _ & _ & Hs & Hg & _).
    exists next. unfold Sim.updateMission. rewrite E.
    split; [reflexivity|]. split; [exact (Hs Es)|exact (Hg Eg)].
Qed.

Lemma modePatch_cruise_valid (s : Sim.t) : validPatch s (modePatch "cruise").
Proof.
  unfold validPatch, modePatch; simpl.
  repeat split; intros x Hx; try discriminate; simplify_eq; tauto.
Qed.

Lemma applyMission_cruise_defaults_witness :
  (validPatch svcHold (modePatch "cruise")
   /\ DrivingMissionUpdate.mode (modePatch "cruise") = Some "cruise"%string
   /\ DrivingMissionUpdate.cruiseTargetSpeedMph (modePatch "cruise") = None
   /\ DrivingMissionUpdate.cruiseGapMeters (modePatch "cruise") = None)
  /\ (let stored :=
        Sim.getMission (snd (Voice.applyMission svcHold 2 (modePatch "cruise"))) in
      DrivingMissionSnapshot.mode stored = "cruise"%string
      /\ DrivingMissionSnapshot.cruiseTargetSpeedMph stored
         == clampSpeed (PlayerSnapshot.speedMph (Sim.getPlayerState svcHold))
      /\ (25 <= PlayerSnapshot.speedMph (Sim.getPlayerState svcHold) <= 95 ->
          DrivingMissionSnapshot.cruiseTargetSpeedMph stored
          == PlayerSnapshot.speedMph (Sim.getPlayerState svcHold))
      /\ DrivingMissionSnapshot.cruiseGapMeters stored == 9.2)
  /\ (exists next,
      Sim.updateMission svcHold 2 (modePatch "cruise")
      = (Ok next, Sim.set_mission next svcHold)
      /\ DrivingMissionSnapshot.cruiseTargetSpeedMph next
         = DrivingMissionSnapshot.cruiseTargetSpeedMph (Sim.getMission svcHold)
      /\ DrivingMissionSnapshot.cruiseGapMeters next
         = DrivingMissionSnapshot.cruiseGapMeters (Sim.getMission svcHold)).
Proof.
  split.
  - split; [apply modePatch_cruise_valid|]. repeat split; reflexivity.
  - exact (applyMission_cruise_defaults svcHold 2 (modePatch "cruise")
             (modePatch_cruise_valid svcHold) eq_refl eq_refl eq_refl).
Defined.

(** C5, as stated, fails for the update-mission operation: with the mission
    on hold, the ego at 58 mph and the patch [{ mode: "cruise" }], the
    accepted mission is in cruise mode with the previous target speed 65
    and gap 32, neither the ego's speed nor 9.2 m. *)
Lemma updateMission_cruise_keeps_previous_targets :
  DrivingMissionSnapshot.mode (Sim.getMission svcHold) = "hold"%string
  /\ PlayerSnapshot.speedMph (Sim.getPlayerState svcHold) == 58
  /\ exists next,
      Sim.updateMission svcHold 2 (modePatch "cruise")
      = (Ok next, Sim.set_mission next svcHold)
      /\ DrivingMissionSnapshot.mode next = "cruise"%string
      /\ DrivingMissionSnapshot.cruiseTargetSpeedMph next == 65
      /\ ~ DrivingMissionSnapshot.cruiseTargetSpeedMph next == 58
      /\ DrivingMissionSnapshot.cruiseGapMeters next == 32
      /\ ~ DrivingMissionSnapshot.cruiseGapMeters next == 2 * 4.6.
Proof.
  split; [vm_compute; reflexivity|]. split; [vm_compute; reflexivity|].
  eexists. split; [vm_compute; reflexivity|].
  repeat split; try (vm_compute; reflexivity); vm_compute; discriminate.
Qed.

(** On the same input [applyMission] stores the cruise mission and then
    answers 400: the call of [updateVoiceStatus] that follows
    [updateMission] inside the [try] throws. *)
Lemma applyMission_answers_after_storing :
  fst (Voice.applyMission svcHold 2 (modePatch "cruise"))
  = Voice.BadRequest Voice.UpdateVoiceStatusIsNotAFunction
  /\ DrivingMissionSnapshot.mode
       (Sim.getMission (snd (Voice.applyMission svcHold 2 (modePatch "cruise"))))
     = "cruise"%string
  /\ DrivingMissionSnapshot.mode (Sim.getMission svcHold) = "hold"%string.
Proof. repeat split; vm_compute; reflexivity. Qed.

End CruiseDefaults.

(** ** The reinforcement-learning environment *)

Section EnvLane.
Import Models.
Local Open Scope Q_scope.

Definition laneCountOf (e : Env.t) : Q :=
  inject_Z (Z.of_nat (length (Env.laneProfiles e))).

Definition laneInRange (e : Env.t) : Prop :=
  0 <= Env.EgoState.laneIndex (Env.ego e) <= laneCountOf e - 1.

(** The lateral offset accumulated by a step that moves towards the
    requested lane. *)
Definition accumulatedOffset (e : Env.t) (action : DrivingAction.t) : Q :=
  let laneDelta := Env.requestedLaneOf e action - Env.EgoState.laneIndex (Env.ego e) in
  Env.EgoState.laneOffset (Env.ego e)
  + JS.sign laneDelta * Env.Config.timeStepSeconds (Env.config e)
    * (Env.LANE_WIDTH_METERS / 1.2).

Definition committedLane (e : Env.t) (action : DrivingAction.t) : Q :=
  let laneDelta := Env.requestedLaneOf e action - Env.EgoState.laneIndex (Env.ego e) in
  Qmax 0 (Qmin (laneCountOf e - 1)
               (Env.EgoState.laneIndex (Env.ego e) + JS.sign laneDelta)).

Lemma step_ego (e : Env.t) (now : Z) (action : DrivingAction.t) :
  Env.ego (snd (Env.step e now action)) = Env.moveEgo e action.
Proof. reflexivity. Qed.

Lemma step_laneProfiles (e : Env.t) (now : Z) (action : DrivingAction.t) :
  Env.laneProfiles (snd (Env.step e now action)) = Env.laneProfiles e.
Proof. reflexivity. Qed.

Lemma moveEgo_lane_cases (e : Env.t) (action : DrivingAction.t) :
  (Env.EgoState.laneIndex (Env.moveEgo e action)
   = Env.EgoState.laneIndex (Env.ego e))
  \/ (Env.EgoState.laneIndex (Env.moveEgo e action) = committedLane e action
      /\ Env.EgoState.laneOffset (Env.moveEgo e action) = 0
      /\ Env.LANE_WIDTH_METERS * 0.5 <= Qabs (accumulatedOffset e action)
      /\ 0.01 < Qabs (Env.requestedLaneOf e action
                      - Env.EgoState.laneIndex (Env.ego e))).
Proof.
  unfold Env.moveEgo.
  destruct (JS.Qlt_bool 0.01 _) eqn:E1; [|left; reflexivity].
  destruct (Qle_bool (Env.LANE_WIDTH_METERS * 0.5) _) eqn:E2; [|left; reflexivity].
  right. apply Qlt_bool_iff in E1. apply Qle_bool_iff in E2.
  repeat split; assumption.
Qed.

(** C10 (as the code has it): a step started with the ego's lane index
    inside [[0, laneCount - 1]] ends with it inside, whatever lane the
    action requests; the index changes only when the accumulated lateral
    offset has reached half a lane width, and then the new index is the
    old one moved by one lane and clamped to the lane bounds, and the
    lateral offset is 0. *)
Theorem step_keeps_lane_index_in_range
    (e : Env.t) (now : Z) (action : DrivingAction.t) :
  laneInRange e ->
  laneInRange (snd (Env.step e now action))
  /\ (~ Env.EgoState.laneIndex (Env.ego (snd (Env.step e now action)))
        == Env.EgoState.laneIndex (Env.ego e) ->
      Env.LANE_WIDTH_METERS * 0.5 <= Qabs (accumulatedOffset e action)
      /\ Env.EgoState.laneIndex (Env.ego (snd (Env.step e now action)))
         == committedLane e action
      /\ Env.EgoState.laneOffset (Env.ego (snd (Env.step e now action))) == 0).
Proof.
  unfold laneInRange, laneCountOf. intros Hin.
  rewrite step_ego, step_laneProfiles.
  destruct (moveEgo_lane_cases e action) as [E|(E & Eo & Hacc & _)].
  - rewrite E. split; [exact Hin|]. intros Hne. exfalso. apply Hne. reflexivity.
  - rewrite E, Eo. split.
    + unfold committedLane, laneCountOf. apply (max_min_clamp 0 _ _). lra.
    + intros _. repeat split; try reflexivity. exact Hacc.
Qed.

End EnvLane.

Section EnvCollision.
Import Models Examples.
Local Open Scope Q_scope.

Lemma moveEgo_no_lane_delta (e : Env.t) (action : DrivingAction.t) :
  Env.requestedLaneOf e action == Env.EgoState.laneIndex (Env.ego e) ->
  Env.EgoState.laneIndex (Env.moveEgo e action) = Env.EgoState.laneIndex (Env.ego e)
  /\ Env.EgoState.laneOffset (Env.moveEgo e action)
     = Env.EgoState.laneOffset (Env.ego e) * 0.8.
Proof.
  intros Hreq. unfold Env.moveEgo.
  assert (E : JS.Qlt_bool 0.01
                (JS.abs (Env.requestedLaneOf e action
                         - Env.EgoState.laneIndex (Env.ego e))) = false).
  { apply Qlt_bool_false_iff. unfold JS.abs.
    assert (Hz : Env.requestedLaneOf e action - Env.EgoState.laneIndex (Env.ego e) == 0)
      by lra.
    rewrite Hz. vm_compute. discriminate. }
  rewrite E. split; reflexivity.
Qed.

Lemma updateTraffic_keeps (dt : Q) (traffic : list Env.EnvironmentVehicle)
    (v : Env.EnvironmentVehicle) :
  In v traffic ->
  Env.positionZ v + Env.speedMps v * dt < 1200 ->
  In (Env.mkVehicle (Env.id v) (Env.laneIndex v)
        (Env.positionZ v + Env.speedMps v * dt) (Env.speedMps v)
        (Env.lengthMeters v) (Env.widthMeters v) (Env.type v))
     (Env.updateTraffic dt traffic).
Proof.
  intros Hin Hlt. unfold Env.updateTraffic. apply filter_In. split.
  - apply in_map_iff. exists v. split; [reflexivity|exact Hin].
  - simpl. apply Qlt_bool_iff. exact Hlt.
Qed.

(** C6 (as the code has it): the collision test runs after the step has
    moved the ego and the traffic.  With a vehicle in the ego's lane and
    the requested lane equal to the current one, the step ends the episode
    with a collision penalty of -25 whenever the vehicle, moved by its
    speed, is still short of the 1200 m bound and within
    2.3 + length/2 + 3 of the moved ego, and the recentred lateral offset
    (0.8 of the previous one) is smaller than 0.9 + width/2. *)
Theorem step_collision_ends_episode
    (e : Env.t) (now : Z) (action : DrivingAction.t) (v : Env.EnvironmentVehicle) :
  In v (Env.traffic e) ->
  Env.sameLane v (Env.EgoState.laneIndex (Env.ego e)) = true ->
  Env.requestedLaneOf e action == Env.EgoState.laneIndex (Env.ego e) ->
  Env.positionZ v + Env.speedMps v * Env.getTimeStepSeconds e < 1200 ->
  Qabs (Env.positionZ v + Env.speedMps v * Env.getTimeStepSeconds e
        - Env.EgoState.positionZ (Env.moveEgo e action))
  <= 2.3 + Env.lengthMeters v * 0.5 + 3 ->
  Qabs (Env.EgoState.laneOffset (Env.ego e) * 0.8) < 0.9 + Env.widthMeters v * 0.5 ->
  Env.DrivingStepResult.done (fst (Env.step e now action)) = true
  /\ RewardBreakdown.collisionPenalty
       (Env.DrivingStepResult.reward (fst (Env.step e now action))) == -25
  /\ Env.StepInfo.collisions
       (Env.DrivingStepResult.info (fst (Env.step e now action))) = 1%Z.
Proof.
  intros Hin Hlane Hreq Hbound Hlong Hlat.
  destruct (moveEgo_no_lane_delta e action Hreq) as [El Eo].
  assert (Hc : Env.detectCollision
                 (Env.mk (Env.config e) (Env.laneProfiles e)
                    (Env.updateTraffic (Env.getTimeStepSeconds e) (Env.traffic e))
                    (Env.moveEgo e action) (Env.elapsedSeconds e) (Env.episodeId e)
                    (Env.mission e)) = true).
  { unfold Env.detectCollision. apply existsb_exists.
    eexists. split; [apply (updateTraffic_keeps _ _ v Hin Hbound)|].
    unfold Env.collidesWith, Env.sameLane in *.
    cbn [Env.laneIndex Env.positionZ Env.lengthMeters Env.widthMeters Env.ego].
    rewrite El, Hlane. cbn [negb].
    assert (E1 : JS.Qlt_bool (2.3 + Env.lengthMeters v * 0.5 + 3)
                   (JS.abs (Env.positionZ v + Env.speedMps v * Env.getTimeStepSeconds e
                            - Env.EgoState.positionZ (Env.moveEgo e action))) = false).
    { apply Qlt_bool_false_iff. exact Hlong. }
    rewrite E1. apply Qlt_bool_iff. rewrite Eo. exact Hlat. }
  unfold Env.getTimeStepSeconds in Hc. unfold Env.step.
  cbn [fst Env.DrivingStepResult.done Env.DrivingStepResult.reward
       Env.DrivingStepResult.info Env.StepInfo.collisions Env.laneProfiles
       Env.traffic Env.ego Env.config Env.mission].
  rewrite Hc. cbn [orb].
  split; [reflexivity|]. split; [|reflexivity].
  unfold Env.computeReward. cbn [RewardBreakdown.collisionPenalty].
  assert (E2 : JS.Qlt_bool 0.5
                 (JS.abs (Env.requestedLaneOf e action
                          - Env.EgoState.laneIndex (Env.ego e))) = false).
  { apply Qlt_bool_false_iff. unfold JS.abs.
    assert (Hz : Env.requestedLaneOf e action - Env.EgoState.laneIndex (Env.ego e) == 0)
      by lra.
    rewrite Hz. vm_compute. discriminate. }
  rewrite E2. reflexivity.
Qed.

End EnvCollision.

(** Splits the conjunctions of a closed goal, and nothing else, so that
    each part can be decided by evaluation. *)
Ltac split_all := repeat match goal with |- _ /\ _ => split end.

Section EnvExamples.
Import Models Examples.
Local Open Scope Q_scope.

Lemma step_keeps_lane_index_in_range_witness :
  laneInRange env0
  /\ laneInRange (snd (Env.step env0 1 (requestLane 99)))
  /\ (~ Env.EgoState.laneIndex (Env.ego (snd (Env.step env0 1 (requestLane 99))))
        == Env.EgoState.laneIndex (Env.ego env0) ->
      Env.LANE_WIDTH_METERS * 0.5 <= Qabs (accumulatedOffset env0 (requestLane 99))
      /\ Env.EgoState.laneIndex (Env.ego (snd (Env.step env0 1 (requestLane 99))))
         == committedLane env0 (requestLane 99)
      /\ Env.EgoState.laneOffset (Env.ego (snd (Env.step env0 1 (requestLane 99)))) == 0).
Proof.
  assert (H : laneInRange env0).
  { split; vm_compute; discriminate. }
  split; [exact H|].
  exact (step_keeps_lane_index_in_range env0 1 (requestLane 99) H).
Defined.

(** C10, as stated, fails: [reset] copies the live player's lane index,
    which [updatePlayerState] does not validate.  After the player has
    been put in lane 7 on the five-lane scene, a step that requests lane 7
    returns with the ego in lane 7. *)
Lemma step_lane_index_out_of_range :
  laneCountOf env7 == 5
  /\ Env.EgoState.laneIndex (Env.ego (snd (Env.step env7 1 (requestLane 7)))) == 7
  /\ ~ laneInRange (snd (Env.step env7 1 (requestLane 7))).
Proof.
  split; [vm_compute; reflexivity|]. split; [vm_compute; reflexivity|].
  intros [_ H]. vm_compute in H. apply H. reflexivity.
Qed.

(** The truck spawned at the player's position, as [envTruck] holds it, and
    the motorcycle of [envBike]. *)
Definition truckAtEgo : Env.EnvironmentVehicle :=
  default (Env.mkVehicle "" 0 0 0 0 0 sedan) (last (Env.traffic envTruck)).
Definition bikeAtEgo : Env.EnvironmentVehicle :=
  default (Env.mkVehicle "" 0 0 0 0 0 sedan) (last (Env.traffic envBike)).

Lemma step_collision_ends_episode_witness :
  (In truckAtEgo (Env.traffic envTruck)
   /\ Env.sameLane truckAtEgo (Env.EgoState.laneIndex (Env.ego envTruck)) = true
   /\ Env.requestedLaneOf envTruck coast == Env.EgoState.laneIndex (Env.ego envTruck)
   /\ Env.positionZ truckAtEgo
      + Env.speedMps truckAtEgo * Env.getTimeStepSeconds envTruck < 1200
   /\ Qabs (Env.positionZ truckAtEgo
            + Env.speedMps truckAtEgo * Env.getTimeStepSeconds envTruck
            - Env.EgoState.positionZ (Env.moveEgo envTruck coast))
      <= 2.3 + Env.lengthMeters truckAtEgo * 0.5 + 3
   /\ Qabs (Env.EgoState.laneOffset (Env.ego envTruck) * 0.8)
      < 0.9 + Env.widthMeters truckAtEgo * 0.5)
  /\ Env.DrivingStepResult.done (fst (Env.step envTruck 1 coast)) = true
  /\ RewardBreakdown.collisionPenalty
       (Env.DrivingStepResult.reward (fst (Env.step envTruck 1 coast))) == -25
  /\ Env.StepInfo.collisions
       (Env.DrivingStepResult.info (fst (Env.step envTruck 1 coast))) = 1%Z.
Proof.
  assert (H1 : In truckAtEgo (Env.traffic envTruck)).
  { vm_compute. repeat (first [left; reflexivity | right]). }
  assert (H2 : Env.sameLane truckAtEgo (Env.EgoState.laneIndex (Env.ego envTruck)) = true)
    by (vm_compute; reflexivity).
  assert (H3 : Env.requestedLaneOf envTruck coast
               == Env.EgoState.laneIndex (Env.ego envTruck))
    by (vm_compute; reflexivity).
  assert (H4 : Env.positionZ truckAtEgo
               + Env.speedMps truckAtEgo * Env.getTimeStepSeconds envTruck < 1200)
    by (vm_compute; reflexivity).
  assert (H5 : Qabs (Env.positionZ truckAtEgo
                     + Env.speedMps truckAtEgo * Env.getTimeStepSeconds envTruck
                     - Env.EgoState.positionZ (Env.moveEgo envTruck coast))
               <= 2.3 + Env.lengthMeters truckAtEgo * 0.5 + 3)
    by (vm_compute; discriminate).
  assert (H6 : Qabs (Env.EgoState.laneOffset (Env.ego envTruck) * 0.8)
               < 0.9 + Env.widthMeters truckAtEgo * 0.5)
    by (vm_compute; reflexivity).
  split; [split_all; assumption|].
  exact (step_collision_ends_episode envTruck 1 coast truckAtEgo H1 H2 H3 H4 H5 H6).
Defined.

(** C6, as stated, fails: with the player stopped and a motorcycle
    (2.2 m long) at the player's lane and position doing 75 mph, the step
    moves the motorcycle 6.7056 m ahead before testing, beyond the
    2.3 + 1.1 + 3 = 6.4 m of the test; the step returns [done = false] and
    a collision penalty of 0. *)
Lemma step_misses_vehicle_at_ego_position :
  In bikeAtEgo (Env.traffic envBike)
  /\ Env.sameLane bikeAtEgo (Env.EgoState.laneIndex (Env.ego envBike)) = true
  /\ Env.positionZ bikeAtEgo == Env.EgoState.positionZ (Env.ego envBike)
  /\ Env.requestedLaneOf envBike brakeHard == Env.EgoState.laneIndex (Env.ego envBike)
  /\ Env.DrivingStepResult.done (fst (Env.step envBike 1 brakeHard)) = false
  /\ RewardBreakdown.collisionPenalty
       (Env.DrivingStepResult.reward (fst (Env.step envBike 1 brakeHard))) == 0.
Proof.
  split; [vm_compute; repeat (first [left; reflexivity | right])|].
  split_all; vm_compute; reflexivity.
Qed.

End EnvExamples.

(** ** The reward *)

(** The reward terms in the words of the specification. *)
Module RewardSpec.
Local Open Scope Q_scope.

Definition progress (speed dt : Q) : Q := speed * dt.

Definition laneKeeping (offset : Q) (targetLane : option Q) (currentLane : Q) : Q :=
  - Qabs offset * 0.1
  + match targetLane with
    | Some target => - 0.35 * Qabs (target - currentLane)
    | None => 0
    end.

Definition comfort (netAccel : Q) : Q := - Qabs netAccel * 0.05.

Definition ruleCompliance (speed laneTargetSpeed : Q) : Q :=
  if Qle_bool speed (1.1 * laneTargetSpeed) then 0.2 else - 0.4.

Definition cruiseTracking (speed cruiseTarget : Q) : Q :=
  - Qabs (speed - cruiseTarget) * 0.04.

Definition gapKeeping (gapTarget forwardGap : Q) : Q :=
  - Qabs (gapTarget - forwardGap) * 0.01
  + (if JS.Qlt_bool forwardGap (0.6 * gapTarget) then - 0.6 else 0).

Definition collisionPenalty (collision : bool) : Q :=
  if collision then - 25 else 0.

Definition laneDisciplinePenalty (laneDelta : Q) : Q :=
  if JS.Qlt_bool 0.5 (Qabs laneDelta) then - 0.2 else 0.

End RewardSpec.

Section Reward.
Import Models Examples.
Local Open Scope Q_scope.

Lemma Qle_bool_compat (a b a' b' : Q) :
  a == a' -> b == b' -> Qle_bool a b = Qle_bool a' b'.
Proof.
  intros Ha Hb.
  destruct (Qle_bool a b) eqn:E1, (Qle_bool a' b') eqn:E2; try reflexivity.
  - apply Qle_bool_iff in E1. apply Qle_bool_false_iff in E2. lra.
  - apply Qle_bool_iff in E2. apply Qle_bool_false_iff in E1. lra.
Qed.

Lemma Qlt_bool_compat (a b a' b' : Q) :
  a == a' -> b == b' -> JS.Qlt_bool a b = JS.Qlt_bool a' b'.
Proof.
  intros Ha Hb. unfold JS.Qlt_bool. f_equal. apply Qle_bool_compat; assumption.
Qed.

(** The reward computed by [computeReward], term by term. *)
Lemma computeReward_terms (e : Env.t) (obs : DrivingObservation.t)
    (collision : bool) (netAccel laneDelta : Q) :
  let rw := Env.computeReward e obs collision netAccel laneDelta in
  let m := Env.mission e in
  RewardBreakdown.progress rw
  == RewardSpec.progress (DrivingObservation.speedMps obs)
       (Env.Config.timeStepSeconds (Env.config e))
  /\ RewardBreakdown.laneKeeping rw
     == RewardSpec.laneKeeping (DrivingObservation.laneOffsetMeters obs)
          (Env.DrivingMission.targetLaneIndex m) (DrivingObservation.laneIndex obs)
  /\ RewardBreakdown.comfort rw == RewardSpec.comfort netAccel
  /\ RewardBreakdown.ruleCompliance rw
     == RewardSpec.ruleCompliance (DrivingObservation.speedMps obs)
          (DrivingObservation.targetSpeedMps obs)
  /\ RewardBreakdown.cruiseTracking rw
     == RewardSpec.cruiseTracking (DrivingObservation.speedMps obs)
          (Env.DrivingMission.cruiseTargetSpeedMps m)
  /\ (0 < Env.DrivingMission.cruiseGapMeters m ->
      RewardBreakdown.gapKeeping rw
      == RewardSpec.gapKeeping (Env.DrivingMission.cruiseGapMeters m)
           (DrivingObservation.gapAheadMeters obs))
  /\ (Env.DrivingMission.cruiseGapMeters m <= 0 -> RewardBreakdown.gapKeeping rw == 0)
  /\ RewardBreakdown.collisionPenalty rw
     = RewardSpec.collisionPenalty collision + RewardSpec.laneDisciplinePenalty laneDelta
  /\ RewardBreakdown.total rw
     = RewardBreakdown.progress rw + RewardBreakdown.laneKeeping rw
       + RewardBreakdown.comfort rw + RewardBreakdown.ruleCompliance rw
       + RewardBreakdown.cruiseTracking rw + RewardBreakdown.gapKeeping rw
       + RewardSpec.collisionPenalty collision
       + RewardSpec.laneDisciplinePenalty laneDelta.
Proof.
  unfold Env.computeReward.
  cbn [RewardBreakdown.progress RewardBreakdown.laneKeeping RewardBreakdown.comfort
       RewardBreakdown.ruleCompliance RewardBreakdown.cruiseTracking
       RewardBreakdown.gapKeeping RewardBreakdown.collisionPenalty
       RewardBreakdown.total].
  unfold JS.abs.
  split; [reflexivity|].
  split.
  { unfold RewardSpec.laneKeeping.
    destruct (Env.DrivingMission.targetLaneIndex (Env.mission e)); ring. }
  split; [reflexivity|].
  split.
  { unfold RewardSpec.ruleCompliance.
    rewrite (Qle_bool_compat _ (DrivingObservation.targetSpeedMps obs * 1.1)
               (DrivingObservation.speedMps obs)
               (1.1 * DrivingObservation.targetSpeedMps obs)) by ring.
    destruct (Qle_bool _ _); reflexivity. }
  split; [reflexivity|].
  split.
  { intros Hpos. apply Qlt_bool_iff in Hpos. rewrite Hpos. clear Hpos.
    unfold RewardSpec.gapKeeping.
    rewrite (Qlt_bool_compat _ (Env.DrivingMission.cruiseGapMeters (Env.mission e) * 0.6)
               (DrivingObservation.gapAheadMeters obs)
               (0.6 * Env.DrivingMission.cruiseGapMeters (Env.mission e))) by ring.
    destruct (JS.Qlt_bool _ _); ring. }
  split.
  { intros Hle. apply Qlt_bool_false_iff in Hle. rewrite Hle. reflexivity. }
  split.
  { unfold RewardSpec.collisionPenalty, RewardSpec.laneDisciplinePenalty.
    reflexivity. }
  unfold RewardSpec.collisionPenalty, RewardSpec.laneDisciplinePenalty.
  reflexivity.
Qed.

(** C7 (as the code has it): the reward returned by a step has seven
    components and a total.  Progress, lane keeping, comfort, rule
    compliance and cruise tracking follow the formula; gap keeping follows
    it when the mission's gap target is positive and is 0 otherwise; the
    component reported as [collisionPenalty] is the collision penalty
    (-25 on collision) plus the lane-discipline penalty (-0.2 when the
    requested lane is more than half a lane from the lane at the start of
    the step); and the total is the sum of the eight terms, the six
    components before it, the collision penalty and the lane-discipline
    penalty, added in this order. *)
Theorem step_reward_breakdown (e : Env.t) (now : Z) (action : DrivingAction.t) :
  let r := fst (Env.step e now action) in
  let obs := Env.DrivingStepResult.observation r in
  let rw := Env.DrivingStepResult.reward r in
  let m := Env.mission e in
  let collision := Env.detectCollision (snd (Env.step e now action)) in
  let laneDelta := Env.requestedLaneOf e action - Env.EgoState.laneIndex (Env.ego e) in
  RewardBreakdown.progress rw
  == RewardSpec.progress (DrivingObservation.speedMps obs) (Env.getTimeStepSeconds e)
  /\ RewardBreakdown.laneKeeping rw
     == RewardSpec.laneKeeping (DrivingObservation.laneOffsetMeters obs)
          (Env.DrivingMission.targetLaneIndex m) (DrivingObservation.laneIndex obs)
  /\ RewardBreakdown.comfort rw
     == RewardSpec.comfort (Env.netAccelOf (Env.config e) action)
  /\ RewardBreakdown.ruleCompliance rw
     == RewardSpec.ruleCompliance (DrivingObservation.speedMps obs)
          (DrivingObservation.targetSpeedMps obs)
  /\ RewardBreakdown.cruiseTracking rw
     == RewardSpec.cruiseTracking (DrivingObservation.speedMps obs)
          (Env.DrivingMission.cruiseTargetSpeedMps m)
  /\ (0 < Env.DrivingMission.cruiseGapMeters m ->
      RewardBreakdown.gapKeeping rw
      == RewardSpec.gapKeeping (Env.DrivingMission.cruiseGapMeters m)
           (DrivingObservation.gapAheadMeters obs))
  /\ (Env.DrivingMission.cruiseGapMeters m <= 0 -> RewardBreakdown.gapKeeping rw == 0)
  /\ RewardBreakdown.collisionPenalty rw
     = RewardSpec.collisionPenalty collision + RewardSpec.laneDisciplinePenalty laneDelta
  /\ RewardBreakdown.total rw
     = RewardBreakdown.progress rw + RewardBreakdown.laneKeeping rw
       + RewardBreakdown.comfort rw + RewardBreakdown.ruleCompliance rw
       + RewardBreakdown.cruiseTracking rw + RewardBreakdown.gapKeeping rw
       + RewardSpec.collisionPenalty collision
       + RewardSpec.laneDisciplinePenalty laneDelta.
Proof.
  exact (computeReward_terms
           (snd (Env.step e now action))
           (Env.buildObservation (snd (Env.step e now action)))
           (Env.detectCollision (snd (Env.step e now action)))
           (Env.netAccelOf (Env.config e) action)
           (Env.requestedLaneOf e action - Env.EgoState.laneIndex (Env.ego e))).
Qed.

(** C7, as stated, fails in two places.  When the truck at the ego's
    position is hit while lane 1 is requested from lane 0, the component
    reported as [collisionPenalty] is -25.2, not -25; and with a gap target
    of 0 the gap-keeping component is 0, where the formula gives a
    negative value. *)
Lemma reward_breakdown_differs_from_formula :
  (Env.detectCollision (snd (Env.step envTruck 1 (requestLane 1))) = true
   /\ RewardBreakdown.collisionPenalty
        (Env.DrivingStepResult.reward (fst (Env.step envTruck 1 (requestLane 1))))
      == - 25.2
   /\ ~ RewardBreakdown.collisionPenalty
          (Env.DrivingStepResult.reward (fst (Env.step envTruck 1 (requestLane 1))))
        == RewardSpec.collisionPenalty true)
  /\ (Env.DrivingMission.cruiseGapMeters (Env.getMission envGap0) == 0
      /\ RewardBreakdown.gapKeeping
           (Env.DrivingStepResult.reward (fst (Env.step envGap0 1 coast))) == 0
      /\ ~ RewardSpec.gapKeeping 0
             (DrivingObservation.gapAheadMeters
                (Env.DrivingStepResult.observation (fst (Env.step envGap0 1 coast))))
           == 0).
Proof.
  split_all; try (vm_compute; reflexivity); vm_compute; discriminate.
Qed.

End Reward.

(** ** Episode generation *)

Section Episodes.
Import Models Examples.
Local Open Scope Q_scope.

(** Two environments that agree on everything but the episode id. *)
Definition sameButId (e e' : Env.t) : Prop :=
  Env.config e = Env.config e'
  /\ Env.laneProfiles e = Env.laneProfiles e'
  /\ Env.traffic e = Env.traffic e'
  /\ Env.ego e = Env.ego e'
  /\ Env.elapsedSeconds e = Env.elapsedSeconds e'
  /\ Env.mission e = Env.mission e'.

Lemma sameButId_refl (e : Env.t) : sameButId e e.
Proof. repeat split. Qed.

Ltac same_env e e' H :=
  destruct e as [cfg lanes tr eg el eid ms], e' as [cfg' lanes' tr' eg' el' eid' ms'];
  destruct H as (H1 & H2 & H3 & H4 & H5 & H6);
  cbn [Env.config Env.laneProfiles Env.traffic Env.ego Env.elapsedSeconds
       Env.mission] in H1, H2, H3, H4, H5, H6;
  subst cfg' lanes' tr' eg' el' ms'.

(** A step reads neither the episode id nor, outside the snapshot's time
    stamps, the clock. *)
Lemma step_sameButId (e e' : Env.t) (now now' : Z) (action : DrivingAction.t) :
  sameButId e e' ->
  Env.DrivingStepResult.observation (fst (Env.step e now action))
  = Env.DrivingStepResult.observation (fst (Env.step e' now' action))
  /\ Env.DrivingStepResult.reward (fst (Env.step e now action))
     = Env.DrivingStepResult.reward (fst (Env.step e' now' action))
  /\ Env.DrivingStepResult.done (fst (Env.step e now action))
     = Env.DrivingStepResult.done (fst (Env.step e' now' action))
  /\ Env.StepInfo.collisions (Env.DrivingStepResult.info (fst (Env.step e now action)))
     = Env.StepInfo.collisions (Env.DrivingStepResult.info (fst (Env.step e' now' action)))
  /\ Env.StepInfo.laneChanges (Env.DrivingStepResult.info (fst (Env.step e now action)))
     = Env.StepInfo.laneChanges (Env.DrivingStepResult.info (fst (Env.step e' now' action)))
  /\ SimulationSnapshot.sceneId
       (Env.StepInfo.snapshot (Env.DrivingStepResult.info (fst (Env.step e now action))))
     = SimulationSnapshot.sceneId
         (Env.StepInfo.snapshot (Env.DrivingStepResult.info (fst (Env.step e' now' action))))
  /\ sameButId (snd (Env.step e now action)) (snd (Env.step e' now' action)).
Proof.
  intros H. same_env e e' H. repeat split.
Qed.

Lemma rollout_sameButId (controller : Episode.Controller)
    (mission : Env.DrivingMission.t) (dt : Q) (clock clock' : nat -> Z) (fuel : nat) :
  forall (i : nat) (e e' : Env.t) (obs : DrivingObservation.t)
         (snap snap' : SimulationSnapshot.t),
    sameButId e e' ->
    SimulationSnapshot.sceneId snap = SimulationSnapshot.sceneId snap' ->
    let r := Episode.rollout controller mission dt clock fuel i e obs snap in
    let r' := Episode.rollout controller mission dt clock' fuel i e' obs snap' in
    fst (fst r) = fst (fst r')
    /\ SimulationSnapshot.sceneId (snd (fst r)) = SimulationSnapshot.sceneId (snd (fst r'))
    /\ sameButId (snd r) (snd r')
    /\ Env.episodeId (snd r) = Env.episodeId e
    /\ Env.episodeId (snd r') = Env.episodeId e'.
Proof.
  induction fuel as [|fuel IH]; intros i e e' obs snap snap' Hs Hsc.
  - cbn. split_all; first [assumption | reflexivity].
  - cbn [Episode.rollout].
    pose proof (step_sameButId e e' (clock i) (clock' i) (controller obs mission) Hs)
      as (Ho & Hr & Hd & Hc & Hl & Hsn & Hs').
    assert (Eid : Env.episodeId (snd (Env.step e (clock i) (controller obs mission)))
                  = Env.episodeId e) by reflexivity.
    assert (Eid' : Env.episodeId (snd (Env.step e' (clock' i) (controller obs mission)))
                   = Env.episodeId e') by reflexivity.
    destruct (Env.step e (clock i) (controller obs mission)) as [res e1].
    destruct (Env.step e' (clock' i) (controller obs mission)) as [res' e1'].
    cbn [fst snd] in *. rewrite <- Hd.
    destruct (Env.DrivingStepResult.done res).
    + cbn [fst snd]. rewrite Hr, Hc, Hl, Hd. split_all; first [assumption | reflexivity].
    + specialize (IH (S i) e1 e1' (Env.DrivingStepResult.observation res)
                     (Env.StepInfo.snapshot (Env.DrivingStepResult.info res))
                     (Env.StepInfo.snapshot (Env.DrivingStepResult.info res'))
                     Hs' Hsn).
      rewrite <- Ho.
      destruct (Episode.rollout controller mission dt clock fuel (S i) e1 _ _)
        as [[rest sn] ef].
      destruct (Episode.rollout controller mission dt clock' fuel (S i) e1' _ _)
        as [[rest' sn'] ef'].
      cbn [fst snd] in *. destruct IH as (-> & Hsn2 & Hs2 & E1 & E2).
      rewrite Hr, Hc, Hl. split_all; first [assumption | reflexivity | congruence].
Qed.

(** [reset] takes from the environment its configuration, lane profiles
    and mission; the rest comes from the live service. *)
Lemma reset_sameButId (e e' : Env.t) (svc : Sim.t) (now now' : Z)
    (goal : option Env.MissionGoal.t) (w w' : World) :
  sameButId e e' ->
  let r := fst (Env.reset e svc now goal w) in
  let r' := fst (Env.reset e' svc now' goal w') in
  fst (fst r) = fst (fst r')
  /\ SimulationSnapshot.sceneId (snd (fst r)) = SimulationSnapshot.sceneId (snd (fst r'))
  /\ sameButId (snd r) (snd r')
  /\ Env.episodeId (snd r) = uuids w (ucursor w)
  /\ Env.episodeId (snd r') = uuids w' (ucursor w').
Proof.
  intros H. same_env e e' H. repeat split.
Qed.

Definition recordOf (env : Env.t) (svc : Sim.t) (now : Z) (clock : nat -> Z)
    (options : Episode.EpisodeGenerationOptions.t) (w : World) : Episode.EpisodeRecord.t :=
  fst (fst (Episode.simulateEpisode env svc now clock options w)).

Lemma simulateEpisode_sameButId (env env' : Env.t) (svc : Sim.t) (now now' : Z)
    (clock clock' : nat -> Z) (options : Episode.EpisodeGenerationOptions.t)
    (w w' : World) :
  sameButId env env' ->
  let r := recordOf env svc now clock options w in
  let r' := recordOf env' svc now' clock' options w' in
  Episode.EpisodeRecord.steps r = Episode.EpisodeRecord.steps r'
  /\ Episode.EpisodeRecord.summary r = Episode.EpisodeRecord.summary r'
  /\ Episode.EpisodeRecord.mission r = Episode.EpisodeRecord.mission r'
  /\ Episode.EpisodeRecord.metadata r = Episode.EpisodeRecord.metadata r'
  /\ Episode.EpisodeRecord.episodeId r = uuids w (ucursor w)
  /\ Episode.EpisodeRecord.episodeId r' = uuids w' (ucursor w')
  /\ sameButId (snd (fst (Episode.simulateEpisode env svc now clock options w)))
               (snd (fst (Episode.simulateEpisode env' svc now' clock' options w'))).
Proof.
  intros Hs. unfold recordOf, Episode.simulateEpisode, bind.
  assert (Em : Env.getMission env = Env.getMission env') by apply Hs.
  rewrite <- Em.
  set (goal := Some (Episode.resolveMissionOverrides (Env.getMission env)
                       (Episode.EpisodeGenerationOptions.mission options))).
  pose proof (reset_sameButId env env' svc now now' goal w w' Hs)
    as (Ho & Hsn & Hs1 & Eid & Eid').
  destruct (Env.reset env svc now goal w) as [[[obs snap] e1] w1].
  destruct (Env.reset env' svc now' goal w') as [[[obs' snap'] e1'] w1'].
  cbn [fst snd] in *. subst obs'.
  assert (Emi : Env.getMission e1 = Env.getMission e1') by apply Hs1.
  assert (Edt : Env.getTimeStepSeconds e1 = Env.getTimeStepSeconds e1').
  { unfold Env.getTimeStepSeconds. destruct Hs1 as (-> & _). reflexivity. }
  rewrite <- Emi, <- Edt.
  set (controller := default Policy.cruiseHeuristicPolicy
                       (Episode.EpisodeGenerationOptions.controller options)).
  set (fuel := default (Z.to_nat (Qfloor (180 / Env.getTimeStepSeconds e1)))
                 (Episode.EpisodeGenerationOptions.maxSteps options)).
  pose proof (rollout_sameButId controller (Env.getMission e1)
                (Env.getTimeStepSeconds e1) clock clock' fuel 0 e1 e1' obs snap snap'
                Hs1 Hsn) as (Hst & Hsn2 & Hs2 & E1 & E2).
  destruct (Episode.rollout controller (Env.getMission e1) (Env.getTimeStepSeconds e1)
              clock fuel 0 e1 obs snap) as [[steps sn] ef].
  destruct (Episode.rollout controller (Env.getMission e1) (Env.getTimeStepSeconds e1)
              clock' fuel 0 e1' obs snap') as [[steps' sn'] ef'].
  cbn [fst snd] in *. subst steps'.
  destruct (Episode.EpisodeGenerationOptions.seed options) as [sd|];
    cbn [ret randomInt fst snd Episode.EpisodeRecord.steps Episode.EpisodeRecord.summary
         Episode.EpisodeRecord.mission Episode.EpisodeRecord.metadata
         Episode.EpisodeRecord.episodeId];
    unfold Env.getEpisodeId; rewrite Hsn2;
    split_all; first [assumption | reflexivity | congruence].
Qed.

(** C8 (as the code has it): the seed is copied into the record and takes
    no part in the computation.  Two runs of [simulateEpisode] with the
    same explicit seed and options, from the same environment state and
    against the same state of the live service, yield the same steps,
    summary, mission, metadata and seed, whatever the clock and the
    random sources of the two runs; their episode ids are the UUIDs drawn
    by the two resets. *)
Theorem simulateEpisode_same_seed_same_service
    (env : Env.t) (svc : Sim.t) (now now' : Z) (clock clock' : nat -> Z)
    (options : Episode.EpisodeGenerationOptions.t) (sd : Z) (w w' : World) :
  Episode.EpisodeGenerationOptions.seed options = Some sd ->
  let r := recordOf env svc now clock options w in
  let r' := recordOf env svc now' clock' options w' in
  Episode.EpisodeRecord.steps r = Episode.EpisodeRecord.steps r'
  /\ Episode.EpisodeRecord.summary r = Episode.EpisodeRecord.summary r'
  /\ Episode.EpisodeRecord.mission r = Episode.EpisodeRecord.mission r'
  /\ Episode.EpisodeRecord.metadata r = Episode.EpisodeRecord.metadata r'
  /\ Episode.EpisodeRecord.seed r = sd
  /\ Episode.EpisodeRecord.seed r' = sd
  /\ Episode.EpisodeRecord.episodeId r = uuids w (ucursor w)
  /\ Episode.EpisodeRecord.episodeId r' = uuids w' (ucursor w').
Proof.
  intros Hseed.
  pose proof (simulateEpisode_sameButId env env svc now now' clock clock' options w w'
                (sameButId_refl env)) as (H1 & H2 & H3 & H4 & H5 & H6 & _).
  assert (Hsd : forall n c (v : World),
             Episode.EpisodeRecord.seed (recordOf env svc n c options v) = sd).
  { intros n c v. unfold recordOf, Episode.simulateEpisode, bind.
    destruct (Env.reset env svc n _ v) as [[[obs snap] e1] w1].
    destruct (Episode.rollout _ _ _ _ _ _ _ _ _) as [[steps sn] ef].
    rewrite Hseed. reflexivity. }
  cbn zeta. rewrite !Hsd. split_all; first [assumption | reflexivity].
Qed.

Lemma simulateEpisode_same_seed_same_service_witness :
  Episode.EpisodeGenerationOptions.seed episodeOptions = Some 42%Z
  /\ (let r := recordOf env0 svc0 0 (fun _ => 1%Z) episodeOptions w0 in
      let r' := recordOf env0 svc0 5 (fun _ => 6%Z) episodeOptions w9 in
      Episode.EpisodeRecord.steps r = Episode.EpisodeRecord.steps r'
      /\ Episode.EpisodeRecord.summary r = Episode.EpisodeRecord.summary r'
      /\ Episode.EpisodeRecord.mission r = Episode.EpisodeRecord.mission r'
      /\ Episode.EpisodeRecord.metadata r = Episode.EpisodeRecord.metadata r'
      /\ Episode.EpisodeRecord.seed r = 42%Z
      /\ Episode.EpisodeRecord.seed r' = 42%Z
      /\ Episode.EpisodeRecord.episodeId r = uuids w0 (ucursor w0)
      /\ Episode.EpisodeRecord.episodeId r' = uuids w9 (ucursor w9)).
Proof.
  split; [reflexivity|].
  exact (simulateEpisode_same_seed_same_service env0 svc0 0 5 (fun _ => 1%Z)
           (fun _ => 6%Z) episodeOptions 42%Z w0 w9 eq_refl).
Defined.

(** C8, as stated, fails: [reset] copies the traffic of the live service,
    which moves on its own clock and its own unseeded randomness.  Two
    runs with the same seed 42 and the same options, one against the
    service as constructed and one a tick (160 ms) later, record different
    first observations: the lead vehicle is 246.75 m ahead in the first
    run and further in the second. *)
Lemma simulateEpisode_same_seed_differs :
  Episode.EpisodeGenerationOptions.seed episodeOptions = Some 42%Z
  /\ exists s1 s2,
      Episode.EpisodeRecord.steps (recordOf env0 svc0 0 (fun _ => 1%Z) episodeOptions w0)
      = [s1]
      /\ Episode.EpisodeRecord.steps
           (recordOf env0 svcLater 160 (fun _ => 161%Z) episodeOptions w0)
         = [s2]
      /\ DrivingObservation.gapAheadMeters (Episode.EpisodeStepRecord.observation s1)
         == 246.75
      /\ ~ DrivingObservation.gapAheadMeters (Episode.EpisodeStepRecord.observation s2)
           == 246.75.
Proof.
  split; [reflexivity|].
  eexists. eexists.
  split; [vm_compute; reflexivity|].
  split; [vm_compute; reflexivity|].
  split; [vm_compute; reflexivity|].
  vm_compute. discriminate.
Qed.

(** The same holds for a batch: the environment it constructs and the
    episodes it generates depend on the live service, not on the seed. *)
Definition sameRecordButId (r r' : Episode.EpisodeRecord.t) : Prop :=
  Episode.EpisodeRecord.steps r = Episode.EpisodeRecord.steps r'
  /\ Episode.EpisodeRecord.summary r = Episode.EpisodeRecord.summary r'
  /\ Episode.EpisodeRecord.mission r = Episode.EpisodeRecord.mission r'
  /\ Episode.EpisodeRecord.metadata r = Episode.EpisodeRecord.metadata r'.

Lemma batchLoop_sameButId (options : Episode.EpisodeBatchOptions.t)
    (svcAt : nat -> Sim.t) (nowAt nowAt' : nat -> Z) (clock clock' : nat -> Z)
    (count : nat) :
  forall (i : nat) (env env' : Env.t) (w w' : World),
    sameButId env env' ->
    Forall2 sameRecordButId
      (fst (Episode.batchLoop options svcAt nowAt clock count i env w))
      (fst (Episode.batchLoop options svcAt nowAt' clock' count i env' w')).
Proof.
  induction count as [|count IH]; intros i env env' w w' Hs.
  - constructor.
  - cbn [Episode.batchLoop]. unfold bind.
    set (opts := Episode.EpisodeGenerationOptions.mk _ _ _ _ _).
    pose proof (simulateEpisode_sameButId env env' (svcAt i) (nowAt i) (nowAt' i)
                  clock clock' opts w w' Hs) as (H1 & H2 & H3 & H4 & _ & _ & Hs').
    unfold recordOf in *.
    destruct (Episode.simulateEpisode env (svcAt i) (nowAt i) clock opts w)
      as [[r e1] w1].
    destruct (Episode.simulateEpisode env' (svcAt i) (nowAt' i) clock' opts w')
      as [[r' e1'] w1'].
    cbn [fst snd] in *.
    specialize (IH (S i) e1 e1' w1 w1' Hs').
    destruct (Episode.batchLoop options svcAt nowAt clock count (S i) e1 w1)
      as [rest w2].
    destruct (Episode.batchLoop options svcAt nowAt' clock' count (S i) e1' w1')
      as [rest' w2'].
    cbn [fst snd ret] in *. constructor; [|exact IH].
    unfold sameRecordButId. split_all; assumption.
Qed.

Lemma generateEpisodeBatch_same_service (options : Episode.EpisodeBatchOptions.t)
    (svc0 : Sim.t) (now0 now0' : Z) (svcAt : nat -> Sim.t) (nowAt nowAt' : nat -> Z)
    (clock clock' : nat -> Z) (w w' : World) :
  Forall2 sameRecordButId
    (fst (Episode.generateEpisodeBatch options svc0 now0 svcAt nowAt clock w))
    (fst (Episode.generateEpisodeBatch options svc0 now0' svcAt nowAt' clock' w')).
Proof.
  unfold Episode.generateEpisodeBatch. unfold bind at 1 2.
  set (cfg := default Env.DEFAULT_CONFIG (Episode.EpisodeBatchOptions.envConfig options)).
  assert (Hs : sameButId (fst (Env.create cfg svc0 now0 w))
                         (fst (Env.create cfg svc0 now0' w'))).
  { unfold Env.create, bind, randomUUID. cbn [fst snd ret].
    match goal with
    | |- sameButId (fst (let '(_, _) := Env.reset ?e _ _ _ ?v in _))
                   (fst (let '(_, _) := Env.reset ?e' _ _ _ ?v' in _)) =>
        pose proof (reset_sameButId e e' svc0 now0 now0' None v v') as Hr;
        destruct (Env.reset e svc0 now0 None v) as [[? e1] w1];
        destruct (Env.reset e' svc0 now0' None v') as [[? e1'] w1']
    end.
    cbn [fst snd ret] in *. apply Hr. unfold sameButId. split_all; reflexivity. }
  destruct (Env.create cfg svc0 now0 w) as [env w1].
  destruct (Env.create cfg svc0 now0' w') as [env' w1'].
  cbn [fst] in Hs. apply batchLoop_sameButId. exact Hs.
Qed.

End Episodes.

(** ** The live traffic engine *)

Section Loops.

(** An invariant of the accumulator survives a [forEach]. *)
Lemma forEachM_invariant {A S : Type} (P : S -> Prop) (body : A -> S -> Eff S)
    (xs : list A) :
  (forall x s w, P s -> P (fst (body x s w))) ->
  forall s w, P s -> P (fst (forEachM body xs s w)).
Proof.
  intros Hbody. induction xs as [|x xs IH]; intros s w Hs; cbn.
  - exact Hs.
  - unfold bind. specialize (Hbody x s w Hs).
    destruct (body x s w) as [s' w']. apply IH. exact Hbody.
Qed.

(** The same for an invariant that speaks of the elements visited so far. *)
Lemma forEachM_visited {A S : Type} (P : list A -> S -> Prop)
    (body : A -> S -> Eff S) (all : list A) :
  (forall pre x post s w,
      all = pre ++ x :: post -> P pre s -> P (pre ++ [x]) (fst (body x s w))) ->
  forall s w, P [] s -> P all (fst (forEachM body all s w)).
Proof.
  intros Hbody.
  assert (H : forall xs pre s w,
             all = pre ++ xs -> P pre s -> P all (fst (forEachM body xs s w))).
  { induction xs as [|x xs IH]; intros pre s w Hall Hs; cbn.
    - rewrite app_nil_r in Hall. subst. exact Hs.
    - unfold bind. specialize (Hbody pre x xs s w Hall Hs).
      destruct (body x s w) as [s' w']. apply (IH (pre ++ [x])).
      + rewrite <- app_assoc. exact Hall.
      + exact Hbody. }
  intros s w Hs. apply (H all [] s w); [reflexivity|exact Hs].
Qed.

Lemma insertBy_perm {A : Type} (le : A -> A -> bool) (x : A) (l : list A) :
  insertBy le x l ≡ₚ x :: l.
Proof.
  induction l as [|y l IH]; cbn; [reflexivity|].
  destruct (le x y); [reflexivity|].
  rewrite IH. apply Permutation_swap.
Qed.

Lemma sortBy_perm {A : Type} (le : A -> A -> bool) (l : list A) :
  sortBy le l ≡ₚ l.
Proof.
  unfold sortBy. induction l as [|x l IH]; cbn; [reflexivity|].
  rewrite insertBy_perm, IH. reflexivity.
Qed.

End Loops.

(** *** The lane-change gate *)

(** ** The neighbour scan *)

Section Neighbors.
Import Models.
Local Open Scope Q_scope.

Variables (vs : Sim.Store) (self : nat) (vehicle : Sim.TrafficVehicleState).

(** [a] is the closest of the candidates [seen] that is at or ahead of
    [vehicle]; without one, every candidate is strictly behind. *)
Definition nearestAhead (seen : list nat) (ahead : option nat) : Prop :=
  match ahead with
  | Some a =>
      a ∈ seen /\ a <> self
      /\ Sim.positionZ vehicle <= Sim.posOf vs a
      /\ forall c, c ∈ seen -> c <> self ->
           Sim.positionZ vehicle <= Sim.posOf vs c -> Sim.posOf vs a <= Sim.posOf vs c
  | None =>
      forall c, c ∈ seen -> c <> self -> Sim.posOf vs c < Sim.positionZ vehicle
  end.






End Neighbors.

Module LaneChangeSpec.
Import Models.
Local Open Scope Q_scope.


Definition gapBelow (g : JS.number) (q : Q) : Prop :=
  match g with
  | JS.Num x => x < q
  | _ => False
  end.





(** The forward gap of [vehicle] against the vehicles of a lane: bumper to
    bumper to a nearest one at or ahead of it, infinite when none is. *)
Definition forwardGap (vs : Sim.Store) (laneVehicles : list nat) (self : nat)
    (vehicle : Sim.TrafficVehicleState) (g : JS.number) : Prop :=
  exists ahead,
    nearestAhead vs self vehicle laneVehicles ahead
    /\ match ahead with
       | Some a =>
           exists va, vs !! a = Some va
             /\ g = JS.Num (Sim.positionZ va - Sim.positionZ vehicle
                            - Sim.lengthMeters va * 0.5 - Sim.lengthMeters vehicle * 0.5)
       | None => g = JS.Infinity
       end.





End LaneChangeSpec.

Section LaneChange.
Import Models LaneChangeSpec.
Local Open Scope Q_scope.



Lemma ltb_true_gapBelow (g : JS.number) (q : Q) :
  g <> JS.NegInfinity -> JS.ltb g q = true -> gapBelow g q.
Proof.
  destruct g; cbn; intros H1 H; try congruence.
  apply Qlt_bool_iff. exact H.
Qed.






End LaneChange.

Section LaneChangeEffect.
Import Models LaneChangeSpec.
Local Open Scope Q_scope.

(** What a call of [evaluateLaneChange] does to the store and the lane
    map: nothing, or it moves the vehicle [self] to the chosen lane. *)
Definition laneChangeOf (profiles : list TrafficLaneProfile.t) (self : nat)
    (vs : Sim.Store) (laneMap : gmap Z (list nat))
    (st' : Sim.Store * gmap Z (list nat)) : Prop :=
  exists vehicle cur currentProfile chosen moved l1 l2,
    st' = (<[self := moved]> vs,
           <[chosen := l2]> (<[Sim.laneIndex vehicle := l1]> laneMap))
    /\ vs !! self = Some vehicle
    /\ laneMap !! Sim.laneIndex vehicle = Some cur
    /\ Sim.laneProfileAt profiles (Sim.laneIndex vehicle) = Some currentProfile
    /\ Sim.chooseLane profiles vs laneMap self vehicle currentProfile = Some chosen
    /\ Sim.id moved = Sim.id vehicle
    /\ Sim.laneIndex moved = chosen
    /\ Sim.lengthMeters moved = Sim.lengthMeters vehicle
    /\ l1 ≡ₚ Sim.removeFirst self cur
    /\ l2 ≡ₚ default [] (<[Sim.laneIndex vehicle := l1]> laneMap !! chosen) ++ [self].

Lemma evaluateLaneChange_cases (profiles : list TrafficLaneProfile.t) (self : nat)
    (vs : Sim.Store) (laneMap : gmap Z (list nat)) (w : World) :
  fst (Sim.evaluateLaneChange profiles self (vs, laneMap) w) = (vs, laneMap)
  \/ laneChangeOf profiles self vs laneMap
       (fst (Sim.evaluateLaneChange profiles self (vs, laneMap) w)).
Proof.
  unfold Sim.evaluateLaneChange.
  destruct (vs !! self) as [vehicle|] eqn:Ev; [|left; reflexivity].
  destruct (laneMap !! Sim.laneIndex vehicle) as [cur|] eqn:Ec; [|left; reflexivity].
  destruct (Sim.laneProfileAt profiles (Sim.laneIndex vehicle)) as [cp|] eqn:Ep;
    [|left; reflexivity].
  destruct (_ && _); [left; reflexivity|].
  destruct (Sim.chooseLane profiles vs laneMap self vehicle cp) as [chosen|] eqn:Ech;
    [|left; reflexivity].
  right. unfold laneChangeOf.
  destruct (Sim.laneProfileAt profiles chosen) as [tp|];
    cbv [bind Sim.randBetween Math_random ret fst].
  - eexists vehicle, cur, cp, chosen, _, _, _.
    rewrite list_insert_insert_eq.
    split; [reflexivity|].
    split_all; try reflexivity; try assumption; apply sortBy_perm.
  - eexists vehicle, cur, cp, chosen, _, _, _.
    split; [reflexivity|].
    split_all; try reflexivity; try assumption; apply sortBy_perm.
Qed.



End LaneChangeEffect.

(** *** Updating one vehicle of the store *)

Section StoreUpdate.
Import Models.

Lemma map_insert_same {B : Type} (f : Sim.TrafficVehicleState -> B) (vs : Sim.Store)
    (i : nat) (v v' : Sim.TrafficVehicleState) :
  vs !! i = Some v -> f v' = f v -> map f (<[i := v']> vs) = map f vs.
Proof.
  intros Hv Hf. change (f <$> <[i := v']> vs = f <$> vs).
  rewrite list_fmap_insert, Hf. apply list_insert_id.
  rewrite list_lookup_fmap, Hv. reflexivity.
Qed.

End StoreUpdate.

(** *** Spacing enforcement *)

Module SpacingSpec.
Import Models.
Local Open Scope Q_scope.

(** The gap of the specification: centre-to-centre distance minus the two
    half-lengths. *)
Definition gap (a b : Sim.TrafficVehicleState) : Q :=
  Qabs (Sim.positionZ a - Sim.positionZ b)
  - Sim.lengthMeters a * 0.5 - Sim.lengthMeters b * 0.5.

(** Two vehicles of one lane keep that lane's preferred spacing. *)
Definition spaced (profiles : list TrafficLaneProfile.t)
    (a b : Sim.TrafficVehicleState) : Prop :=
  Sim.laneIndex a = Sim.laneIndex b ->
  forall p, Sim.laneProfileAt profiles (Sim.laneIndex a) = Some p ->
    TrafficLaneProfile.preferredSpacingMeters p <= gap a b.

(** Every two vehicles of the list do. *)
Definition spacingOk (profiles : list TrafficLaneProfile.t)
    (vs : list Sim.TrafficVehicleState) : Prop :=
  ForallOrdPairs (spaced profiles) vs.

End SpacingSpec.

Section Tick.
Import Models SpacingSpec.
Local Open Scope Q_scope.

(** The spawn phase only appends vehicles, each at the spawn point. *)
Definition spawnedAfter (vs0 : Sim.Store) (s : Sim.t) : Prop :=
  exists spawned,
    Sim.vehicles s = vs0 ++ spawned
    /\ Forall (fun v => Sim.positionZ v = Sim.RESPAWN_OFFSET_METERS) spawned.

Lemma spawnInLane_appends (s : Sim.t) (p : TrafficLaneProfile.t) (lane : Z)
    (input : Sim.SpawnInput.t) (w : World) :
  exists v,
    fst (Sim.spawnInLane s p lane input w)
    = (Sim.id v, Sim.set_vehicles (Sim.vehicles s ++ [v]) s)
    /\ Sim.laneIndex v = lane
    /\ Sim.positionZ v
       = default Sim.RESPAWN_OFFSET_METERS (Sim.SpawnInput.positionZ input).
Proof.
  unfold Sim.spawnInLane.
  cbv [bind Sim.pickRandom Sim.randBetween Math_random randomUUID ret].
  destruct (Sim.SpawnInput.behavior input);
    cbv [bind Sim.pickRandom Sim.randBetween Math_random randomUUID ret fst];
    eexists (Sim.mkVehicle _ _ _ _ _ _ _ _ _);
    (split; [reflexivity|]); split; reflexivity.
Qed.

Lemma spawnNewVehicles_appends (dt : Q) (s : Sim.t) (w : World) :
  spawnedAfter (Sim.vehicles s) (fst (Sim.spawnNewVehicles dt s w))
  /\ Sim.laneProfiles (fst (Sim.spawnNewVehicles dt s w)) = Sim.laneProfiles s.
Proof.
  unfold Sim.spawnNewVehicles.
  apply (forEachM_invariant
           (fun s' => spawnedAfter (Sim.vehicles s) s'
                      /\ Sim.laneProfiles s' = Sim.laneProfiles s)).
  - intros [lane p] s' w' [(sp & Hsp & Hall) Hlp]. unfold Sim.spawnInto.
    cbv [bind Math_random ret].
    destruct (JS.Qlt_bool _ _); [cbn [fst]; split; [exists sp; split|]; assumption|].
    match goal with |- context [if ?b then _ else _] => destruct b end;
      [cbn [fst]; split; [exists sp; split|]; assumption|].
    cbv [Sim.randBetween Math_random bind ret].
    match goal with |- context [Sim.spawnInLane ?a ?b ?c ?d ?e] =>
      destruct (spawnInLane_appends a b c d e) as (v & E & _ & Hpos);
      destruct (Sim.spawnInLane a b c d e) as [[ident s''] w'']
    end.
    cbn [fst snd] in *. injection E as _ ->. cbn. split; [|exact Hlp].
    exists (sp ++ [v]). rewrite Hsp, <- app_assoc. split; [reflexivity|].
    apply Forall_app. split; [exact Hall|]. constructor; [exact Hpos|constructor].
  - split; [|reflexivity]. exists []. rewrite app_nil_r. split; [reflexivity|constructor].
Qed.

End Tick.

(** ** Spawning *)

(** The operations a caller, or the timer, performs on the service, and
    what it means for a vehicle id to stay through a sequence of them. *)
Module ServiceOps.
Import Models.
Local Open Scope Q_scope.

Inductive Op : Type :=
| OpSpawn (input : Sim.SpawnInput.t)
| OpTick (now : Z)
| OpUpdateMission (now : Z) (patch : DrivingMissionUpdate.t)
| OpUpdatePlayer (patch : Sim.PlayerPatch.t)
| OpResetTraffic.

Definition apply (op : Op) (s : Sim.t) : Eff Sim.t :=
  match op with
  | OpSpawn input => bind (Sim.spawnVehicle s input) (fun r => ret (snd r))
  | OpTick now => Sim.step s now
  | OpUpdateMission now patch => ret (snd (Sim.updateMission s now patch))
  | OpUpdatePlayer patch => ret (Sim.updatePlayerState s patch)
  | OpResetTraffic => Sim.resetTraffic s
  end.

Definition run (ops : list Op) (s : Sim.t) : Eff Sim.t := forEachM apply ops s.

(** The vehicle ids of a [getSnapshot] read. *)
Definition snapshotIds (s : Sim.t) (now : Z) : list string :=
  map VehicleSnapshot.id (SimulationSnapshot.vehicles (Sim.getSnapshot s now)).

(** The operation is a tick whose despawn loop finds a vehicle with this
    id outside the corridor. *)
Definition despawnedIn (ident : string) (op : Op) (s : Sim.t) (w : World) : Prop :=
  match op with
  | OpTick now =>
      0 < Sim.tickDt s now
      /\ exists v,
          In v (fst (Sim.moveTraffic (Sim.tickDt s now) (Sim.set_lastTick now s) w))
          /\ Sim.id v = ident
          /\ Sim.inCorridor v = false
  | _ => False
  end.

(** No operation of the sequence resets the traffic or despawns the id. *)
Fixpoint survives (ident : string) (ops : list Op) (s : Sim.t) (w : World) : Prop :=
  match ops with
  | [] => True
  | op :: ops' =>
      op <> OpResetTraffic
      /\ ~ despawnedIn ident op s w
      /\ survives ident ops' (fst (apply op s w)) (snd (apply op s w))
  end.

(** The lane index given to [spawnVehicle] is an integer inside the lane
    range. *)
Definition validSpawnLane (s : Sim.t) (n : JS.number) : Prop :=
  exists lane : Z,
    (0 <= lane < Z.of_nat (length (Sim.laneProfiles s)))%Z
    /\ exists q : Q, n = JS.Num q /\ q == inject_Z lane.

End ServiceOps.

Section Spawn.
Import Models ServiceOps.
Local Open Scope Q_scope.

Lemma indexN_valid {A : Type} (xs : list A) (n : JS.number) :
  is_Some (JS.indexN xs n) <->
  exists lane : Z,
    (0 <= lane < Z.of_nat (length xs))%Z
    /\ exists q : Q, n = JS.Num q /\ q == inject_Z lane.
Proof.
  unfold JS.indexN, JS.index. split.
  - intros [x Hx]. destruct n as [q| | |]; try discriminate.
    destruct (JS.isIntegerQ q) eqn:Ei; [|discriminate].
    destruct (Qle_bool 0 q) eqn:Ez; [|discriminate]. cbn in Hx.
    apply isIntegerQ_iff in Ei as [z Hz]. apply Qle_bool_iff in Ez.
    assert (Hfl : Qfloor q = z) by (rewrite Hz; apply Qfloor_Z).
    rewrite Hfl in Hx. apply lookup_lt_Some in Hx.
    exists z. split; [|eauto].
    rewrite Hz in Ez. change 0 with (inject_Z 0) in Ez. rewrite <- Zle_Qle in Ez. lia.
  - intros (z & Hz & q & -> & Hq).
    assert (Ei : JS.isIntegerQ q = true) by (apply isIntegerQ_iff; eauto).
    assert (Ez : Qle_bool 0 q = true).
    { apply Qle_bool_iff. rewrite Hq. change 0 with (inject_Z 0).
      rewrite <- Zle_Qle. lia. }
    rewrite Ei, Ez. cbn.
    assert (Hfl : Qfloor q = z) by (rewrite Hq; apply Qfloor_Z).
    rewrite Hfl. apply lookup_lt_is_Some. lia.
Qed.

Lemma snapshotIds_vehicles (s : Sim.t) (now : Z) :
  snapshotIds s now = map Sim.id (Sim.vehicles s).
Proof.
  unfold snapshotIds, Sim.getSnapshot. cbn. rewrite map_map. reflexivity.
Qed.

Lemma spawnVehicle_cases (s : Sim.t) (input : Sim.SpawnInput.t) (w : World) :
  (validSpawnLane s (Sim.SpawnInput.laneIndex input)
   /\ exists v,
       fst (Sim.spawnVehicle s input w)
       = (Ok (Sim.id v), Sim.set_vehicles (Sim.vehicles s ++ [v]) s)
       /\ inject_Z (Sim.laneIndex v) == Sim.numberValue (Sim.SpawnInput.laneIndex input))
  \/ (~ validSpawnLane s (Sim.SpawnInput.laneIndex input)
      /\ Sim.spawnVehicle s input w
         = (Throw (Sim.SpawnInvalidLaneIndex (Sim.SpawnInput.laneIndex input)), s, w)).
Proof.
  unfold Sim.spawnVehicle, validSpawnLane.
  pose proof (indexN_valid (Sim.laneProfiles s) (Sim.SpawnInput.laneIndex input)) as Hv.
  destruct (JS.indexN (Sim.laneProfiles s) (Sim.SpawnInput.laneIndex input)) as [p|].
  - left. assert (Hval : is_Some (Some p)) by eauto. apply Hv in Hval.
    split; [exact Hval|].
    destruct Hval as (z & Hz & q & Hq & Hqz).
    unfold bind.
    match goal with |- context [Sim.spawnInLane ?a ?b ?c ?d ?e] =>
      destruct (spawnInLane_appends a b c d e) as (v & E & Hlane & _);
      destruct (Sim.spawnInLane a b c d e) as [[ident s'] w']
    end.
    cbn [fst snd ret] in *. injection E as -> ->.
    exists v. split; [reflexivity|].
    rewrite Hlane, Hq. cbn [Sim.numberValue].
    rewrite (Qfloor_comp _ _ Hqz), Qfloor_Z. symmetry. exact Hqz.
  - right. split; [|reflexivity].
    intros Hval. apply Hv in Hval. destruct Hval as [x Hx]. discriminate.
Qed.

(** A tick never changes the id of a vehicle. *)
Lemma spacingLoop_ids (minGap : Q) (rest : list nat) :
  forall (lead : nat) (vs : Sim.Store),
    map Sim.id (Sim.spacingLoop minGap lead rest vs) = map Sim.id vs.
Proof.
  induction rest as [|f rest IH]; intros lead vs; cbn; [reflexivity|].
  rewrite IH. destruct (vs !! lead) as [leadV|]; [|reflexivity].
  destruct (vs !! f) as [follower|] eqn:Ef; [|reflexivity].
  destruct (JS.Qlt_bool _ _); [|reflexivity].
  apply (map_insert_same Sim.id vs f follower); [exact Ef|reflexivity].
Qed.

Lemma applySpacing_ids (profiles : list TrafficLaneProfile.t)
    (laneMap : gmap Z (list nat)) (vs : Sim.Store) :
  map Sim.id (Sim.applySpacing profiles laneMap vs) = map Sim.id vs.
Proof.
  unfold Sim.applySpacing.
  apply (map_fold_weak_ind
           (fun (r : Sim.Store) (_ : gmap Z (list nat)) => map Sim.id r = map Sim.id vs)).
  - reflexivity.
  - intros k l m r _ IH. unfold Sim.spaceLane.
    destruct (Sim.laneProfileAt profiles k); [|exact IH].
    destruct (Sim.sortDescending r l); [exact IH|].
    rewrite spacingLoop_ids. exact IH.
Qed.

Lemma advanceVehicle_ids (profiles : list TrafficLaneProfile.t) (dt : Q) (i : nat)
    (st : Sim.Store * gmap Z (list nat)) (w : World) :
  map Sim.id (fst (fst (Sim.advanceVehicle profiles dt i st w))) = map Sim.id (fst st).
Proof.
  destruct st as [vs laneMap]. unfold Sim.advanceVehicle.
  destruct (vs !! i) as [vehicle|] eqn:Ev; [|reflexivity].
  destruct (Sim.laneProfileAt profiles (Sim.laneIndex vehicle)); [|reflexivity].
  cbv [bind Sim.randBetween Math_random ret fst].
  apply (map_insert_same Sim.id vs i vehicle); [exact Ev|reflexivity].
Qed.

Lemma evaluateLaneChange_ids (profiles : list TrafficLaneProfile.t) (self : nat)
    (st : Sim.Store * gmap Z (list nat)) (w : World) :
  map Sim.id (fst (fst (Sim.evaluateLaneChange profiles self st w)))
  = map Sim.id (fst st).
Proof.
  destruct st as [vs laneMap].
  destruct (evaluateLaneChange_cases profiles self vs laneMap w) as [E|H].
  - rewrite E. reflexivity.
  - destruct H as (vehicle & cur & cp & chosen & moved & l1 & l2 & E & Hv & _ & _ & _
                   & Hid & _).
    rewrite E. cbn [fst]. apply (map_insert_same Sim.id vs self vehicle); assumption.
Qed.

Lemma moveTraffic_ids (dt : Q) (s : Sim.t) (w : World) :
  map Sim.id (fst (Sim.moveTraffic dt s w)) = map Sim.id (Sim.vehicles s).
Proof.
  unfold Sim.moveTraffic, bind.
  pose proof (forEachM_invariant
                (fun st : Sim.Store * gmap Z (list nat) =>
                   map Sim.id (fst st) = map Sim.id (Sim.vehicles s))
                (Sim.advanceVehicle (Sim.laneProfiles s) dt)
                (seq 0 (length (Sim.vehicles s)))) as H1.
  specialize (H1 (fun x st v Hs =>
                    eq_trans (advanceVehicle_ids (Sim.laneProfiles s) dt x st v) Hs)
                 (Sim.vehicles s, ∅) w eq_refl).
  destruct (forEachM (Sim.advanceVehicle (Sim.laneProfiles s) dt) _ _ w)
    as [[vs1 lm1] w1].
  cbn [fst] in H1. unfold Sim.handleLaneChanges.
  pose proof (forEachM_invariant
                (fun st : Sim.Store * gmap Z (list nat) =>
                   map Sim.id (fst st) = map Sim.id (Sim.vehicles s))
                (Sim.evaluateLaneChange (Sim.laneProfiles s))
                (seq 0 (length vs1))) as H2.
  specialize (H2 (fun x st v Hs =>
                    eq_trans (evaluateLaneChange_ids (Sim.laneProfiles s) x st v) Hs)
                 (vs1, Sim.sortAscending vs1 <$> lm1) w1 H1).
  destruct (forEachM (Sim.evaluateLaneChange (Sim.laneProfiles s)) _ _ w1)
    as [[vs2 lm2] w2].
  cbn [fst snd ret] in *. rewrite applySpacing_ids. exact H2.
Qed.

(** An operation that neither resets the traffic nor despawns the id keeps
    it in the population. *)
Lemma apply_keeps_id (ident : string) (op : Op) (s : Sim.t) (w : World) :
  op <> OpResetTraffic ->
  ~ despawnedIn ident op s w ->
  In ident (map Sim.id (Sim.vehicles s)) ->
  In ident (map Sim.id (Sim.vehicles (fst (apply op s w)))).
Proof.
  intros Hreset Hkeep Hin. destruct op as [input|now|now patch|patch|]; cbn [apply].
  - unfold bind. destruct (spawnVehicle_cases s input w) as [[_ (v & E & _)]|[_ E]].
    + destruct (Sim.spawnVehicle s input w) as [[r s'] w']. cbn [fst snd ret] in *.
      injection E as _ ->. cbn. rewrite map_app. apply in_or_app. left. exact Hin.
    + rewrite E. cbn. exact Hin.
  - unfold Sim.step. destruct (Qle_bool (Sim.tickDt s now) 0) eqn:Edt.
    { cbn. exact Hin. }
    apply Qle_bool_false_iff in Edt.
    unfold Sim.stepTraffic, bind. cbn [despawnedIn] in Hkeep.
    pose proof (moveTraffic_ids (Sim.tickDt s now) (Sim.set_lastTick now s) w) as Hids.
    destruct (Sim.moveTraffic (Sim.tickDt s now) (Sim.set_lastTick now s) w)
      as [vs' w1].
    cbn [fst snd ret] in *.
    destruct (spawnNewVehicles_appends (Sim.tickDt s now)
                (Sim.set_vehicles (Sim.despawn vs') (Sim.set_lastTick now s)) w1)
      as [(spawned & -> & _) _].
    cbn [Sim.vehicles Sim.set_vehicles Sim.set_lastTick] in *.
    rewrite <- Hids in Hin. apply in_map_iff in Hin as (v & Hid & Hv).
    rewrite map_app. apply in_or_app. left. apply in_map_iff. exists v.
    split; [exact Hid|]. unfold Sim.despawn. apply filter_In. split; [exact Hv|].
    destruct (Sim.inCorridor v) eqn:Ec; [reflexivity|].
    exfalso. apply Hkeep. split; [exact Edt|]. exists v. split_all; assumption.
  - cbn [ret fst]. unfold Sim.updateMission.
    destruct (Sim.validateMission s now patch); exact Hin.
  - cbn [ret fst]. unfold Sim.updatePlayerState.
    destruct (Sim.PlayerPatch.speedMps patch), (Sim.PlayerPatch.speedMph patch);
      exact Hin.
  - contradiction.
Qed.

Lemma run_keeps_id (ident : string) (ops : list Op) :
  forall (s : Sim.t) (w : World),
    survives ident ops s w ->
    In ident (map Sim.id (Sim.vehicles s)) ->
    In ident (map Sim.id (Sim.vehicles (fst (run ops s w)))).
Proof.
  induction ops as [|op ops IH]; intros s w Hsurv Hin; cbn.
  - exact Hin.
  - destruct Hsurv as (Hreset & Hkeep & Hrest). unfold run in IH. unfold bind.
    pose proof (apply_keeps_id ident op s w Hreset Hkeep Hin) as Hin'.
    destruct (apply op s w) as [s' w']. cbn [fst snd] in *.
    apply IH; assumption.
Qed.

(** C9: for an integer lane index inside [[0, laneCount)] [spawnVehicle]
    succeeds, and the id it returns is among the vehicles of every
    snapshot read after any sequence of operations in which the traffic
    is not reset and no tick despawns that id; for any other lane index
    it throws and leaves the service and its vehicles as they were. *)
Theorem spawnVehicle_spec (s : Sim.t) (input : Sim.SpawnInput.t) (w : World) :
  (validSpawnLane s (Sim.SpawnInput.laneIndex input) ->
   exists ident s',
     fst (Sim.spawnVehicle s input w) = (Ok ident, s')
     /\ forall ops now,
         survives ident ops s' (snd (Sim.spawnVehicle s input w)) ->
         In ident (snapshotIds (fst (run ops s' (snd (Sim.spawnVehicle s input w))))
                               now))
  /\ (~ validSpawnLane s (Sim.SpawnInput.laneIndex input) ->
      exists e, Sim.spawnVehicle s input w = (Throw e, s, w)).
Proof.
  destruct (spawnVehicle_cases s input w) as [[Hval (v & E & _)]|[Hinv E]].
  - split; [|intros Hn; contradiction].
    intros _. exists (Sim.id v), (Sim.set_vehicles (Sim.vehicles s ++ [v]) s).
    split; [exact E|]. intros ops now Hsurv.
    rewrite snapshotIds_vehicles. apply run_keeps_id; [exact Hsurv|].
    cbn. rewrite map_app. apply in_or_app. right. left. reflexivity.
  - split; [intros Hv; contradiction|]. intros _. eauto.
Qed.

End Spawn.

(** ** Examples on the live service *)

Section ServiceExamples.
Import Models Examples SpacingSpec LaneChangeSpec ServiceOps.
Local Open Scope Q_scope.

Lemma ForallOrdPairs_at {A : Type} (R : A -> A -> Prop) (l : list A) :
  ForallOrdPairs R l ->
  forall i j a b, (i < j)%nat -> l !! i = Some a -> l !! j = Some b -> R a b.
Proof.
  induction 1 as [|x l Hx _ IH]; intros i j a b Hij Hi Hj.
  - destruct i; discriminate.
  - destruct j as [|j]; [lia|]. destruct i as [|i]; cbn in Hi, Hj.
    + injection Hi as <-. rewrite Forall_forall in Hx. apply Hx.
      apply list_elem_of_lookup. eauto.
    + apply (IH i j); [lia|assumption|assumption].
Qed.

(** C2, on the failing input.  [svcNearSpawn] has two vehicles of lane 0
    behind the origin.  In one tick of 160 ms in which every lane draws a
    spawn event, the vehicle that the spawn guard of lane 0 tests is the
    one nearest the origin, by then at about -94.9 m and so 705 m from the
    spawn point, and the spawn goes ahead: the new vehicle stands at
    -800 m, 0.9 m from the centre of the vehicle that the tick left at
    about -800.9 m.  The two overlap (their gap is negative) in a lane
    whose preferred spacing is 45 m, so the tick does not end with the
    vehicles spaced. *)
Lemma step_spawns_onto_vehicle_at_spawn_point :
  let found :=
    fst (Sim.stepTraffic (Sim.tickDt svcNearSpawn 160)
           (Sim.set_lastTick 160 svcNearSpawn) wz) in
  let after := Sim.vehicles (fst (Sim.step svcNearSpawn 160 wz)) in
  0 < Sim.tickDt svcNearSpawn 160
  /\ (exists near a b p,
        Sim.closestBehind (Sim.vehicles found) 0 = Some near
        /\ after !! 5%nat = Some near
        /\ after !! 6%nat = Some a
        /\ after !! 7%nat = Some b
        /\ Sim.laneIndex near = 0%Z /\ Sim.laneIndex a = 0%Z /\ Sim.laneIndex b = 0%Z
        /\ - 95 < Sim.positionZ near /\ Sim.positionZ near < - 94
        /\ - 801 < Sim.positionZ a /\ Sim.positionZ a < - 800
        /\ In a (Sim.vehicles found)
        /\ ~ In b (Sim.vehicles found)
        /\ Sim.positionZ b = Sim.RESPAWN_OFFSET_METERS
        /\ Sim.laneProfileAt (Sim.laneProfiles svcNearSpawn) 0 = Some p
        /\ TrafficLaneProfile.preferredSpacingMeters p == 45
        /\ gap a b < 0)
  /\ ~ spacingOk (Sim.laneProfiles svcNearSpawn) after.
Proof.
  cbv zeta.
  assert (Hpair : exists near a b p,
        Sim.closestBehind
          (Sim.vehicles
             (fst (Sim.stepTraffic (Sim.tickDt svcNearSpawn 160)
                     (Sim.set_lastTick 160 svcNearSpawn) wz))) 0 = Some near
        /\ Sim.vehicles (fst (Sim.step svcNearSpawn 160 wz)) !! 5%nat = Some near
        /\ Sim.vehicles (fst (Sim.step svcNearSpawn 160 wz)) !! 6%nat = Some a
        /\ Sim.vehicles (fst (Sim.step svcNearSpawn 160 wz)) !! 7%nat = Some b
        /\ Sim.laneIndex near = 0%Z /\ Sim.laneIndex a = 0%Z /\ Sim.laneIndex b = 0%Z
        /\ - 95 < Sim.positionZ near /\ Sim.positionZ near < - 94
        /\ - 801 < Sim.positionZ a /\ Sim.positionZ a < - 800
        /\ In a (Sim.vehicles
                   (fst (Sim.stepTraffic (Sim.tickDt svcNearSpawn 160)
                           (Sim.set_lastTick 160 svcNearSpawn) wz)))
        /\ ~ In b (Sim.vehicles
                     (fst (Sim.stepTraffic (Sim.tickDt svcNearSpawn 160)
                             (Sim.set_lastTick 160 svcNearSpawn) wz)))
        /\ Sim.positionZ b = Sim.RESPAWN_OFFSET_METERS
        /\ Sim.laneProfileAt (Sim.laneProfiles svcNearSpawn) 0 = Some p
        /\ TrafficLaneProfile.preferredSpacingMeters p == 45
        /\ gap a b < 0).
  { eexists _, _, _, _.
    split; [vm_compute; reflexivity|].
    split; [vm_compute; reflexivity|].
    split; [vm_compute; reflexivity|].
    split; [vm_compute; reflexivity|].
    split; [vm_compute; reflexivity|].
    split; [vm_compute; reflexivity|].
    split; [vm_compute; reflexivity|].
    split; [vm_compute; reflexivity|].
    split; [vm_compute; reflexivity|].
    split; [vm_compute; reflexivity|].
    split; [vm_compute; reflexivity|].
    split; [vm_compute; auto 10|].
    split.
    { vm_compute. intros H.
      repeat (destruct H as [H|H]; [discriminate|]). exact H. }
    split; [vm_compute; reflexivity|].
    split; [vm_compute; reflexivity|].
    split; vm_compute; reflexivity. }
  split; [vm_compute; reflexivity|]. split; [exact Hpair|].
  intros Hok.
  destruct Hpair as (near & a & b & p & _ & _ & Ha & Hb & _ & La & Lb & _ & _ & _ & _
                     & _ & _ & _ & Hp & Hsp & Hgap).
  assert (Hl : Sim.laneIndex a = Sim.laneIndex b) by congruence.
  assert (Hp' : Sim.laneProfileAt (Sim.laneProfiles svcNearSpawn) (Sim.laneIndex a)
                = Some p) by (rewrite La; exact Hp).
  pose proof (ForallOrdPairs_at _ _ Hok 6%nat 7%nat a b ltac:(lia) Ha Hb Hl p Hp') as Hle.
  rewrite Hsp in Hle. lra.
Qed.

(** One tick of 160 ms on [svcTail], every lane drawing a spawn event: the
    vehicle spawned in lane 0 at -800 m is 41.4 m, bumper to bumper, from
    the vehicle the tick left at about -846.9 m, in a lane whose preferred
    spacing is 45 m.  The spawn guard compares the centre distance (46.9 m)
    with the spacing, and no spacing pass follows the spawn. *)
Lemma step_spawn_closer_than_spacing :
  0 < Sim.tickDt svcTail 160
  /\ (exists a b p,
        Sim.vehicles (fst (Sim.step svcTail 160 wz)) !! 5%nat = Some a
        /\ Sim.vehicles (fst (Sim.step svcTail 160 wz)) !! 6%nat = Some b
        /\ Sim.laneIndex a = Sim.laneIndex b
        /\ Sim.laneProfileAt (Sim.laneProfiles svcTail) (Sim.laneIndex a) = Some p
        /\ gap a b < TrafficLaneProfile.preferredSpacingMeters p
        /\ Sim.positionZ b = Sim.RESPAWN_OFFSET_METERS)
  /\ ~ spacingOk (Sim.laneProfiles svcTail)
        (Sim.vehicles (fst (Sim.step svcTail 160 wz))).
Proof.
  assert (Hpair : exists a b p,
             Sim.vehicles (fst (Sim.step svcTail 160 wz)) !! 5%nat = Some a
             /\ Sim.vehicles (fst (Sim.step svcTail 160 wz)) !! 6%nat = Some b
             /\ Sim.laneIndex a = Sim.laneIndex b
             /\ Sim.laneProfileAt (Sim.laneProfiles svcTail) (Sim.laneIndex a) = Some p
             /\ gap a b < TrafficLaneProfile.preferredSpacingMeters p
             /\ Sim.positionZ b = Sim.RESPAWN_OFFSET_METERS).
  { eexists _, _, _. split; [vm_compute; reflexivity|].
    split; [vm_compute; reflexivity|].
    split; [vm_compute; reflexivity|].
    split; [vm_compute; reflexivity|].
    split; vm_compute; reflexivity. }
  split; [vm_compute; reflexivity|]. split; [exact Hpair|].
  intros Hok. destruct Hpair as (a & b & p & Ha & Hb & Hl & Hp & Hgap & _).
  pose proof (ForallOrdPairs_at _ _ Hok 5%nat 6%nat a b ltac:(lia) Ha Hb Hl p Hp) as Hle.
  apply (Qlt_not_le _ _ Hgap Hle).
Qed.



(** A vehicle spawned in lane 1 of [svc0] gets the id [uuid-5] and is in
    the snapshot read after a tick of 160 ms, which leaves every vehicle
    inside the corridor. *)
Lemma spawnVehicle_spec_witness :
  exists s',
    fst (Sim.spawnVehicle svc0 spawnLane1 w0') = (Ok "uuid-5"%string, s')
    /\ In "uuid-5"%string
         (snapshotIds
            (fst (run [OpTick 160] s' (snd (Sim.spawnVehicle svc0 spawnLane1 w0'))))
            160).
Proof.
  destruct (spawnVehicle_spec svc0 spawnLane1 w0') as [Hok _].
  destruct Hok as (ident & s' & E & Hsnap).
  - exists 1%Z. split; [vm_compute; split; [discriminate|reflexivity]|].
    exists 1. split; reflexivity.
  - assert (Ei : fst (fst (Sim.spawnVehicle svc0 spawnLane1 w0')) = Ok "uuid-5"%string)
      by (vm_compute; reflexivity).
    rewrite E in Ei. cbn [fst] in Ei. injection Ei as ->.
    exists s'. split; [exact E|]. apply Hsnap.
    assert (Es : s' = snd (fst (Sim.spawnVehicle svc0 spawnLane1 w0')))
      by (rewrite E; reflexivity).
    subst s'. cbn [survives]. split; [discriminate|]. split; [|exact I].
    intros (_ & v & Hin & _ & Hout).
    assert (Hall : forallb Sim.inCorridor
                     (fst (Sim.moveTraffic
                             (Sim.tickDt (snd (fst (Sim.spawnVehicle svc0 spawnLane1 w0'))) 160)
                             (Sim.set_lastTick 160
                                (snd (fst (Sim.spawnVehicle svc0 spawnLane1 w0'))))
                             (snd (Sim.spawnVehicle svc0 spawnLane1 w0'))))
                   = true) by (vm_compute; reflexivity).
    rewrite forallb_forall in Hall. rewrite (Hall v Hin) in Hout. discriminate.
Defined.

End ServiceExamples.

(** * Further properties of the code *)

(** ** Lane geometry and lane profiles *)

Section Layout.
Import Models Examples.
Local Open Scope Q_scope.




(** A scene without lanes has every centre at 0. *)
Lemma getLaneCenter_no_lanes (s : Sim.t) (i : Q) :
  Sim.sceneLanes s = [] -> Sim.getLaneCenter s i = 0.
Proof. intros E. unfold Sim.getLaneCenter. rewrite E. reflexivity. Qed.

(** What [buildLaneProfiles] guarantees of a profile. *)
Definition profileSane (p : TrafficLaneProfile.t) : Prop :=
  TrafficLaneProfile.minSpeedMph p <= TrafficLaneProfile.targetSpeedMph p
  /\ TrafficLaneProfile.targetSpeedMph p <= TrafficLaneProfile.maxSpeedMph p
  /\ 0 < TrafficLaneProfile.minSpeedMph p
  /\ 28 <= TrafficLaneProfile.preferredSpacingMeters p
  /\ 4 <= TrafficLaneProfile.spawnRatePerMinute p
  /\ TrafficLaneProfile.spawnRatePerMinute p <= 17.
(* the densest lane type has 28 vehicles per mile, times 0.6 *)

Lemma buildLaneProfiles_lookup (lanes : list LaneDefinition.t) (i : nat) :
  Sim.buildLaneProfiles lanes !! i
  = lanes !! i ≫= (fun lane => head (Sim.buildLaneProfiles [lane])).
Proof.
  unfold Sim.buildLaneProfiles.
  change (map ?f lanes) with (f <$> lanes). rewrite list_lookup_fmap.
  destruct (lanes !! i) as [lane|]; [|reflexivity]. cbn.
  destruct (Sim.LANE_TYPE_PROFILES (LaneDefinition.type lane)) as [[[lo hi] d] sp].
  reflexivity.
Qed.

(** The profile of one lane. *)
Lemma laneProfile_of (lane : LaneDefinition.t) :
  exists p, head (Sim.buildLaneProfiles [lane]) = Some p
            /\ TrafficLaneProfile.laneIndex p = LaneDefinition.index lane
            /\ TrafficLaneProfile.type p = LaneDefinition.type lane
            /\ profileSane p.
Proof.
  eexists. split; [reflexivity|].
  destruct lane as [ix ty lim]. unfold profileSane.
  destruct ty; cbn; split_all; try reflexivity; vm_compute; discriminate.
Qed.

(** [buildLaneProfiles] makes one profile per lane of the scene, in order,
    with the lane's index and type; whatever the lane type, the target
    speed lies between the minimum and the maximum speed, the preferred
    spacing is at least 28 m and the spawn rate lies between 4 and 17 per
    minute. *)
Theorem buildLaneProfiles_sane (lanes : list LaneDefinition.t) :
  length (Sim.buildLaneProfiles lanes) = length lanes
  /\ forall i lane, lanes !! i = Some lane ->
       exists p, Sim.buildLaneProfiles lanes !! i = Some p
                 /\ TrafficLaneProfile.laneIndex p = LaneDefinition.index lane
                 /\ TrafficLaneProfile.type p = LaneDefinition.type lane
                 /\ profileSane p.
Proof.
  split.
  - unfold Sim.buildLaneProfiles. apply length_map.
  - intros i lane Hl. rewrite buildLaneProfiles_lookup, Hl.
    destruct (laneProfile_of lane) as (p & Hp & Hprops).
    exists p. split; [exact Hp|exact Hprops].
Qed.

Lemma buildLaneProfiles_Forall (lanes : list LaneDefinition.t) :
  Forall profileSane (Sim.buildLaneProfiles lanes).
Proof.
  rewrite Forall_forall. intros p Hp. apply list_elem_of_lookup in Hp as [i Hi].
  destruct (lanes !! i) as [lane|] eqn:El.
  - rewrite buildLaneProfiles_lookup, El in Hi.
    destruct (laneProfile_of lane) as (p' & Hp' & _ & _ & Hs).
    cbn [mbind option_bind] in Hi. congruence.
  - rewrite buildLaneProfiles_lookup, El in Hi. discriminate.
Qed.

End Layout.


(** ** The mission and the player of the live service *)

Section MissionState.
Import Models MissionSpec Examples.
Local Open Scope Q_scope.

Ltac mission_cases H s :=
  match type of H with
  | Sim.validateMission _ _ ?u = _ =>
      unfold Sim.validateMission in H;
      destruct u as [tl sp gp src nt md rl dir]; simpl in H;
      destruct tl as [[n1|]|]; simpl in H;
        [destruct (Sim.laneIndexOk s n1) eqn:E1; simpl in H; [|discriminate]| |];
      (destruct sp as [n2|]; simpl in H;
        [destruct (JS.isFinite n2) eqn:E2; simpl in H; [|discriminate]|]);
      (destruct gp as [n3|]; simpl in H;
        [destruct (JS.isFinite n3) eqn:E3; simpl in H; [|discriminate];
         destruct (JS.leb n3 0) eqn:E3'; simpl in H; [discriminate|]|]);
      (destruct rl as [[n4|]|]; simpl in H;
        [destruct (Sim.laneIndexOk s n4) eqn:E4; simpl in H; [|discriminate]| |]);
      (destruct md as [m|]; simpl in H;
        [destruct (Sim.includes Sim.validModes m) eqn:E5; simpl in H; [|discriminate]|]);
      (destruct dir as [[d|]|]; simpl in H;
        [destruct (Sim.includes Sim.validDirections d) eqn:E6; simpl in H;
         [|discriminate]| |]);
      injection H as H
  end.

Lemma laneIndexOk_set_mission (s : Sim.t) (m : DrivingMissionSnapshot.t) (n : JS.number) :
  Sim.laneIndexOk (Sim.set_mission m s) n = Sim.laneIndexOk s n.
Proof. reflexivity. Qed.

Lemma validateMission_again (s : Sim.t) (now : Z) (u : DrivingMissionUpdate.t)
    (next : DrivingMissionSnapshot.t) :
  Sim.validateMission s now u = Ok next ->
  Sim.validateMission (Sim.set_mission next s) now u = Ok next.
Proof.
  intros H. mission_cases H s; subst next;
    unfold Sim.validateMission; simpl;
    rewrite ?laneIndexOk_set_mission, ?E1, ?E2, ?E3, ?E3', ?E4, ?E5, ?E6; simpl;
    rewrite ?laneIndexOk_set_mission, ?E1, ?E2, ?E3, ?E3', ?E4, ?E5, ?E6; simpl;
    rewrite ?laneIndexOk_set_mission, ?E1, ?E2, ?E3, ?E3', ?E4, ?E5, ?E6; simpl;
    destruct nt, src as [src|]; try reflexivity;
    destruct (bool_decide (src = ""%string)); reflexivity.
Qed.

(** [updateMission] is idempotent: when a patch has been accepted,
    sending the same patch again at the same time is accepted too, returns
    the same mission and leaves the service as the first call left it. *)
Theorem updateMission_idempotent (s s' : Sim.t) (now : Z) (u : DrivingMissionUpdate.t)
    (m : DrivingMissionSnapshot.t) :
  Sim.updateMission s now u = (Ok m, s') ->
  Sim.updateMission s' now u = (Ok m, s').
Proof.
  unfold Sim.updateMission. intros H.
  destruct (Sim.validateMission s now u) as [next|e] eqn:E; [|discriminate].
  injection H as <- <-. rewrite (validateMission_again s now u next E).
  reflexivity.
Qed.

Lemma updateMission_idempotent_witness :
  exists m s',
    Sim.updateMission svc0 7 (speedGapPatch 200 500) = (Ok m, s')
    /\ Sim.updateMission s' 7 (speedGapPatch 200 500) = (Ok m, s').
Proof.
  eexists _, _. split; [reflexivity|].
  apply (updateMission_idempotent svc0 _ 7 (speedGapPatch 200 500)). reflexivity.
Defined.


(** What [updateMission] computes for each field of an accepted patch. *)
Lemma validateMission_fields (s : Sim.t) (now : Z) (u : DrivingMissionUpdate.t)
    (next : DrivingMissionSnapshot.t) :
  Sim.validateMission s now u = Ok next ->
  let cur := Sim.mission s in
  match DrivingMissionUpdate.targetLaneIndex u with
  | None => DrivingMissionSnapshot.targetLaneIndex next
            = DrivingMissionSnapshot.targetLaneIndex cur
  | Some None => DrivingMissionSnapshot.targetLaneIndex next = None
  | Some (Some n) => Sim.laneIndexOk s n = true
                     /\ DrivingMissionSnapshot.targetLaneIndex next
                        = Some (Sim.numberValue n)
  end
  /\ match DrivingMissionUpdate.cruiseTargetSpeedMph u with
     | None => DrivingMissionSnapshot.cruiseTargetSpeedMph next
               = DrivingMissionSnapshot.cruiseTargetSpeedMph cur
     | Some n => DrivingMissionSnapshot.cruiseTargetSpeedMph next
                 = JS.max 25 (JS.min 95 (Sim.numberValue n))
     end
  /\ match DrivingMissionUpdate.cruiseGapMeters u with
     | None => DrivingMissionSnapshot.cruiseGapMeters next
               = DrivingMissionSnapshot.cruiseGapMeters cur
     | Some n => DrivingMissionSnapshot.cruiseGapMeters next
                 = JS.max 8 (JS.min 120 (Sim.numberValue n))
     end
  /\ match DrivingMissionUpdate.returnLaneIndex u with
     | None => DrivingMissionSnapshot.returnLaneIndex next
               = DrivingMissionSnapshot.returnLaneIndex cur
     | Some None => DrivingMissionSnapshot.returnLaneIndex next = None
     | Some (Some n) => Sim.laneIndexOk s n = true
                        /\ DrivingMissionSnapshot.returnLaneIndex next
                           = Some (Sim.numberValue n)
     end
  /\ match DrivingMissionUpdate.mode u with
     | None => DrivingMissionSnapshot.mode next = DrivingMissionSnapshot.mode cur
     | Some m => Sim.includes Sim.validModes m = true
                 /\ DrivingMissionSnapshot.mode next = m
     end
  /\ match DrivingMissionUpdate.laneChangeDirection u with
     | None => DrivingMissionSnapshot.laneChangeDirection next
               = DrivingMissionSnapshot.laneChangeDirection cur
     | Some None => DrivingMissionSnapshot.laneChangeDirection next = None
     | Some (Some d) => Sim.includes Sim.validDirections d = true
                        /\ DrivingMissionSnapshot.laneChangeDirection next = Some d
     end
  /\ match DrivingMissionUpdate.source u with
     | None => DrivingMissionSnapshot.source next = DrivingMissionSnapshot.source cur
     | Some src => src <> ""%string -> DrivingMissionSnapshot.source next = src
     end
  /\ match DrivingMissionUpdate.note u with
     | None => DrivingMissionSnapshot.note next = DrivingMissionSnapshot.note cur
     | Some n => DrivingMissionSnapshot.note next = Some n
     end
  /\ DrivingMissionSnapshot.updatedAt next = now.
Proof.
  intros H. mission_cases H s; subst next; cbn;
    (split_all; try reflexivity; try assumption);
    destruct src as [src|], nt; cbn; split_all; try reflexivity;
    intros Hsrc; (case_bool_decide; [contradiction|reflexivity]).
Qed.

(** An accepted patch changes the fields it names and the update time,
    and nothing else: a field the patch leaves out keeps its value, and
    the vehicles, the player, the lane profiles and the clock of the last
    tick are as before. *)
Theorem updateMission_changes_named_fields_only (s s' : Sim.t) (now : Z)
    (u : DrivingMissionUpdate.t) (m : DrivingMissionSnapshot.t) :
  Sim.updateMission s now u = (Ok m, s') ->
  Sim.mission s' = m
  /\ DrivingMissionSnapshot.updatedAt m = now
  /\ (DrivingMissionUpdate.targetLaneIndex u = None ->
      DrivingMissionSnapshot.targetLaneIndex m
      = DrivingMissionSnapshot.targetLaneIndex (Sim.mission s))
  /\ (DrivingMissionUpdate.cruiseTargetSpeedMph u = None ->
      DrivingMissionSnapshot.cruiseTargetSpeedMph m
      = DrivingMissionSnapshot.cruiseTargetSpeedMph (Sim.mission s))
  /\ (DrivingMissionUpdate.cruiseGapMeters u = None ->
      DrivingMissionSnapshot.cruiseGapMeters m
      = DrivingMissionSnapshot.cruiseGapMeters (Sim.mission s))
  /\ (DrivingMissionUpdate.returnLaneIndex u = None ->
      DrivingMissionSnapshot.returnLaneIndex m
      = DrivingMissionSnapshot.returnLaneIndex (Sim.mission s))
  /\ (DrivingMissionUpdate.mode u = None ->
      DrivingMissionSnapshot.mode m = DrivingMissionSnapshot.mode (Sim.mission s))
  /\ (DrivingMissionUpdate.laneChangeDirection u = None ->
      DrivingMissionSnapshot.laneChangeDirection m
      = DrivingMissionSnapshot.laneChangeDirection (Sim.mission s))
  /\ (DrivingMissionUpdate.source u = None ->
      DrivingMissionSnapshot.source m = DrivingMissionSnapshot.source (Sim.mission s))
  /\ (DrivingMissionUpdate.note u = None ->
      DrivingMissionSnapshot.note m = DrivingMissionSnapshot.note (Sim.mission s))
  /\ Sim.vehicles s' = Sim.vehicles s
  /\ Sim.player s' = Sim.player s
  /\ Sim.laneProfiles s' = Sim.laneProfiles s
  /\ Sim.lastTick s' = Sim.lastTick s.
Proof.
  unfold Sim.updateMission. intros H.
  destruct (Sim.validateMission s now u) as [next|e] eqn:E; [|discriminate].
  injection H as <- <-.
  destruct (validateMission_fields s now u next E)
    as (Htl & Hsp & Hgp & Hrl & Hmd & Hdir & Hsrc & Hnt & Hat).
  split_all; try reflexivity; try exact Hat; intros Hnone; rewrite Hnone in *;
    assumption.
Qed.

Lemma updateMission_changes_named_fields_only_witness :
  exists m s',
    Sim.updateMission svc0 7 (modePatch "hold") = (Ok m, s')
    /\ DrivingMissionSnapshot.cruiseTargetSpeedMph m = 65
    /\ DrivingMissionSnapshot.updatedAt m = 7%Z
    /\ Sim.vehicles s' = Sim.vehicles svc0.
Proof.
  eexists _, _. split; [reflexivity|].
  destruct (updateMission_changes_named_fields_only svc0 _ 7 (modePatch "hold") _
              eq_refl)
    as (_ & Hat & _ & Hsp & _ & _ & _ & _ & _ & _ & Hv & _).
  split; [exact (Hsp eq_refl)|]. split; [exact Hat|exact Hv].
Defined.

(** The value of a lane field of the mission: null, or an integer lane
    index inside the lane range. *)
Definition laneOk (s : Sim.t) (l : option Q) : Prop :=
  forall q, l = Some q ->
    exists z : Z, (0 <= z < Z.of_nat (length (Sim.laneProfiles s)))%Z /\ q == inject_Z z.

(** The mission as every accepted patch leaves it: targets inside their
    bounds, a known mode, lanes null or inside the lane range, a direction
    null or left or right. *)
Definition missionOk (s : Sim.t) : Prop :=
  let m := Sim.mission s in
  25 <= DrivingMissionSnapshot.cruiseTargetSpeedMph m <= 95
  /\ 8 <= DrivingMissionSnapshot.cruiseGapMeters m <= 120
  /\ modeFieldOk (Some (DrivingMissionSnapshot.mode m))
  /\ laneOk s (DrivingMissionSnapshot.targetLaneIndex m)
  /\ laneOk s (DrivingMissionSnapshot.returnLaneIndex m)
  /\ directionFieldOk (Some (DrivingMissionSnapshot.laneChangeDirection m)).

Lemma laneIndexOk_laneOk (s : Sim.t) (n : JS.number) :
  Sim.laneIndexOk s n = true -> laneOk s (Some (Sim.numberValue n)).
Proof.
  intros H. apply laneIndexOk_iff in H as (z & Hz & q & -> & Hq).
  intros q' Hq'. injection Hq' as <-. exists z. split; [exact Hz|exact Hq].
Qed.

(** Whatever patch is sent, valid or not, [updateMission] leaves the
    mission inside its bounds when it was inside them before. *)
Lemma updateMission_missionOk (s : Sim.t) (now : Z)
    (u : DrivingMissionUpdate.t) :
  missionOk s -> missionOk (snd (Sim.updateMission s now u)).
Proof.
  intros Hok. unfold Sim.updateMission.
  destruct (Sim.validateMission s now u) as [next|e] eqn:E; [|exact Hok].
  destruct (validateMission_fields s now u next E)
    as (Htl & Hsp & Hgp & Hrl & Hmd & Hdir & _).
  destruct Hok as (Osp & Ogp & Omd & Otl & Orl & Odir).
  unfold missionOk. cbn [snd Sim.mission Sim.set_mission].
  assert (Hlanes : forall l, laneOk s l -> laneOk (Sim.set_mission next s) l)
    by (intros l Hl; exact Hl).
  refine (conj _ (conj _ (conj _ (conj _ (conj _ _))))).
  - destruct (DrivingMissionUpdate.cruiseTargetSpeedMph u);
      rewrite Hsp; [apply max_min_clamp; lra|exact Osp].
  - destruct (DrivingMissionUpdate.cruiseGapMeters u);
      rewrite Hgp; [apply max_min_clamp; lra|exact Ogp].
  - destruct (DrivingMissionUpdate.mode u) as [m|].
    + destruct Hmd as [Hin ->]. intros m' Hm'. injection Hm' as <-.
      apply includes_validModes. exact Hin.
    + rewrite Hmd. exact Omd.
  - apply Hlanes. destruct (DrivingMissionUpdate.targetLaneIndex u) as [[n|]|].
    + destruct Htl as [Hn ->]. apply laneIndexOk_laneOk. exact Hn.
    + rewrite Htl. intros q Hq. discriminate.
    + rewrite Htl. exact Otl.
  - apply Hlanes. destruct (DrivingMissionUpdate.returnLaneIndex u) as [[n|]|].
    + destruct Hrl as [Hn ->]. apply laneIndexOk_laneOk. exact Hn.
    + rewrite Hrl. intros q Hq. discriminate.
    + rewrite Hrl. exact Orl.
  - destruct (DrivingMissionUpdate.laneChangeDirection u) as [[d|]|].
    + destruct Hdir as [Hin ->]. intros d' Hd'. injection Hd' as <-.
      apply includes_validDirections. exact Hin.
    + rewrite Hdir. intros d' Hd'. discriminate.
    + rewrite Hdir. exact Odir.
Qed.

End MissionState.

Section Player.
Import Models Examples.
Local Open Scope Q_scope.

(** [updatePlayerState] stores whatever lane index, position and sizes the
    patch carries, without any check, but it always writes the id
    [player], the type sedan and the behaviour steady.  Of the two speed
    fields, [speedMps] of the patch wins: a patch with [speedMps] stores it
    and sets [speedMph] to [mpsToMph] of it, also when the patch carries a
    [speedMph] of its own; a patch with only [speedMph] stores it and sets
    [speedMps] to [mphToMps] of it; a patch with neither keeps both.  A
    lane index in the patch also moves the x coordinate to that lane's
    centre.  Vehicles, mission and lane profiles are not touched. *)
Theorem updatePlayerState_effect (s : Sim.t) (patch : Sim.PlayerPatch.t) :
  let p' := Sim.player (Sim.updatePlayerState s patch) in
  PlayerSnapshot.id p' = "player"%string
  /\ PlayerSnapshot.type p' = sedan
  /\ PlayerSnapshot.behavior p' = steady
  /\ (forall v, Sim.PlayerPatch.speedMps patch = Some v ->
        PlayerSnapshot.speedMps p' = v
        /\ PlayerSnapshot.speedMph p' = Sim.mpsToMph v)
  /\ (forall v, Sim.PlayerPatch.speedMps patch = None ->
        Sim.PlayerPatch.speedMph patch = Some v ->
        PlayerSnapshot.speedMph p' = v
        /\ PlayerSnapshot.speedMps p' = Sim.mphToMps v)
  /\ (Sim.PlayerPatch.speedMps patch = None ->
      Sim.PlayerPatch.speedMph patch = None ->
      PlayerSnapshot.speedMps p' = PlayerSnapshot.speedMps (Sim.player s)
      /\ PlayerSnapshot.speedMph p' = PlayerSnapshot.speedMph (Sim.player s))
  /\ (forall l, Sim.PlayerPatch.laneIndex patch = Some l ->
        PlayerSnapshot.laneIndex p' = l
        /\ fst (fst (PlayerSnapshot.position p')) = Sim.getLaneCenter s l)
  /\ Sim.vehicles (Sim.updatePlayerState s patch) = Sim.vehicles s
  /\ Sim.mission (Sim.updatePlayerState s patch) = Sim.mission s
  /\ Sim.laneProfiles (Sim.updatePlayerState s patch) = Sim.laneProfiles s.
Proof.
  unfold Sim.updatePlayerState.
  destruct patch as [li pos mps mph len wid steer acc pz]. cbn zeta.
  cbn [Sim.PlayerPatch.laneIndex Sim.PlayerPatch.position Sim.PlayerPatch.speedMps
       Sim.PlayerPatch.speedMph Sim.PlayerPatch.positionZ].
  destruct mps as [mps|], mph as [mph|];
    cbn [Sim.player Sim.set_player Sim.vehicles Sim.mission Sim.laneProfiles
         PlayerSnapshot.id PlayerSnapshot.type PlayerSnapshot.behavior
         PlayerSnapshot.speedMps PlayerSnapshot.speedMph PlayerSnapshot.laneIndex
         PlayerSnapshot.position];
    refine (conj eq_refl (conj eq_refl (conj eq_refl (conj _ (conj _ (conj _
              (conj _ (conj eq_refl (conj eq_refl eq_refl)))))))));
    try (intros v Hv; discriminate);
    try (intros v Hn Hv; discriminate);
    try (intros Hn Hv; discriminate);
    try (intros v Hv; simplify_eq; split; reflexivity);
    try (intros v Hn Hv; simplify_eq; split; reflexivity);
    try (intros _ _; split; reflexivity);
    try (intros l Hl; subst li; split; reflexivity).
Qed.

Lemma updatePlayerState_id (s : Sim.t) (patch : Sim.PlayerPatch.t) :
  PlayerSnapshot.id (Sim.player (Sim.updatePlayerState s patch)) = "player"%string.
Proof.
  unfold Sim.updatePlayerState.
  destruct (Sim.PlayerPatch.speedMps patch) as [mps|],
           (Sim.PlayerPatch.speedMph patch) as [mph|]; reflexivity.
Qed.

End Player.

(** ** What a tick keeps of a vehicle *)

Section TickFrame.
Import Models SpacingSpec.
Local Open Scope Q_scope.

Context {B : Type} (f : Sim.TrafficVehicleState -> B).
Hypothesis f_position : forall z v, f (Sim.set_positionZ z v) = f v.
Hypothesis f_speed : forall x v, f (Sim.set_speedMps x v) = f v.

Lemma advanceVehicle_fmap (profiles : list TrafficLaneProfile.t) (dt : Q) (i : nat)
    (st : Sim.Store * gmap Z (list nat)) (w : World) :
  map f (fst (fst (Sim.advanceVehicle profiles dt i st w))) = map f (fst st).
Proof using f_position f_speed.
  destruct st as [vs laneMap]. unfold Sim.advanceVehicle.
  destruct (vs !! i) as [vehicle|] eqn:Ev; [|reflexivity].
  destruct (Sim.laneProfileAt profiles (Sim.laneIndex vehicle)); [|reflexivity].
  cbv [bind Sim.randBetween Math_random ret fst].
  apply (map_insert_same f vs i vehicle); [exact Ev|].
  rewrite f_position, f_speed. reflexivity.
Qed.

Lemma spacingLoop_fmap (minGap : Q) (rest : list nat) :
  forall (lead : nat) (vs : Sim.Store),
    map f (Sim.spacingLoop minGap lead rest vs) = map f vs.
Proof using f_position f_speed.
  induction rest as [|x rest IH]; intros lead vs; cbn; [reflexivity|].
  rewrite IH. destruct (vs !! lead) as [leadV|]; [|reflexivity].
  destruct (vs !! x) as [follower|] eqn:Ef; [|reflexivity].
  destruct (JS.Qlt_bool _ _); [|reflexivity].
  apply (map_insert_same f vs x follower); [exact Ef|].
  rewrite f_speed, f_position. reflexivity.
Qed.

Lemma applySpacing_fmap (profiles : list TrafficLaneProfile.t)
    (laneMap : gmap Z (list nat)) (vs : Sim.Store) :
  map f (Sim.applySpacing profiles laneMap vs) = map f vs.
Proof using f_position f_speed.
  unfold Sim.applySpacing.
  apply (map_fold_weak_ind
           (fun (r : Sim.Store) (_ : gmap Z (list nat)) => map f r = map f vs)).
  - reflexivity.
  - intros k l m r _ IH. unfold Sim.spaceLane.
    destruct (Sim.laneProfileAt profiles k); [|exact IH].
    destruct (Sim.sortDescending r l); [exact IH|].
    rewrite spacingLoop_fmap. exact IH.
Qed.

Hypothesis f_lane : forall l v, f (Sim.set_laneIndex l v) = f v.
Hypothesis f_target : forall x v, f (Sim.set_targetSpeedMps x v) = f v.

Lemma evaluateLaneChange_fmap (profiles : list TrafficLaneProfile.t) (self : nat)
    (st : Sim.Store * gmap Z (list nat)) (w : World) :
  map f (fst (fst (Sim.evaluateLaneChange profiles self st w))) = map f (fst st).
Proof using f_position f_lane f_target.
  destruct st as [vs laneMap]. unfold Sim.evaluateLaneChange.
  destruct (vs !! self) as [vehicle|] eqn:Ev; [|reflexivity].
  destruct (laneMap !! Sim.laneIndex vehicle) as [cur|]; [|reflexivity].
  destruct (Sim.laneProfileAt profiles (Sim.laneIndex vehicle)) as [cp|];
    [|reflexivity].
  destruct (_ && _); [reflexivity|].
  destruct (Sim.chooseLane profiles vs laneMap self vehicle cp) as [chosen|];
    [|reflexivity].
  destruct (Sim.laneProfileAt profiles chosen) as [tp|];
    cbv [bind Sim.randBetween Math_random ret fst].
  - rewrite list_insert_insert_eq.
    apply (map_insert_same f vs self vehicle); [exact Ev|].
    rewrite !f_target, f_position, f_lane. reflexivity.
  - apply (map_insert_same f vs self vehicle); [exact Ev|].
    rewrite f_position, f_lane. reflexivity.
Qed.

Lemma moveTraffic_fmap (dt : Q) (s : Sim.t) (w : World) :
  map f (fst (Sim.moveTraffic dt s w)) = map f (Sim.vehicles s).
Proof using f_position f_speed f_lane f_target.
  unfold Sim.moveTraffic, bind.
  pose proof (forEachM_invariant
                (fun st : Sim.Store * gmap Z (list nat) =>
                   map f (fst st) = map f (Sim.vehicles s))
                (Sim.advanceVehicle (Sim.laneProfiles s) dt)
                (seq 0 (length (Sim.vehicles s)))) as H1.
  specialize (H1 (fun x st v Hs =>
                    eq_trans (advanceVehicle_fmap (Sim.laneProfiles s) dt x st v) Hs)
                 (Sim.vehicles s, ∅) w eq_refl).
  destruct (forEachM (Sim.advanceVehicle (Sim.laneProfiles s) dt) _ _ w)
    as [[vs1 lm1] w1].
  cbn [fst] in H1. unfold Sim.handleLaneChanges.
  pose proof (forEachM_invariant
                (fun st : Sim.Store * gmap Z (list nat) =>
                   map f (fst st) = map f (Sim.vehicles s))
                (Sim.evaluateLaneChange (Sim.laneProfiles s))
                (seq 0 (length vs1))) as H2.
  specialize (H2 (fun x st v Hs =>
                    eq_trans (evaluateLaneChange_fmap (Sim.laneProfiles s) x st v) Hs)
                 (vs1, Sim.sortAscending vs1 <$> lm1) w1 H1).
  destruct (forEachM (Sim.evaluateLaneChange (Sim.laneProfiles s)) _ _ w1)
    as [[vs2 lm2] w2].
  cbn [fst snd ret] in *. rewrite applySpacing_fmap. exact H2.
Qed.

End TickFrame.

Section TickEffects.
Import Models SpacingSpec Examples.
Local Open Scope Q_scope.

(** What identifies a vehicle and its body: id, type, behaviour, length
    and width. *)
Definition identityOf (v : Sim.TrafficVehicleState)
  : string * VehicleKind * TrafficBehaviorProfile * Q * Q :=
  (Sim.id v, Sim.type v, Sim.behavior v, Sim.lengthMeters v, Sim.widthMeters v).

(** The footprints a vehicle can be given: the rows of
    [VEHICLE_DIMENSIONS]. *)
Definition footprintOk (v : Sim.TrafficVehicleState) : Prop :=
  In (Sim.lengthMeters v, Sim.widthMeters v)
     (map (fun d => (snd (fst d), snd d)) Sim.VEHICLE_DIMENSIONS).

Lemma moveTraffic_identity (dt : Q) (s : Sim.t) (w : World) :
  map identityOf (fst (Sim.moveTraffic dt s w)) = map identityOf (Sim.vehicles s).
Proof. apply moveTraffic_fmap; reflexivity. Qed.

Lemma filter_sublist {A : Type} (p : A -> bool) (l : list A) :
  sublist (List.filter p l) l.
Proof.
  induction l as [|x l IH]; cbn; [constructor|].
  destruct (p x); [apply sublist_skip|apply sublist_cons]; exact IH.
Qed.

Lemma filter_map_sublist {A C : Type} (g : A -> C) (p : A -> bool) (l : list A) :
  sublist (map g (List.filter p l)) (map g l).
Proof.
  change (sublist (g <$> List.filter p l) (g <$> l)).
  apply fmap_sublist, filter_sublist.
Qed.

(** The part of [spawnInto] and [spawnInLane] that the population sees:
    at most one vehicle is appended, at the spawn point, in the lane of the
    entry, with a footprint of the table; nothing else of the service
    changes. *)
Definition spawnedOne (lane : Z) (s s' : Sim.t) : Prop :=
  (s' = s
   \/ exists v, s' = Sim.set_vehicles (Sim.vehicles s ++ [v]) s
                /\ Sim.laneIndex v = lane
                /\ Sim.positionZ v = Sim.RESPAWN_OFFSET_METERS
                /\ Sim.speedMps v = Sim.targetSpeedMps v
                /\ footprintOk v).

Lemma pickRandom_footprint (w : World) :
  let d := fst (Sim.pickRandom (sedan, 4.5, 1.8) Sim.VEHICLE_DIMENSIONS w) in
  In (snd (fst d), snd d) (map (fun d => (snd (fst d), snd d)) Sim.VEHICLE_DIMENSIONS).
Proof.
  cbv [Sim.pickRandom bind Math_random ret fst]. cbn zeta.
  set (k := Z.to_nat _).
  destruct k as [|[|[|[|k]]]]; cbn; auto 6.
Qed.

Lemma spawnInLane_vehicle (s : Sim.t) (p : TrafficLaneProfile.t) (lane : Z)
    (input : Sim.SpawnInput.t) (w : World) :
  exists v,
    fst (Sim.spawnInLane s p lane input w)
    = (Sim.id v, Sim.set_vehicles (Sim.vehicles s ++ [v]) s)
    /\ Sim.id v = uuids w (ucursor w)
    /\ Sim.laneIndex v = lane
    /\ Sim.positionZ v
       = default Sim.RESPAWN_OFFSET_METERS (Sim.SpawnInput.positionZ input)
    /\ Sim.speedMps v = Sim.targetSpeedMps v
    /\ (forall mph, Sim.SpawnInput.speedMph input = Some mph ->
          Sim.speedMps v = Sim.mphToMps mph)
    /\ (forall k, Sim.SpawnInput.type input = Some k -> Sim.type v = k)
    /\ (forall b, Sim.SpawnInput.behavior input = Some b -> Sim.behavior v = b)
    /\ footprintOk v.
Proof.
  pose proof (pickRandom_footprint w) as Hfp. cbn zeta in Hfp.
  unfold Sim.spawnInLane. unfold bind at 1.
  destruct (Sim.pickRandom (sedan, 4.5, 1.8) Sim.VEHICLE_DIMENSIONS w)
    as [dims w1] eqn:Ed.
  assert (Hu : uuids w1 = uuids w /\ ucursor w1 = ucursor w).
  { cbv [Sim.pickRandom bind Math_random ret] in Ed. injection Ed as _ <-.
    split; reflexivity. }
  destruct Hu as [Hu1 Hu2]. cbn [fst] in Hfp.
  destruct (Sim.SpawnInput.behavior input) as [b|];
    cbv [bind Sim.pickRandom Sim.randBetween Math_random randomUUID ret fst];
    cbn [uuids ucursor];
    eexists (Sim.mkVehicle _ _ _ _ _ _ _ _ _);
    (split; [reflexivity|]);
    cbn [Sim.id Sim.laneIndex Sim.positionZ Sim.speedMps Sim.targetSpeedMps
         Sim.type Sim.behavior];
    rewrite Hu1, Hu2;
    (split_all; try reflexivity;
     try (intros x Hx; rewrite Hx; reflexivity);
     try (intros x Hx; congruence);
     try exact Hfp).
Qed.

Lemma spawnInto_spawnedOne (dt : Q) (lane : nat) (p : TrafficLaneProfile.t)
    (s : Sim.t) (w : World) :
  spawnedOne (Z.of_nat lane) s (fst (Sim.spawnInto dt (lane, p) s w)).
Proof.
  unfold Sim.spawnInto. cbv [bind Math_random ret].
  destruct (JS.Qlt_bool _ _); [left; reflexivity|].
  match goal with |- context [if ?b then _ else _] => destruct b end;
    [left; reflexivity|].
  cbv [Sim.randBetween bind Math_random ret].
  match goal with |- context [Sim.spawnInLane ?a ?b ?c ?d ?e] =>
    destruct (spawnInLane_vehicle a b c d e)
      as (v & E & _ & Hl & Hp & Hs & _ & _ & _ & Hf);
    destruct (Sim.spawnInLane a b c d e) as [[ident s'] w']
  end.
  cbn [fst snd] in *. injection E as _ ->. right. exists v. split_all; auto.
Qed.

(** What [spawnNewVehicles] has done to the service after it has gone
    through the lanes [visited]: the vehicles it appended are at the spawn
    point, at most one in each visited lane. *)
Definition spawnedSoFar (s : Sim.t) (visited : list (nat * TrafficLaneProfile.t))
    (s' : Sim.t) : Prop :=
  exists spawned,
    s' = Sim.set_vehicles (Sim.vehicles s ++ spawned) s
    /\ (length spawned <= length visited)%nat
    /\ Forall (fun v => Sim.positionZ v = Sim.RESPAWN_OFFSET_METERS
                        /\ Sim.speedMps v = Sim.targetSpeedMps v
                        /\ footprintOk v
                        /\ exists e, e ∈ visited /\ Sim.laneIndex v = Z.of_nat (fst e))
              spawned
    /\ NoDup (map Sim.laneIndex spawned).

Lemma set_vehicles_same (s : Sim.t) : Sim.set_vehicles (Sim.vehicles s) s = s.
Proof. destruct s; reflexivity. Qed.

Lemma imap_fst_lt {A : Type} (l : list A) (pre post : list (nat * A)) (x : nat * A) :
  imap (fun i p => (i, p)) l = pre ++ x :: post ->
  fst x = length pre /\ Forall (fun e => (fst e < length pre)%nat) pre.
Proof.
  intros H.
  assert (Hlk : forall i e, (pre ++ x :: post) !! i = Some e -> fst e = i).
  { intros i e He. rewrite <- H in He. rewrite list_lookup_imap in He.
    destruct (l !! i); cbn in He; [|discriminate]. injection He as <-. reflexivity. }
  split.
  - apply (Hlk (length pre) x). rewrite lookup_app_r by lia.
    rewrite Nat.sub_diag. reflexivity.
  - rewrite Forall_forall. intros e He. apply list_elem_of_lookup in He as [i Hi].
    pose proof (lookup_lt_Some _ _ _ Hi) as Hlt.
    rewrite (Hlk i e); [exact Hlt|]. rewrite lookup_app_l by exact Hlt. exact Hi.
Qed.

Lemma spawnNewVehicles_spawned (dt : Q) (s : Sim.t) (w : World) :
  spawnedSoFar s (imap (fun i p => (i, p)) (Sim.laneProfiles s))
    (fst (Sim.spawnNewVehicles dt s w)).
Proof.
  unfold Sim.spawnNewVehicles.
  apply (forEachM_visited (spawnedSoFar s)).
  - intros pre [lane p] post s' w' Hall (sp & -> & Hlen & Hsp & Hnd).
    destruct (imap_fst_lt _ _ _ _ Hall) as [Hlane Hpre]. cbn [fst] in Hlane.
    assert (Hsp' : Forall (fun v => Sim.positionZ v = Sim.RESPAWN_OFFSET_METERS
                        /\ Sim.speedMps v = Sim.targetSpeedMps v
                        /\ footprintOk v
                        /\ exists e, e ∈ pre ++ [(lane, p)]
                                     /\ Sim.laneIndex v = Z.of_nat (fst e)) sp).
    { eapply Forall_impl; [exact Hsp|]. cbn.
      intros v (H1 & H2 & H3 & e & He & H4). split_all; try assumption.
      exists e. split; [apply elem_of_app; left; exact He|exact H4]. }
    destruct (spawnInto_spawnedOne dt lane p
                (Sim.set_vehicles (Sim.vehicles s ++ sp) s) w')
      as [->|(v & -> & Hl & Hp & Hs & Hf)].
    + exists sp. split_all; try reflexivity; try assumption.
      rewrite length_app. cbn. lia.
    + cbn [Sim.vehicles Sim.set_vehicles] in *.
      exists (sp ++ [v]). split_all.
      * rewrite <- app_assoc. reflexivity.
      * rewrite !length_app. cbn. lia.
      * apply Forall_app. split; [exact Hsp'|].
        constructor; [|constructor]. split_all; try assumption.
        exists (lane, p). split; [|exact Hl].
        apply elem_of_app. right. apply list_elem_of_singleton. reflexivity.
      * rewrite map_app. cbn. apply NoDup_app. split; [exact Hnd|]. split.
        -- intros l Hl1 Hl2. apply list_elem_of_singleton in Hl2. subst l.
           apply list_elem_of_fmap in Hl1 as (v' & Hv' & Hin').
           rewrite Forall_forall in Hsp.
           destruct (Hsp v' Hin') as (_ & _ & _ & e & He & Hle).
           rewrite Forall_forall in Hpre. specialize (Hpre e He).
           rewrite Hl, Hle in Hv'. lia.
        -- apply NoDup_singleton.
  - exists []. rewrite app_nil_r, set_vehicles_same. split_all.
    + reflexivity.
    + cbn. lia.
    + constructor.
    + constructor.
Qed.

End TickEffects.

(** ** The tick as a whole *)

Section TickTheorems.
Import Models SpacingSpec Examples.
Local Open Scope Q_scope.

(** A vehicle as [spawnNewVehicles] creates it in a service with [n]
    lanes. *)
Definition freshlySpawned (n : nat) (v : Sim.TrafficVehicleState) : Prop :=
  Sim.positionZ v = Sim.RESPAWN_OFFSET_METERS
  /\ Sim.speedMps v = Sim.targetSpeedMps v
  /\ footprintOk v
  /\ (0 <= Sim.laneIndex v < Z.of_nat n)%Z.

Lemma elem_of_imap_fst {A : Type} (l : list A) (e : nat * A) :
  e ∈ imap (fun i p => (i, p)) l -> (fst e < length l)%nat.
Proof.
  intros He. apply list_elem_of_lookup in He as [i Hi].
  rewrite list_lookup_imap in Hi. destruct (l !! i) eqn:El; [|discriminate].
  cbn in Hi. injection Hi as <-. cbn. eapply lookup_lt_Some. exact El.
Qed.

(** A tick that advances time: the service it leaves. *)
Lemma step_shape (s : Sim.t) (now : Z) (w : World) :
  0 < Sim.tickDt s now ->
  exists spawned,
    fst (Sim.step s now w)
    = Sim.set_vehicles
        (Sim.despawn (fst (Sim.moveTraffic (Sim.tickDt s now) (Sim.set_lastTick now s) w))
         ++ spawned)
        (Sim.set_lastTick now s)
    /\ (length spawned <= length (Sim.laneProfiles s))%nat
    /\ Forall (freshlySpawned (length (Sim.laneProfiles s))) spawned
    /\ NoDup (map Sim.laneIndex spawned).
Proof.
  intros Hdt. unfold Sim.step. apply Qle_bool_false_iff in Hdt. rewrite Hdt.
  unfold Sim.stepTraffic, bind.
  destruct (Sim.moveTraffic (Sim.tickDt s now) (Sim.set_lastTick now s) w)
    as [vs' w1].
  cbn [fst snd ret].
  destruct (spawnNewVehicles_spawned (Sim.tickDt s now)
              (Sim.set_vehicles (Sim.despawn vs') (Sim.set_lastTick now s)) w1)
    as (sp & E & Hlen & Hall & Hnd).
  exists sp. rewrite E. cbn [Sim.vehicles Sim.set_vehicles Sim.set_lastTick
                               Sim.laneProfiles] in *.
  split_all; try reflexivity.
  - rewrite length_imap in Hlen. exact Hlen.
  - eapply Forall_impl; [exact Hall|]. cbn.
    intros v (H1 & H2 & H3 & e & He & H4). unfold freshlySpawned.
    refine (conj H1 (conj H2 (conj H3 _))).
    apply elem_of_imap_fst in He. lia.
  - exact Hnd.
Qed.

Lemma tickDt_positive (s : Sim.t) (now : Z) :
  0 < Sim.tickDt s now <-> (Sim.lastTick s < now)%Z.
Proof.
  unfold Sim.tickDt, JS.min.
  assert (H : 0 < inject_Z (now - Sim.lastTick s) / 1000
              <-> (Sim.lastTick s < now)%Z).
  { set (t := inject_Z (now - Sim.lastTick s)).
    assert (Et : t / 1000 == t * (1 # 1000)) by (field; discriminate).
    rewrite Et. split.
    - intros H. assert (H' : 0 < t) by lra.
      change 0 with (inject_Z 0) in H'. unfold t in H'.
      rewrite <- Zlt_Qlt in H'. lia.
    - intros H. assert (H' : 0 < t).
      { change 0 with (inject_Z 0). unfold t. rewrite <- Zlt_Qlt. lia. }
      lra. }
  rewrite <- H.
  destruct (Q.min_spec 0.5 (inject_Z (now - Sim.lastTick s) / 1000))
    as [[H1 ->]|[H1 ->]]; split; intros; lra.
Qed.

(** A tick never touches the player, the mission, the lane profiles or
    the scene, and records its clock reading as the time of the last tick.
    Its time step is the time since the last tick in seconds, capped at
    0.5 s; when the clock reading is not later than the last tick the
    vehicles are left exactly as they were. *)
Theorem step_frame (s : Sim.t) (now : Z) (w : World) :
  let s' := fst (Sim.step s now w) in
  Sim.player s' = Sim.player s
  /\ Sim.mission s' = Sim.mission s
  /\ Sim.laneProfiles s' = Sim.laneProfiles s
  /\ Sim.sceneLanes s' = Sim.sceneLanes s
  /\ Sim.lastTick s' = now
  /\ Sim.tickDt s now <= 0.5
  /\ ((now <= Sim.lastTick s)%Z -> Sim.vehicles s' = Sim.vehicles s).
Proof.
  cbn zeta.
  assert (Hcap : Sim.tickDt s now <= 0.5).
  { unfold Sim.tickDt, JS.min. apply Q.le_min_l. }
  destruct (Qlt_le_dec 0 (Sim.tickDt s now)) as [Hdt|Hdt].
  - destruct (step_shape s now w Hdt) as (sp & -> & _).
    split_all; try reflexivity; try exact Hcap.
    intros Hle. apply tickDt_positive in Hdt. lia.
  - unfold Sim.step. apply Qle_bool_iff in Hdt. rewrite Hdt.
    split_all; try reflexivity; exact Hcap.
Qed.

(** In a tick that advances time, the vehicles that stay are the old ones
    in their old order, without those that have left the corridor: the
    tick changes no id, type, behaviour, length or width, and duplicates
    no vehicle.  What it appends is freshly spawned: at most one vehicle in
    each lane, placed at -800 m, moving at its target speed, with a length
    and width from the footprint table. *)
Theorem step_population (s : Sim.t) (now : Z) (w : World) :
  0 < Sim.tickDt s now ->
  exists kept spawned,
    Sim.vehicles (fst (Sim.step s now w)) = kept ++ spawned
    /\ sublist (map identityOf kept) (map identityOf (Sim.vehicles s))
    /\ (length spawned <= length (Sim.laneProfiles s))%nat
    /\ NoDup (map Sim.laneIndex spawned)
    /\ Forall (freshlySpawned (length (Sim.laneProfiles s))) spawned.
Proof.
  intros Hdt. destruct (step_shape s now w Hdt) as (sp & -> & Hlen & Hall & Hnd).
  eexists _, sp. split; [reflexivity|]. split_all; try assumption.
  pose proof (moveTraffic_identity (Sim.tickDt s now) (Sim.set_lastTick now s) w)
    as Hid.
  cbn [Sim.vehicles Sim.set_lastTick] in Hid. rewrite <- Hid.
  apply filter_map_sublist.
Qed.

Lemma svc_tick_positive : 0 < Sim.tickDt svcTail 160.
Proof. vm_compute. reflexivity. Defined.

Lemma step_population_witness :
  exists kept spawned,
    Sim.vehicles (fst (Sim.step svcTail 160 wz)) = kept ++ spawned
    /\ sublist (map identityOf kept) (map identityOf (Sim.vehicles svcTail))
    /\ (length spawned <= 5)%nat.
Proof.
  destruct (step_population svcTail 160 wz svc_tick_positive)
    as (kept & spawned & H1 & H2 & H3 & _).
  exists kept, spawned. split; [exact H1|]. split; [exact H2|exact H3].
Defined.

(** After a tick that advances time no vehicle of the service is beyond
    the bounds of the despawn loop: no position is greater than 2200 m
    (the despawn distance), and none is less than 1.5 times the respawn
    offset, -1200 m.  The two tests are stated as the loop makes them. *)
Theorem step_vehicles_in_corridor (s : Sim.t) (now : Z) (w : World) :
  0 < Sim.tickDt s now ->
  Forall (fun v => ~ Sim.DESPAWN_DISTANCE_METERS < Sim.positionZ v
                   /\ ~ Sim.positionZ v < Sim.RESPAWN_OFFSET_METERS * 1.5)
         (Sim.vehicles (fst (Sim.step s now w))).
Proof.
  intros Hdt. destruct (step_shape s now w Hdt) as (sp & -> & _ & Hall & _).
  cbn [Sim.vehicles Sim.set_vehicles]. apply Forall_app. split.
  - rewrite Forall_forall. intros v Hv.
    unfold Sim.despawn in Hv. apply list_elem_of_In in Hv.
    apply filter_In in Hv. destruct Hv as [_ Hv]. unfold Sim.inCorridor in Hv.
    apply andb_true_iff in Hv as [H1 H2].
    apply negb_true_iff, Qlt_bool_false_iff in H1.
    apply negb_true_iff, Qlt_bool_false_iff in H2.
    split; apply Qle_not_lt; assumption.
  - eapply Forall_impl; [exact Hall|]. cbn. intros v (Hp & _).
    rewrite Hp. unfold Sim.RESPAWN_OFFSET_METERS, Sim.DESPAWN_DISTANCE_METERS.
    split; intros H; vm_compute in H; discriminate.
Qed.

Lemma step_vehicles_in_corridor_witness :
  Forall (fun v => ~ Sim.DESPAWN_DISTANCE_METERS < Sim.positionZ v
                   /\ ~ Sim.positionZ v < Sim.RESPAWN_OFFSET_METERS * 1.5)
         (Sim.vehicles (fst (Sim.step svcTail 160 wz))).
Proof. apply (step_vehicles_in_corridor svcTail 160 wz svc_tick_positive). Defined.

End TickTheorems.

(** ** Spawning and seeding *)

Section Worlds.

(** The world after some draws: the same streams, read further on. *)
Definition sameStreams (w w' : World) : Prop :=
  randoms w' = randoms w /\ uuids w' = uuids w /\ ints w' = ints w.

(** [Math.random()] answers in [[0, 1)]. *)
Definition randomsOk (w : World) : Prop :=
  forall n, (0 <= randoms w n)%Q /\ (randoms w n < 1)%Q.

Lemma sameStreams_refl (w : World) : sameStreams w w.
Proof. repeat split. Qed.

Lemma sameStreams_trans (w1 w2 w3 : World) :
  sameStreams w1 w2 -> sameStreams w2 w3 -> sameStreams w1 w3.
Proof.
  intros (H1 & H2 & H3) (K1 & K2 & K3). repeat split; congruence.
Qed.

Lemma forEachM_visited_world {A S : Type} (P : list A -> S -> World -> Prop)
    (body : A -> S -> Eff S) (all : list A) :
  (forall pre x post s w,
      all = pre ++ x :: post -> P pre s w ->
      P (pre ++ [x]) (fst (body x s w)) (snd (body x s w))) ->
  forall s w, P [] s w ->
    P all (fst (forEachM body all s w)) (snd (forEachM body all s w)).
Proof.
  intros Hbody.
  assert (H : forall xs pre s w,
             all = pre ++ xs -> P pre s w ->
             P all (fst (forEachM body xs s w)) (snd (forEachM body xs s w))).
  { induction xs as [|x xs IH]; intros pre s w Hall Hs; cbn.
    - rewrite app_nil_r in Hall. subst. exact Hs.
    - unfold bind. pose proof (Hbody pre x xs s w Hall Hs) as Hx.
      destruct (body x s w) as [s' w']. cbn [fst snd] in Hx.
      apply (IH (pre ++ [x])); [|exact Hx].
      rewrite <- app_assoc. exact Hall. }
  intros s w Hs. apply (H all [] s w); [reflexivity|exact Hs].
Qed.

End Worlds.

Section Seeding.
Import Models Examples ServiceOps.
Local Open Scope Q_scope.

Lemma spawnInLane_streams (s : Sim.t) (p : TrafficLaneProfile.t) (lane : Z)
    (input : Sim.SpawnInput.t) (w : World) :
  sameStreams w (snd (Sim.spawnInLane s p lane input w)).
Proof.
  unfold Sim.spawnInLane.
  destruct (Sim.SpawnInput.behavior input);
    cbv [bind Sim.pickRandom Sim.randBetween Math_random randomUUID ret snd];
    repeat split.
Qed.

(** [spawnVehicle] followed by [getSnapshot]: for an integer lane index of
    the road the call returns the next UUID, and the snapshot read after
    it is the snapshot read before it with one more vehicle at the end.
    That vehicle carries the returned id and the lane index, stands at the
    centre of its lane at the given [positionZ] (-800 m without one),
    and has the given type when there is one; with a [speedMph] in the
    input its speed is [mphToMps] of it and the [speedMph] it reports is
    that speed converted back by [mpsToMph]; its length and width are
    those of a randomly drawn row of the footprint table, whatever the
    type. *)
Theorem spawnVehicle_snapshot (s : Sim.t) (input : Sim.SpawnInput.t) (w : World)
    (lane : Z) (now : Z) :
  (0 <= lane < Z.of_nat (length (Sim.laneProfiles s)))%Z ->
  Sim.SpawnInput.laneIndex input = JS.Num (inject_Z lane) ->
  exists s' snap,
    fst (Sim.spawnVehicle s input w) = (Ok (uuids w (ucursor w)), s')
    /\ SimulationSnapshot.vehicles (Sim.getSnapshot s' now)
       = SimulationSnapshot.vehicles (Sim.getSnapshot s now) ++ [snap]
    /\ VehicleSnapshot.id snap = uuids w (ucursor w)
    /\ VehicleSnapshot.laneIndex snap = lane
    /\ VehicleSnapshot.position snap
       = (Sim.getLaneCenter s (inject_Z lane), 0,
          default Sim.RESPAWN_OFFSET_METERS (Sim.SpawnInput.positionZ input))
    /\ (forall mph, Sim.SpawnInput.speedMph input = Some mph ->
          VehicleSnapshot.speedMps snap = Sim.mphToMps mph
          /\ VehicleSnapshot.speedMph snap = Sim.mpsToMph (Sim.mphToMps mph))
    /\ (forall k, Sim.SpawnInput.type input = Some k -> VehicleSnapshot.type snap = k)
    /\ In (VehicleSnapshot.lengthMeters snap, VehicleSnapshot.widthMeters snap)
          (map (fun d => (snd (fst d), snd d)) Sim.VEHICLE_DIMENSIONS).
Proof.
  intros Hlane Hin. unfold Sim.spawnVehicle. rewrite Hin.
  assert (Hp : is_Some (JS.indexN (Sim.laneProfiles s) (JS.Num (inject_Z lane)))).
  { apply indexN_valid. exists lane. split; [exact Hlane|]. eauto using Qeq_refl. }
  destruct Hp as [p Hp]. rewrite Hp. cbn [Sim.numberValue]. rewrite Qfloor_Z.
  unfold bind.
  destruct (spawnInLane_vehicle s p lane input w)
    as (v & E & Hid & Hl & Hpos & _ & Hmph & Hty & _ & Hfp).
  destruct (Sim.spawnInLane s p lane input w) as [[ident s'] w'].
  cbn [fst snd ret] in *. injection E as -> ->.
  exists (Sim.set_vehicles (Sim.vehicles s ++ [v]) s), (Sim.vehicleSnapshot s v).
  rewrite Hid. split; [reflexivity|].
  unfold Sim.getSnapshot.
  cbn [SimulationSnapshot.vehicles Sim.vehicles Sim.set_vehicles].
  rewrite map_app. split; [reflexivity|].
  unfold Sim.vehicleSnapshot.
  cbn [VehicleSnapshot.id VehicleSnapshot.laneIndex VehicleSnapshot.position
       VehicleSnapshot.speedMps VehicleSnapshot.speedMph VehicleSnapshot.type
       VehicleSnapshot.lengthMeters VehicleSnapshot.widthMeters].
  rewrite Hl, Hpos.
  refine (conj Hid (conj eq_refl (conj eq_refl (conj _ (conj Hty Hfp))))).
  intros mph Hm. rewrite (Hmph mph Hm). split; reflexivity.
Qed.

Lemma spawnVehicle_snapshot_witness :
  exists s' snap,
    fst (Sim.spawnVehicle svc0 spawnLane1 w0') = (Ok "uuid-5"%string, s')
    /\ SimulationSnapshot.vehicles (Sim.getSnapshot s' 9)
       = SimulationSnapshot.vehicles (Sim.getSnapshot svc0 9) ++ [snap]
    /\ VehicleSnapshot.laneIndex snap = 1%Z.
Proof.
  destruct (spawnVehicle_snapshot svc0 spawnLane1 w0' 1 9)
    as (s' & snap & E & Hs & _ & Hl & _).
  - vm_compute. split; [discriminate|reflexivity].
  - reflexivity.
  - exists s', snap. split; [exact E|]. split; [exact Hs|exact Hl].
Defined.

(** A vehicle as [seedTraffic] places it in lane [lane] with profile [p],
    from the random numbers of world [w]. *)
Definition seeded (w : World) (p : TrafficLaneProfile.t) (lane : Z)
    (v : Sim.TrafficVehicleState) : Prop :=
  Sim.laneIndex v = lane
  /\ footprintOk v
  /\ Sim.speedMps v = Sim.targetSpeedMps v
  /\ (exists k, Sim.positionZ v = -400 + randoms w k * (900 - -400))
  /\ (exists k, Sim.speedMps v
                = Sim.mphToMps (TrafficLaneProfile.minSpeedMph p
                                + randoms w k * (TrafficLaneProfile.maxSpeedMph p
                                                 - TrafficLaneProfile.minSpeedMph p))).

Lemma seedOne_spec (p : TrafficLaneProfile.t) (lane : Z) (s : Sim.t) (w : World) :
  (exists v,
      fst (Sim.seedOne p lane s w) = Sim.set_vehicles (Sim.vehicles s ++ [v]) s
      /\ seeded w p lane v)
  /\ sameStreams w (snd (Sim.seedOne p lane s w)).
Proof.
  unfold Sim.seedOne.
  cbv [bind Sim.randBetween Sim.pickRandom Math_random ret].
  match goal with |- context [Sim.spawnInLane ?a ?b ?c ?d ?e] =>
    pose proof (spawnInLane_streams a b c d e) as Hw;
    destruct (spawnInLane_vehicle a b c d e)
      as (v & E & _ & Hl & Hpos & Hs & Hmph & _ & _ & Hfp);
    destruct (Sim.spawnInLane a b c d e) as [[ident s'] w']
  end.
  cbn [fst snd] in *. injection E as _ ->. split.
  - exists v. split; [reflexivity|]. unfold seeded.
    cbn [Sim.SpawnInput.positionZ Sim.SpawnInput.speedMph default] in *.
    split_all; try assumption.
    + eexists. exact Hpos.
    + eexists. apply Hmph. reflexivity.
  - destruct Hw as (H1 & H2 & H3). cbn in H1, H2, H3. repeat split; assumption.
Qed.

(** The number of vehicles [seedTraffic] puts in a lane:
    [max(1, round(spawnRatePerMinute / 60 * 4))], none without a profile. *)
Definition seedCountOf (profiles : list TrafficLaneProfile.t) (lane : LaneDefinition.t)
  : nat :=
  match Sim.laneProfileAt profiles (LaneDefinition.index lane) with
  | None => 0
  | Some p =>
      Z.to_nat (Qceiling (JS.max 1 (JS.round
                  (TrafficLaneProfile.spawnRatePerMinute p / 60 * 4))))
  end.

(** What seeding has appended to the vehicles of [s]. *)
Definition seededFrom (s : Sim.t) (w : World) (lanes : list LaneDefinition.t)
    (s' : Sim.t) (w' : World) : Prop :=
  sameStreams w w'
  /\ exists vs,
      s' = Sim.set_vehicles (Sim.vehicles s ++ vs) s
      /\ map Sim.laneIndex vs
         = flat_map (fun lane => replicate (seedCountOf (Sim.laneProfiles s) lane)
                                           (LaneDefinition.index lane)) lanes
      /\ Forall (fun v => exists p,
                     Sim.laneProfileAt (Sim.laneProfiles s) (Sim.laneIndex v) = Some p
                     /\ seeded w p (Sim.laneIndex v) v) vs.

Lemma seeded_streams (w w' : World) (p : TrafficLaneProfile.t) (lane : Z)
    (v : Sim.TrafficVehicleState) :
  sameStreams w w' -> seeded w' p lane v -> seeded w p lane v.
Proof.
  intros (H & _) (H1 & H2 & H3 & H4 & H5). rewrite H in H4, H5.
  unfold seeded. auto.
Qed.

Lemma seedLane_spec (lane : LaneDefinition.t) (s0 s : Sim.t) (w0 w : World)
    (done : list LaneDefinition.t) :
  seededFrom s0 w0 done s w ->
  seededFrom s0 w0 (done ++ [lane]) (fst (Sim.seedLane lane s w))
    (snd (Sim.seedLane lane s w)).
Proof.
  intros (Hw & vs & -> & Hlanes & Hall). unfold seededFrom, Sim.seedLane.
  cbn [Sim.laneProfiles Sim.set_vehicles].
  rewrite flat_map_app. cbn [flat_map]. rewrite app_nil_r.
  unfold seedCountOf at 2.
  destruct (Sim.laneProfileAt (Sim.laneProfiles s0) (LaneDefinition.index lane))
    as [p|] eqn:Ep.
  - set (n := Z.to_nat _).
    pose proof (forEachM_visited_world
                  (fun (pre : list nat) s' w' =>
                     sameStreams w0 w'
                     /\ exists vs',
                         s' = Sim.set_vehicles (Sim.vehicles s0 ++ vs ++ vs') s0
                         /\ map Sim.laneIndex vs'
                            = replicate (length pre) (LaneDefinition.index lane)
                         /\ Forall (seeded w0 p (LaneDefinition.index lane)) vs')
                  (fun _ => Sim.seedOne p (LaneDefinition.index lane))
                  (seq 0 n)) as Hloop.
    cbn beta in Hloop.
    destruct (Hloop) with (s := Sim.set_vehicles (Sim.vehicles s0 ++ vs) s0) (w := w)
      as (Hw' & vs' & E & Hl' & Hall').
    + intros pre x post s1 w1 _ (Hw1 & vs1 & -> & Hl1 & Hall1).
      destruct (seedOne_spec p (LaneDefinition.index lane)
                  (Sim.set_vehicles (Sim.vehicles s0 ++ vs ++ vs1) s0) w1)
        as [(v & -> & Hv) Hw2].
      split; [eapply sameStreams_trans; eassumption|].
      exists (vs1 ++ [v]). cbn [Sim.vehicles Sim.set_vehicles]. split_all.
      * rewrite <- !app_assoc. reflexivity.
      * rewrite map_app, Hl1, length_app. cbn [map length].
        destruct Hv as (-> & _).
        rewrite Nat.add_1_r. rewrite replicate_S_end. reflexivity.
      * apply Forall_app. split; [exact Hall1|].
        constructor; [|constructor]. eapply seeded_streams; eassumption.
    + split; [exact Hw|]. exists []. rewrite app_nil_r. split_all.
      * reflexivity.
      * reflexivity.
      * constructor.
    + split; [exact Hw'|]. exists (vs ++ vs'). rewrite E. split_all.
      * reflexivity.
      * rewrite map_app, Hlanes, Hl', length_seq. reflexivity.
      * apply Forall_app. split; [exact Hall|].
        rewrite Forall_forall in Hall'. rewrite Forall_forall. intros v Hv.
        specialize (Hall' v Hv). exists p.
        assert (Hlv : Sim.laneIndex v = LaneDefinition.index lane)
          by (destruct Hall' as (Hlv & _); exact Hlv).
        rewrite Hlv. split; [exact Ep|exact Hall'].
  - cbn [fst snd ret replicate]. rewrite app_nil_r. split; [exact Hw|].
    exists vs. split_all; [reflexivity|exact Hlanes|exact Hall].
Qed.

Lemma seedTraffic_spec (s : Sim.t) (w : World) :
  seededFrom s w (Sim.sceneLanes s) (fst (Sim.seedTraffic s w))
    (snd (Sim.seedTraffic s w)).
Proof.
  unfold Sim.seedTraffic.
  apply (forEachM_visited_world (fun pre s' w' => seededFrom s w pre s' w')).
  - intros pre lane post s1 w1 _ H. apply seedLane_spec. exact H.
  - split; [apply sameStreams_refl|]. exists []. rewrite app_nil_r, set_vehicles_same.
    split_all; [reflexivity|reflexivity|constructor].
Qed.

Lemma randBetween_range (lo hi r : Q) :
  lo <= hi -> 0 <= r -> r < 1 -> lo <= lo + r * (hi - lo) /\ lo + r * (hi - lo) <= hi.
Proof.
  intros Hle H0 H1.
  assert (Ha : 0 <= r * (hi - lo)) by (apply Qmult_le_0_compat; lra).
  assert (Hb : 0 <= (1 - r) * (hi - lo)) by (apply Qmult_le_0_compat; lra).
  split; [lra|]. assert (E : hi - (lo + r * (hi - lo)) == (1 - r) * (hi - lo)) by ring.
  lra.
Qed.

(** [resetTraffic] on a service of the US-101 scene throws the old vehicles
    away and seeds exactly one vehicle in each of the five lanes, in lane
    order.  With [Math.random()] in [[0, 1)], each of them stands between
    -400 m and 900 m, moves at its target speed, which lies inside the
    speed band of its lane, and has a length and width of the footprint
    table. *)
Theorem resetTraffic_seeds (s : Sim.t) (w : World) :
  Sim.sceneLanes s = Sim.coastal101Scene_lanes ->
  Sim.laneProfiles s = Sim.buildLaneProfiles Sim.coastal101Scene_lanes ->
  randomsOk w ->
  let vs := Sim.vehicles (fst (Sim.resetTraffic s w)) in
  map Sim.laneIndex vs = [0; 1; 2; 3; 4]%Z
  /\ Forall (fun v =>
               -400 <= Sim.positionZ v /\ Sim.positionZ v < 900
               /\ footprintOk v
               /\ Sim.speedMps v = Sim.targetSpeedMps v
               /\ exists p,
                   Sim.laneProfileAt (Sim.laneProfiles s) (Sim.laneIndex v) = Some p
                   /\ Sim.mphToMps (TrafficLaneProfile.minSpeedMph p) <= Sim.speedMps v
                   /\ Sim.speedMps v <= Sim.mphToMps (TrafficLaneProfile.maxSpeedMph p))
            vs.
Proof.
  intros Hscene Hprof Hr. cbn zeta. unfold Sim.resetTraffic.
  destruct (seedTraffic_spec (Sim.set_vehicles [] s) w)
    as (_ & vs & -> & Hlanes & Hall).
  cbn [Sim.vehicles Sim.set_vehicles Sim.laneProfiles Sim.sceneLanes app] in *.
  split.
  - rewrite Hlanes, Hscene, Hprof. vm_compute. reflexivity.
  - eapply Forall_impl; [exact Hall|]. cbn beta.
    intros v (p & Hp & Hl & Hfp & Hsp & (k & Hpos) & (k' & Hmph)).
    destruct (Hr k) as [Hk0 Hk1]. destruct (Hr k') as [Hk0' Hk1'].
    split_all; try assumption.
    + rewrite Hpos. assert (0 <= randoms w k * (900 - -400))
        by (apply Qmult_le_0_compat; [exact Hk0|discriminate]). lra.
    + rewrite Hpos. assert (E : 900 - -400 == 1300) by reflexivity.
      rewrite E. lra.
    + exists p. split; [exact Hp|].
      assert (Hsane : profileSane p).
      { pose proof (buildLaneProfiles_Forall Sim.coastal101Scene_lanes) as HF.
        rewrite <- Hprof in HF. rewrite Forall_forall in HF. apply HF.
        unfold Sim.laneProfileAt in Hp.
        destruct (0 <=? Sim.laneIndex v)%Z; [|discriminate].
        eapply list_elem_of_lookup_2. exact Hp. }
      destruct Hsane as (H1 & H2 & _).
      destruct (randBetween_range (TrafficLaneProfile.minSpeedMph p)
                  (TrafficLaneProfile.maxSpeedMph p) (randoms w k'))
        as [Ha Hb]; [lra|exact Hk0'|exact Hk1'|].
      rewrite Hmph. unfold Sim.mphToMps, Sim.MPH_TO_MPS. split.
      * apply Qmult_le_compat_r; [exact Ha|discriminate].
      * apply Qmult_le_compat_r; [exact Hb|discriminate].
Qed.

Lemma w0_randomsOk : randomsOk w0.
Proof. intros n. cbn. split; [discriminate|reflexivity]. Defined.

Lemma resetTraffic_seeds_witness :
  map Sim.laneIndex (Sim.vehicles (fst (Sim.resetTraffic svcTail w0)))
  = [0; 1; 2; 3; 4]%Z.
Proof.
  apply (resetTraffic_seeds svcTail w0); [reflexivity|reflexivity|exact w0_randomsOk].
Defined.

End Seeding.

(** ** States the live service can reach *)

Section Reachable.
Import Models MissionSpec SpacingSpec Examples ServiceOps.
Local Open Scope Q_scope.

(** The states of the service: the one its constructor builds, and those
    that follow by a spawn, a tick, a mission update, a player update or a
    traffic reset. *)
Inductive reachable : Sim.t -> Prop :=
| reach_create (now : Z) (w : World) : reachable (fst (Sim.create now w))
| reach_apply (s : Sim.t) (op : Op) (w : World) :
    reachable s -> reachable (fst (apply op s w)).

Definition serviceInv (s : Sim.t) : Prop :=
  Sim.sceneLanes s = Sim.coastal101Scene_lanes
  /\ Sim.laneProfiles s = Sim.buildLaneProfiles Sim.coastal101Scene_lanes
  /\ missionOk s
  /\ PlayerSnapshot.id (Sim.player s) = "player"%string
  /\ Forall footprintOk (Sim.vehicles s).

Lemma missionOk_ext (s s' : Sim.t) :
  Sim.mission s' = Sim.mission s -> Sim.laneProfiles s' = Sim.laneProfiles s ->
  missionOk s -> missionOk s'.
Proof.
  unfold missionOk, laneOk. intros -> ->. auto.
Qed.

Lemma seededFrom_frame (s : Sim.t) (w : World) (lanes : list LaneDefinition.t)
    (s' : Sim.t) (w' : World) :
  seededFrom s w lanes s' w' ->
  Sim.sceneLanes s' = Sim.sceneLanes s
  /\ Sim.laneProfiles s' = Sim.laneProfiles s
  /\ Sim.mission s' = Sim.mission s
  /\ Sim.player s' = Sim.player s
  /\ Sim.lastTick s' = Sim.lastTick s
  /\ (Forall footprintOk (Sim.vehicles s) -> Forall footprintOk (Sim.vehicles s')).
Proof.
  intros (_ & vs & -> & _ & Hall). split_all; try reflexivity.
  intros Hold. cbn [Sim.vehicles Sim.set_vehicles]. apply Forall_app.
  split; [exact Hold|]. eapply Forall_impl; [exact Hall|]. cbn beta.
  intros v (p & _ & _ & Hfp & _). exact Hfp.
Qed.

Lemma create_serviceInv (now : Z) (w : World) : serviceInv (fst (Sim.create now w)).
Proof.
  unfold Sim.create. cbv zeta. unfold bind.
  match goal with |- context [Sim.seedTraffic ?s0 w] =>
    set (s1 := s0);
    destruct (seededFrom_frame _ _ _ _ _ (seedTraffic_spec s1 w))
      as (H1 & H2 & H3 & H4 & _ & H6);
    destruct (Sim.seedTraffic s1 w) as [s2 w2]
  end.
  cbn [fst snd ret] in *. unfold serviceInv.
  cbn [Sim.sceneLanes Sim.laneProfiles Sim.player Sim.vehicles Sim.set_lastTick].
  rewrite H1, H2, H4. split; [reflexivity|]. split; [reflexivity|].
  split; [|split; [reflexivity|apply H6; constructor]].
  apply (missionOk_ext s1); [exact H3|exact H2|].
  unfold missionOk, s1. cbv zeta.
  cbn [Sim.mission Sim.set_mission DrivingMissionSnapshot.cruiseTargetSpeedMph
       DrivingMissionSnapshot.cruiseGapMeters DrivingMissionSnapshot.mode
       DrivingMissionSnapshot.targetLaneIndex DrivingMissionSnapshot.returnLaneIndex
       DrivingMissionSnapshot.laneChangeDirection].
  refine (conj _ (conj _ (conj _ (conj _ (conj _ _))))).
  - split; discriminate.
  - split; discriminate.
  - intros m Hm. injection Hm as <-. right. left. reflexivity.
  - intros q Hq. injection Hq as <-. exists 0%Z.
    split; [vm_compute; split; [discriminate|reflexivity]|reflexivity].
  - intros q Hq. discriminate.
  - intros d Hd. discriminate.
Qed.

Lemma footprintOk_identity (v v' : Sim.TrafficVehicleState) :
  identityOf v' = identityOf v -> footprintOk v -> footprintOk v'.
Proof.
  unfold identityOf, footprintOk. intros H Hv.
  assert (H4 : Sim.lengthMeters v' = Sim.lengthMeters v)
    by exact (f_equal (fun x => snd (fst x)) H).
  assert (H5 : Sim.widthMeters v' = Sim.widthMeters v) by exact (f_equal snd H).
  rewrite H4, H5. exact Hv.
Qed.

Lemma Forall_footprint_identity (vs vs' : Sim.Store) :
  map identityOf vs' = map identityOf vs ->
  Forall footprintOk vs -> Forall footprintOk vs'.
Proof.
  revert vs. induction vs' as [|v' vs' IH]; intros [|v vs] H Hall;
    try discriminate; constructor.
  - cbn in H. assert (Hv : identityOf v' = identityOf v) by congruence.
    apply Forall_cons in Hall as [Hv0 _].
    eapply footprintOk_identity; eassumption.
  - cbn in H.
    assert (Hrest : map identityOf vs' = map identityOf vs) by congruence.
    apply Forall_cons in Hall as [_ Hall].
    eapply IH; eassumption.
Qed.

Lemma apply_serviceInv (op : Op) (s : Sim.t) (w : World) :
  serviceInv s -> serviceInv (fst (apply op s w)).
Proof.
  intros (Hsc & Hpr & Hm & Hid & Hfp).
  destruct op as [input|now|now patch|patch|]; cbn [apply].
  - unfold bind. unfold Sim.spawnVehicle.
    destruct (JS.indexN (Sim.laneProfiles s) (Sim.SpawnInput.laneIndex input))
      as [p|]; [|cbn; unfold serviceInv; auto 10].
    unfold bind.
    match goal with |- context [Sim.spawnInLane ?a ?b ?c ?d ?e] =>
      destruct (spawnInLane_vehicle a b c d e) as (v & E & Hv);
      destruct (Sim.spawnInLane a b c d e) as [[ident s'] w']
    end.
    cbn [fst snd ret] in *. injection E as _ ->.
    unfold serviceInv. cbn [Sim.sceneLanes Sim.laneProfiles Sim.mission Sim.player
                              Sim.vehicles Sim.set_vehicles].
    split_all; try assumption.
    apply Forall_app. split; [exact Hfp|]. constructor; [|constructor]. apply Hv.
  - destruct (Qlt_le_dec 0 (Sim.tickDt s now)) as [Hdt|Hdt].
    + destruct (step_shape s now w Hdt) as (sp & -> & _ & Hall & _).
      unfold serviceInv. cbn [Sim.sceneLanes Sim.laneProfiles Sim.mission Sim.player
                                Sim.vehicles Sim.set_vehicles Sim.set_lastTick].
      split_all; try assumption. apply Forall_app. split.
      * unfold Sim.despawn.
        assert (Hmv : Forall footprintOk
                        (fst (Sim.moveTraffic (Sim.tickDt s now)
                                (Sim.set_lastTick now s) w))).
        { eapply Forall_footprint_identity; [apply moveTraffic_identity|exact Hfp]. }
        rewrite Forall_forall in Hmv |- *. intros v Hv. apply Hmv.
        apply list_elem_of_In. apply list_elem_of_In in Hv.
        apply filter_In in Hv. tauto.
      * eapply Forall_impl; [exact Hall|]. intros v Hv. apply Hv.
    + unfold Sim.step. apply Qle_bool_iff in Hdt. rewrite Hdt. cbn.
      unfold serviceInv. auto 10.
  - cbn [ret fst]. pose proof (updateMission_missionOk s now patch Hm) as Hm'.
    unfold Sim.updateMission in *.
    destruct (Sim.validateMission s now patch); cbn [snd] in *;
      unfold serviceInv; auto 10.
  - cbn [ret fst]. pose proof (updatePlayerState_id s patch) as Hid'.
    unfold serviceInv. split_all; try assumption.
    + unfold Sim.updatePlayerState.
      destruct (Sim.PlayerPatch.speedMps patch), (Sim.PlayerPatch.speedMph patch);
        exact Hsc.
    + unfold Sim.updatePlayerState.
      destruct (Sim.PlayerPatch.speedMps patch), (Sim.PlayerPatch.speedMph patch);
        exact Hpr.
    + apply (missionOk_ext s); [| |exact Hm]; unfold Sim.updatePlayerState;
        destruct (Sim.PlayerPatch.speedMps patch), (Sim.PlayerPatch.speedMph patch);
        reflexivity.
    + unfold Sim.updatePlayerState.
      destruct (Sim.PlayerPatch.speedMps patch), (Sim.PlayerPatch.speedMph patch);
        exact Hfp.
  - unfold Sim.resetTraffic.
    destruct (seededFrom_frame _ _ _ _ _ (seedTraffic_spec (Sim.set_vehicles [] s) w))
      as (H1 & H2 & H3 & H4 & _ & H6).
    unfold serviceInv. rewrite H1, H2, H4.
    split_all; try assumption.
    + apply (missionOk_ext s); assumption.
    + apply H6. constructor.
Qed.

(** In every state the live service can reach, the scene and the lane
    profiles are those of US-101 as the constructor built them, the
    mission is inside its bounds (cruise target speed in [[25, 95]] mph,
    gap in [[8, 120]] m, one of the four modes, target and return lane
    null or an integer lane index of the road, direction null, left or
    right), the player's id is [player], and every vehicle has a length
    and width of the footprint table. *)
Theorem reachable_service_invariant (s : Sim.t) :
  reachable s -> serviceInv s.
Proof.
  induction 1 as [now w|s op w _ IH].
  - apply create_serviceInv.
  - apply apply_serviceInv. exact IH.
Qed.

Lemma svc0_ticked_reachable : reachable (fst (apply (OpTick 160) svc0 w0)).
Proof. exact (reach_apply svc0 (OpTick 160) w0 (reach_create 0 w0)). Defined.

Lemma reachable_service_invariant_witness :
  serviceInv (fst (apply (OpTick 160) svc0 w0)).
Proof. exact (reachable_service_invariant _ svc0_ticked_reachable). Defined.

End Reachable.

(** ** Speeds after a tick *)

Section SpeedCap.
Import Models Examples.
Local Open Scope Q_scope.

Variable profiles : list TrafficLaneProfile.t.

(** Vehicle [v] is no faster than the top speed of the lane [v0] is in,
    scaled by the bias of [v0]'s behaviour. *)
Definition capOk (v0 v : Sim.TrafficVehicleState) : Prop :=
  forall p, Sim.laneProfileAt profiles (Sim.laneIndex v0) = Some p ->
    TrafficLaneProfile.minSpeedMph p <= TrafficLaneProfile.maxSpeedMph p ->
    Sim.speedMps v
    <= Sim.mphToMps (TrafficLaneProfile.maxSpeedMph p) * Sim.randomBias (Sim.behavior v0).

Lemma randomBias_pos (b : TrafficBehaviorProfile) : 0 <= Sim.randomBias b.
Proof. destruct b; discriminate. Qed.

Lemma band_ordered (p : TrafficLaneProfile.t) (b : TrafficBehaviorProfile) :
  TrafficLaneProfile.minSpeedMph p <= TrafficLaneProfile.maxSpeedMph p ->
  Sim.mphToMps (TrafficLaneProfile.minSpeedMph p) * Sim.randomBias b
  <= Sim.mphToMps (TrafficLaneProfile.maxSpeedMph p) * Sim.randomBias b.
Proof.
  intros H. apply Qmult_le_compat_r; [|apply randomBias_pos].
  unfold Sim.mphToMps, Sim.MPH_TO_MPS. apply Qmult_le_compat_r; [exact H|discriminate].
Qed.

(** The first loop of the tick, after it has visited the indices [pre]. *)
Definition advanced (vs0 : Sim.Store) (pre : list nat)
    (st : Sim.Store * gmap Z (list nat)) : Prop :=
  forall i v0, vs0 !! i = Some v0 ->
    exists v, fst st !! i = Some v
              /\ (i ∈ pre -> capOk v0 v)
              /\ (i ∉ pre -> v = v0).

Lemma advanceVehicle_advanced (dt : Q) (vs0 : Sim.Store) (pre : list nat) (x : nat)
    (st : Sim.Store * gmap Z (list nat)) (w : World) :
  x ∉ pre ->
  advanced vs0 pre st ->
  advanced vs0 (pre ++ [x]) (fst (Sim.advanceVehicle profiles dt x st w)).
Proof.
  intros Hx Hst. destruct st as [vs laneMap]. unfold Sim.advanceVehicle.
  assert (Hkeep : advanced vs0 pre (vs, laneMap) ->
                  (forall v0, vs0 !! x = Some v0 -> capOk v0 v0) ->
                  advanced vs0 (pre ++ [x]) (vs, laneMap)).
  { intros H Hcap i v0 Hi. destruct (H i v0 Hi) as (v & Hv & Hin & Hout).
    exists v. split; [exact Hv|]. split.
    - intros Hmem. apply elem_of_app in Hmem as [Hmem|Hmem]; [auto|].
      apply list_elem_of_singleton in Hmem. subst i.
      rewrite (Hout Hx). apply Hcap. exact Hi.
    - intros Hmem. apply Hout. intros Hp. apply Hmem, elem_of_app. left. exact Hp. }
  destruct (vs !! x) as [vehicle|] eqn:Ev.
  - destruct (Sim.laneProfileAt profiles (Sim.laneIndex vehicle)) as [lp|] eqn:Ep.
    + cbv [bind Sim.randBetween Math_random ret fst].
      intros i v0 Hi. destruct (Hst i v0 Hi) as (v & Hv & Hin & Hout).
      cbn [fst] in *. destruct (decide (i = x)) as [->|Hne].
      * rewrite Hv in Ev. injection Ev as ->. pose proof (Hout Hx) as ->.
        eexists. split; [apply list_lookup_insert_eq; eapply lookup_lt_Some; exact Hv|].
        split; [|intros Hmem; exfalso; apply Hmem, elem_of_app; right;
                 apply list_elem_of_singleton; reflexivity].
        intros _ p Hp Hle. rewrite Ep in Hp. injection Hp as <-.
        cbn [Sim.speedMps Sim.set_positionZ Sim.set_speedMps].
        apply max_min_clamp. apply band_ordered. exact Hle.
      * exists v. split; [rewrite list_lookup_insert_ne by congruence; exact Hv|].
        split.
        -- intros Hmem. apply elem_of_app in Hmem as [Hmem|Hmem]; [auto|].
           apply list_elem_of_singleton in Hmem. contradiction.
        -- intros Hmem. apply Hout. intros Hp. apply Hmem, elem_of_app. left. exact Hp.
    + cbn [ret fst]. apply Hkeep; [exact Hst|].
      intros v0 Hv0. destruct (Hst x v0 Hv0) as (v & Hv & _ & Hout).
      cbn [fst] in Hv. rewrite Hv in Ev. injection Ev as ->.
      pose proof (Hout Hx) as ->. intros p Hp. rewrite Ep in Hp. discriminate.
  - cbn [ret fst]. apply Hkeep; [exact Hst|].
    intros v0 Hv0. destruct (Hst x v0 Hv0) as (v & Hv & _).
    cbn [fst] in Hv. rewrite Hv in Ev. discriminate.
Qed.

Lemma advance_loop_capped (dt : Q) (vs0 : Sim.Store) (w : World) :
  let st := fst (forEachM (Sim.advanceVehicle profiles dt) (seq 0 (length vs0))
                          (vs0, ∅) w) in
  forall i v0, vs0 !! i = Some v0 ->
    exists v, fst st !! i = Some v /\ capOk v0 v.
Proof.
  cbn zeta.
  pose proof (forEachM_visited (advanced vs0) (Sim.advanceVehicle profiles dt)
                (seq 0 (length vs0))) as H.
  intros i v0 Hi.
  destruct (H) with (s := (vs0, ∅ : gmap Z (list nat))) (w := w) (i := i) (v0 := v0)
    as (v & Hv & Hin & _).
  - intros pre x post st w' Hall Hst. apply advanceVehicle_advanced; [|exact Hst].
    pose proof (NoDup_seq 0 (length vs0)) as Hnd. rewrite Hall in Hnd.
    apply NoDup_app in Hnd as (_ & Hd & _). intros Hp. apply (Hd x Hp).
    apply elem_of_cons. left. reflexivity.
  - intros j u Hj. exists u. split; [exact Hj|]. split; [|reflexivity].
    intros Hmem. apply elem_of_nil in Hmem. contradiction.
  - exact Hi.
  - exists v. split; [exact Hv|]. apply Hin. apply elem_of_seq.
    apply lookup_lt_Some in Hi. lia.
Qed.

(** No vehicle of [vs'] is faster than the vehicle of [vs] at its index. *)
Definition slower (vs vs' : Sim.Store) : Prop :=
  forall i v', vs' !! i = Some v' ->
    exists v, vs !! i = Some v /\ Sim.speedMps v' <= Sim.speedMps v.

Lemma slower_refl (vs : Sim.Store) : slower vs vs.
Proof. intros i v Hv. exists v. split; [exact Hv|apply Qle_refl]. Qed.

Lemma slower_trans (a b c : Sim.Store) : slower a b -> slower b c -> slower a c.
Proof.
  intros Hab Hbc i v Hv. destruct (Hbc i v Hv) as (u & Hu & H1).
  destruct (Hab i u Hu) as (t & Ht & H2). exists t. split; [exact Ht|].
  eapply Qle_trans; eassumption.
Qed.

Lemma spacingLoop_slower (minGap : Q) (rest : list nat) :
  forall (lead : nat) (vs : Sim.Store),
    slower vs (Sim.spacingLoop minGap lead rest vs).
Proof.
  induction rest as [|x rest IH]; intros lead vs; cbn [Sim.spacingLoop].
  - apply slower_refl.
  - eapply slower_trans; [|apply IH].
    destruct (vs !! lead) as [leadV|]; [|apply slower_refl].
    destruct (vs !! x) as [follower|] eqn:Ef; [|apply slower_refl].
    destruct (JS.Qlt_bool _ _); [|apply slower_refl].
    intros i v' Hv'. destruct (decide (i = x)) as [->|Hne].
    + rewrite list_lookup_insert_eq in Hv' by (eapply lookup_lt_Some; exact Ef).
      injection Hv' as <-. exists follower. split; [exact Ef|].
      cbn [Sim.speedMps Sim.set_speedMps]. apply Q.le_min_l.
    + rewrite list_lookup_insert_ne in Hv' by congruence.
      exists v'. split; [exact Hv'|apply Qle_refl].
Qed.

Lemma applySpacing_slower (laneMap : gmap Z (list nat)) (vs : Sim.Store) :
  slower vs (Sim.applySpacing profiles laneMap vs).
Proof.
  unfold Sim.applySpacing.
  apply (map_fold_weak_ind
           (fun (r : Sim.Store) (_ : gmap Z (list nat)) => slower vs r)).
  - apply slower_refl.
  - intros k l m r _ IH. unfold Sim.spaceLane.
    destruct (Sim.laneProfileAt profiles k); [|exact IH].
    destruct (Sim.sortDescending r l); [exact IH|].
    eapply slower_trans; [exact IH|apply spacingLoop_slower].
Qed.

Lemma handleLaneChanges_speeds (st : Sim.Store * gmap Z (list nat)) (w : World) :
  map Sim.speedMps (fst (fst (Sim.handleLaneChanges profiles st w)))
  = map Sim.speedMps (fst st).
Proof.
  destruct st as [vs laneMap]. unfold Sim.handleLaneChanges.
  apply (forEachM_invariant
           (fun st' : Sim.Store * gmap Z (list nat) =>
              map Sim.speedMps (fst st') = map Sim.speedMps vs)).
  - intros x st' w' H. rewrite <- H.
    apply (evaluateLaneChange_fmap Sim.speedMps); reflexivity.
  - reflexivity.
Qed.

End SpeedCap.

Section SpeedCapTick.
Import Models Examples.
Local Open Scope Q_scope.

Lemma moveTraffic_capped (dt : Q) (s : Sim.t) (w : World) (i : nat)
    (v' : Sim.TrafficVehicleState) :
  fst (Sim.moveTraffic dt s w) !! i = Some v' ->
  exists v0, Sim.vehicles s !! i = Some v0
             /\ identityOf v' = identityOf v0
             /\ capOk (Sim.laneProfiles s) v0 v'.
Proof.
  intros Hv'.
  pose proof (moveTraffic_identity dt s w) as Hid.
  assert (Hv0 : exists v0, Sim.vehicles s !! i = Some v0
                           /\ identityOf v' = identityOf v0).
  { pose proof (f_equal (fun l => l !! i) Hid) as H. cbn beta in H.
    change (map identityOf ?l) with (identityOf <$> l) in H.
    rewrite !list_lookup_fmap, Hv' in H. cbn in H.
    destruct (Sim.vehicles s !! i) as [v0|]; [|discriminate].
    exists v0. split; [reflexivity|]. cbn in H. congruence. }
  destruct Hv0 as (v0 & Hv0 & Hsame). exists v0. split; [exact Hv0|].
  split; [exact Hsame|].
  unfold Sim.moveTraffic, bind in Hv'.
  destruct (advance_loop_capped (Sim.laneProfiles s) dt (Sim.vehicles s) w i v0 Hv0)
    as (v1 & Hv1 & Hcap).
  destruct (forEachM (Sim.advanceVehicle (Sim.laneProfiles s) dt) _ _ w)
    as [st1 w1].
  pose proof (handleLaneChanges_speeds (Sim.laneProfiles s) st1 w1) as Hsp.
  destruct (Sim.handleLaneChanges (Sim.laneProfiles s) st1 w1) as [st2 w2].
  cbn [fst snd ret] in *.
  destruct (applySpacing_slower (Sim.laneProfiles s) (snd st2) (fst st2) i v' Hv')
    as (v2 & Hv2 & Hle).
  assert (E : Sim.speedMps v2 = Sim.speedMps v1).
  { pose proof (f_equal (fun l => l !! i) Hsp) as H. cbn beta in H.
    change (map Sim.speedMps ?l) with (Sim.speedMps <$> l) in H.
    rewrite !list_lookup_fmap, Hv1, Hv2 in H. cbn in H. congruence. }
  intros p Hp Hband. specialize (Hcap p Hp Hband). rewrite E in Hle.
  eapply Qle_trans; eassumption.
Qed.

(** The speed of [v] does not exceed the cap that the tick computes for
    [v0]: [mphToMps] of the maximum speed of the lane [v0] is in, times
    the bias of [v0]'s behaviour. *)
Definition notAboveCap (profiles : list TrafficLaneProfile.t)
    (v0 v : Sim.TrafficVehicleState) : Prop :=
  forall p, Sim.laneProfileAt profiles (Sim.laneIndex v0) = Some p ->
    TrafficLaneProfile.minSpeedMph p <= TrafficLaneProfile.maxSpeedMph p ->
    ~ Sim.mphToMps (TrafficLaneProfile.maxSpeedMph p) * Sim.randomBias (Sim.behavior v0)
      < Sim.speedMps v.

(** A vehicle that is in the service after a tick that advances time is
    either freshly spawned, or a vehicle that was there before the tick,
    with the same id, type, behaviour, length and width, whose speed now
    does not exceed the maximum speed of the lane it was in when the tick
    began, scaled by the bias of its behaviour (1.08 assertive, 0.92
    cautious, 1 steady) -- also when it has changed lane or has been
    slowed by the spacing pass during the tick. *)
Theorem step_speed_cap (s : Sim.t) (now : Z) (w : World)
    (v' : Sim.TrafficVehicleState) :
  0 < Sim.tickDt s now ->
  In v' (Sim.vehicles (fst (Sim.step s now w))) ->
  freshlySpawned (length (Sim.laneProfiles s)) v'
  \/ exists v0, In v0 (Sim.vehicles s)
                /\ identityOf v' = identityOf v0
                /\ notAboveCap (Sim.laneProfiles s) v0 v'.
Proof.
  intros Hdt Hin. destruct (step_shape s now w Hdt) as (sp & E & _ & Hall & _).
  rewrite E in Hin. cbn [Sim.vehicles Sim.set_vehicles] in Hin.
  apply in_app_or in Hin as [Hin|Hin].
  - right. unfold Sim.despawn in Hin. apply filter_In in Hin as [Hin _].
    apply list_elem_of_In, list_elem_of_lookup in Hin as [i Hi].
    destruct (moveTraffic_capped _ _ _ _ _ Hi) as (v0 & Hv0 & Hid & Hcap).
    exists v0. split; [|split; [exact Hid|]].
    + apply list_elem_of_In. eapply list_elem_of_lookup_2. exact Hv0.
    + intros p Hp Hband. apply Qle_not_lt. exact (Hcap p Hp Hband).
  - left. rewrite Forall_forall in Hall. apply Hall, list_elem_of_In. exact Hin.
Qed.

Lemma step_speed_cap_witness :
  exists v', In v' (Sim.vehicles (fst (Sim.step svcTail 160 wz)))
             /\ (freshlySpawned (length (Sim.laneProfiles svcTail)) v'
                 \/ exists v0, In v0 (Sim.vehicles svcTail)
                               /\ identityOf v' = identityOf v0
                               /\ notAboveCap (Sim.laneProfiles svcTail) v0 v').
Proof.
  destruct (Sim.vehicles (fst (Sim.step svcTail 160 wz))) as [|v' rest] eqn:E;
    [vm_compute in E; discriminate|].
  assert (Hin : In v' (Sim.vehicles (fst (Sim.step svcTail 160 wz))))
    by (rewrite E; left; reflexivity).
  exists v'. split; [left; reflexivity|].
  exact (step_speed_cap svcTail 160 wz v' svc_tick_positive Hin).
Defined.

End SpeedCapTick.

(** ** The RL environment *)

Section Sorting.

Context {A : Type} (le : A -> A -> bool).
Hypothesis le_total : forall a b, le a b = true \/ le b a = true.
Hypothesis le_trans : forall a b c, le a b = true -> le b c = true -> le a c = true.

Lemma insertBy_sorted (x : A) (l : list A) :
  StronglySorted (fun a b => le a b = true) l ->
  StronglySorted (fun a b => le a b = true) (insertBy le x l).
Proof using le_total le_trans.
  induction 1 as [|y l Hs IH Hy]; cbn.
  - repeat constructor.
  - destruct (le x y) eqn:E.
    + constructor; [constructor; assumption|].
      constructor; [exact E|]. eapply Forall_impl; [exact Hy|].
      intros z Hz. cbn beta in *. eapply le_trans; eassumption.
    + constructor; [exact IH|].
      assert (Hyx : le y x = true) by (destruct (le_total x y); congruence).
      rewrite Forall_forall. intros z Hz.
      rewrite (insertBy_perm le x l) in Hz. apply elem_of_cons in Hz as [->|Hz].
      * exact Hyx.
      * rewrite Forall_forall in Hy. apply Hy. exact Hz.
Qed.

Lemma sortBy_sorted (l : list A) :
  StronglySorted (fun a b => le a b = true) (sortBy le l).
Proof using le_total le_trans.
  unfold sortBy. induction l as [|x l IH]; cbn; [constructor|].
  apply insertBy_sorted. exact IH.
Qed.

End Sorting.

Section Finding.

Context {A : Type}.

(** The first element with property [p] of a list sorted by [R] comes
    before every element with that property. *)
Lemma find_sorted_first (R : A -> A -> Prop) (p : A -> bool) (l : list A) (a : A) :
  StronglySorted R l -> List.find p l = Some a ->
  In a l /\ p a = true /\ forall v, In v l -> p v = true -> v = a \/ R a v.
Proof.
  induction 1 as [|x l Hs IH Hx]; cbn; [discriminate|].
  destruct (p x) eqn:E.
  - intros H. injection H as <-. split; [left; reflexivity|]. split; [exact E|].
    intros v [<-|Hv] _; [left; reflexivity|right].
    rewrite Forall_forall in Hx. apply Hx, list_elem_of_In. exact Hv.
  - intros H. destruct (IH H) as (Hin & Hp & Hmin).
    split; [right; exact Hin|]. split; [exact Hp|].
    intros v [<-|Hv] Hpv; [congruence|]. apply Hmin; assumption.
Qed.

Lemma find_none_all (p : A -> bool) (l : list A) :
  List.find p l = None -> forall v, In v l -> p v = false.
Proof.
  induction l as [|x l IH]; cbn; [contradiction|].
  destruct (p x) eqn:E; [discriminate|].
  intros H v [<-|Hv]; [exact E|apply IH; assumption].
Qed.

Lemma StronglySorted_rev (R : A -> A -> Prop) (l : list A) :
  StronglySorted R l -> StronglySorted (fun a b => R b a) (rev l).
Proof.
  induction 1 as [|x l Hs IH Hx]; cbn; [constructor|].
  assert (H : forall l1 l2, StronglySorted (fun a b => R b a) l1 ->
                            StronglySorted (fun a b => R b a) l2 ->
                            (forall u v, In u l1 -> In v l2 -> R v u) ->
                            StronglySorted (fun a b => R b a) (l1 ++ l2)).
  { induction l1 as [|y l1 IH1]; intros l2 H1 H2 H12; cbn; [exact H2|].
    apply StronglySorted_inv in H1 as [H1 Hy]. constructor.
    - apply IH1; [exact H1|exact H2|]. intros u v Hu Hv. apply H12; [right|]; assumption.
    - apply Forall_app. split; [exact Hy|]. rewrite Forall_forall. intros v Hv.
      apply H12; [left; reflexivity|apply list_elem_of_In; exact Hv]. }
  apply H; [exact IH|repeat constructor|].
  intros u v Hu [<-|[]]. rewrite Forall_forall in Hx. apply Hx.
  apply list_elem_of_In. apply in_rev. exact Hu.
Qed.

End Finding.

Section EnvProperties.
Import Models Examples.
Local Open Scope Q_scope.

(** ** Kinematics of a step *)

Lemma moveEgo_speed_position (e : Env.t) (action : DrivingAction.t) :
  let cfg := Env.config e in
  let dt := Env.Config.timeStepSeconds cfg in
  let speed :=
    JS.max 0 (JS.min (Env.Config.maxSpeedMps cfg)
                     (Env.EgoState.speedMps (Env.ego e)
                      + Env.netAccelOf cfg action * dt)) in
  Env.EgoState.speedMps (Env.moveEgo e action) = speed
  /\ Env.EgoState.positionZ (Env.moveEgo e action)
     = Env.EgoState.positionZ (Env.ego e) + speed * dt
  /\ Env.EgoState.headingRad (Env.moveEgo e action) = Env.EgoState.headingRad (Env.ego e)
  /\ Env.EgoState.gear (Env.moveEgo e action) = Env.EgoState.gear (Env.ego e).
Proof.
  cbn zeta. unfold Env.moveEgo. cbv zeta.
  destruct (JS.Qlt_bool 0.01 _); [destruct (Qle_bool _ _)|]; repeat split.
Qed.

(** One step of the environment: the ego's speed is the old speed plus
    the net acceleration times the time step, clamped to
    [[0, maxSpeedMps]], so with a non-negative speed limit and time step
    the ego never reverses and never exceeds the limit; the position
    advances by the new speed times the time step; the episode clock
    advances by one time step; configuration, lane profiles, mission and
    episode id are left alone. *)
Theorem env_step_kinematics (e : Env.t) (now : Z) (action : DrivingAction.t) :
  let cfg := Env.config e in
  let dt := Env.Config.timeStepSeconds cfg in
  let e' := snd (Env.step e now action) in
  0 <= Env.Config.maxSpeedMps cfg ->
  0 <= dt ->
  0 <= Env.EgoState.speedMps (Env.ego e')
  /\ Env.EgoState.speedMps (Env.ego e') <= Env.Config.maxSpeedMps cfg
  /\ Env.EgoState.positionZ (Env.ego e')
     = Env.EgoState.positionZ (Env.ego e) + Env.EgoState.speedMps (Env.ego e') * dt
  /\ Env.EgoState.positionZ (Env.ego e) <= Env.EgoState.positionZ (Env.ego e')
  /\ Env.elapsedSeconds e' = Env.elapsedSeconds e + dt
  /\ Env.StepInfo.elapsedSeconds (Env.DrivingStepResult.info (fst (Env.step e now action)))
     = Env.elapsedSeconds e + dt
  /\ Env.config e' = Env.config e
  /\ Env.laneProfiles e' = Env.laneProfiles e
  /\ Env.mission e' = Env.mission e
  /\ Env.episodeId e' = Env.episodeId e.
Proof.
  cbn zeta. intros Hmax Hdt.
  destruct (moveEgo_speed_position e action) as (Hs & Hp & _). cbn zeta in Hs, Hp.
  rewrite step_ego.
  pose proof (max_min_clamp 0 (Env.Config.maxSpeedMps (Env.config e))
                (Env.EgoState.speedMps (Env.ego e)
                 + Env.netAccelOf (Env.config e) action
                   * Env.Config.timeStepSeconds (Env.config e)) Hmax) as [Hlo Hhi].
  rewrite <- Hs in Hlo, Hhi, Hp.
  split; [exact Hlo|]. split; [exact Hhi|]. split; [exact Hp|]. split.
  - rewrite Hp.
    assert (0 <= Env.EgoState.speedMps (Env.moveEgo e action)
                 * Env.Config.timeStepSeconds (Env.config e))
      by (apply Qmult_le_0_compat; assumption).
    lra.
  - repeat split.
Qed.

Lemma env_step_kinematics_witness :
  0 <= Env.EgoState.speedMps (Env.ego (snd (Env.step env0 1 brakeHard)))
  /\ Env.elapsedSeconds (snd (Env.step env0 1 brakeHard)) = 0 + 0.2.
Proof.
  destruct (env_step_kinematics env0 1 brakeHard) as (H1 & _ & _ & _ & H5 & _).
  - vm_compute. discriminate.
  - vm_compute. discriminate.
  - split; [exact H1|exact H5].
Defined.

(** The environment's traffic only coasts: after a step every vehicle is a
    vehicle of before the step, with the same id, lane, speed, length,
    width and type, moved ahead by its speed times the time step, and
    still short of the 1200 m bound; the vehicles that reached the bound
    are gone, the others keep their order, and none is added. *)
Theorem env_step_traffic (e : Env.t) (now : Z) (action : DrivingAction.t) :
  let dt := Env.Config.timeStepSeconds (Env.config e) in
  let e' := snd (Env.step e now action) in
  sublist (map Env.id (Env.traffic e')) (map Env.id (Env.traffic e))
  /\ forall v', In v' (Env.traffic e') ->
       Env.positionZ v' < 1200
       /\ exists v, In v (Env.traffic e)
                    /\ v' = Env.mkVehicle (Env.id v) (Env.laneIndex v)
                              (Env.positionZ v + Env.speedMps v * dt) (Env.speedMps v)
                              (Env.lengthMeters v) (Env.widthMeters v) (Env.type v).
Proof.
  cbn zeta. change (Env.traffic (snd (Env.step e now action)))
    with (Env.updateTraffic (Env.Config.timeStepSeconds (Env.config e)) (Env.traffic e)).
  unfold Env.updateTraffic. split.
  - set (mv := fun vehicle : Env.EnvironmentVehicle => Env.mkVehicle _ _ _ _ _ _ _).
    replace (map Env.id (Env.traffic e)) with (map Env.id (map mv (Env.traffic e)))
      by (rewrite map_map; reflexivity).
    apply filter_map_sublist.
  - intros v' Hv'. apply filter_In in Hv' as [Hin Hlt].
    apply Qlt_bool_iff in Hlt. split; [exact Hlt|].
    apply in_map_iff in Hin as (v & <- & Hv). exists v. split; [exact Hv|reflexivity].
Qed.

(** ** The reward *)

Lemma neg_abs_scaled (x c : Q) : 0 <= c -> - Qabs x * c <= 0.
Proof.
  intros Hc. pose proof (Qabs_nonneg x) as Hx.
  assert (0 <= Qabs x * c) by (apply Qmult_le_0_compat; assumption). lra.
Qed.

(** Every term of the reward except [progress] and [ruleCompliance] is a
    penalty, and [ruleCompliance] is at most 0.2: the total of a step never
    exceeds the distance covered plus 0.2, and a step with a collision
    totals at most that minus 25. *)
Theorem env_reward_upper_bound (e : Env.t) (obs : DrivingObservation.t)
    (collision : bool) (netAccel laneDelta : Q) :
  let rw := Env.computeReward e obs collision netAccel laneDelta in
  RewardBreakdown.laneKeeping rw <= 0
  /\ RewardBreakdown.comfort rw <= 0
  /\ RewardBreakdown.ruleCompliance rw <= 0.2
  /\ RewardBreakdown.cruiseTracking rw <= 0
  /\ RewardBreakdown.gapKeeping rw <= 0
  /\ RewardBreakdown.collisionPenalty rw <= 0
  /\ RewardBreakdown.total rw
     <= DrivingObservation.speedMps obs * Env.Config.timeStepSeconds (Env.config e) + 0.2
  /\ (collision = true ->
      RewardBreakdown.total rw
      <= DrivingObservation.speedMps obs * Env.Config.timeStepSeconds (Env.config e)
         + 0.2 - 25).
Proof.
  cbn zeta. unfold Env.computeReward. cbv zeta.
  cbn [RewardBreakdown.laneKeeping RewardBreakdown.comfort RewardBreakdown.ruleCompliance
       RewardBreakdown.cruiseTracking RewardBreakdown.gapKeeping
       RewardBreakdown.collisionPenalty RewardBreakdown.total].
  unfold JS.abs.
  set (laneAlignment :=
         match Env.DrivingMission.targetLaneIndex (Env.mission e) with
         | Some tl => - Qabs (tl - DrivingObservation.laneIndex obs) * 0.35
         | None => 0
         end).
  assert (Hla : laneAlignment <= 0).
  { unfold laneAlignment.
    destruct (Env.DrivingMission.targetLaneIndex (Env.mission e));
      [apply neg_abs_scaled; discriminate|apply Qle_refl]. }
  set (laneKeeping := - Qabs (DrivingObservation.laneOffsetMeters obs) * 0.1 + laneAlignment).
  assert (Hlk : laneKeeping <= 0).
  { unfold laneKeeping.
    pose proof (neg_abs_scaled (DrivingObservation.laneOffsetMeters obs) 0.1). 
    assert (0 <= 0.1) by discriminate. lra. }
  set (comfort := - Qabs netAccel * 0.05).
  assert (Hco : comfort <= 0) by (apply neg_abs_scaled; discriminate).
  set (rule := if Qle_bool _ _ then 0.2 else -0.4).
  assert (Hru : rule <= 0.2) by (unfold rule; destruct (Qle_bool _ _); discriminate).
  set (cruise := - Qabs _ * 0.04).
  assert (Hcr : cruise <= 0) by (apply neg_abs_scaled; discriminate).
  set (gapk := if JS.Qlt_bool 0 _ then _ else 0).
  assert (Hgk : gapk <= 0).
  { unfold gapk. destruct (JS.Qlt_bool 0 _); [|apply Qle_refl].
    match goal with |- context [- Qabs ?x * 0.01] =>
      pose proof (neg_abs_scaled x 0.01) as Hg end.
    assert (0 <= 0.01) by discriminate.
    destruct (JS.Qlt_bool _ _); lra. }
  set (cp := if collision then -25 else 0).
  assert (Hcp : cp <= 0) by (unfold cp; destruct collision; discriminate).
  set (ld := if JS.Qlt_bool 0.5 _ then -0.2 else 0).
  assert (Hld : ld <= 0) by (unfold ld; destruct (JS.Qlt_bool 0.5 _); discriminate).
  split; [exact Hlk|]. split; [exact Hco|]. split; [exact Hru|].
  split; [exact Hcr|]. split; [exact Hgk|]. split; [lra|]. split; [lra|].
  intros ->. unfold cp in *. lra.
Qed.

End EnvProperties.

(** ** Observations and resets of the environment *)

Section EnvObservation.
Import Models Examples.
Local Open Scope Q_scope.

Definition byPosition (a b : Env.EnvironmentVehicle) : bool :=
  Qle_bool (Env.positionZ a) (Env.positionZ b).

Lemma byPosition_total (a b : Env.EnvironmentVehicle) :
  byPosition a b = true \/ byPosition b a = true.
Proof.
  unfold byPosition. rewrite !Qle_bool_iff.
  destruct (Qlt_le_dec (Env.positionZ b) (Env.positionZ a)); [right|left]; lra.
Qed.

Lemma byPosition_trans (a b c : Env.EnvironmentVehicle) :
  byPosition a b = true -> byPosition b c = true -> byPosition a c = true.
Proof. unfold byPosition. rewrite !Qle_bool_iff. lra. Qed.

(** The vehicles of the ego's lane, as [buildObservation] sorts them. *)
Definition laneVehiclesOf (e : Env.t) : list Env.EnvironmentVehicle :=
  sortBy byPosition
    (List.filter (fun v => Env.sameLane v (Env.EgoState.laneIndex (Env.ego e)))
                 (Env.traffic e)).

Lemma laneVehiclesOf_In (e : Env.t) (v : Env.EnvironmentVehicle) :
  In v (laneVehiclesOf e)
  <-> In v (Env.traffic e)
      /\ Env.sameLane v (Env.EgoState.laneIndex (Env.ego e)) = true.
Proof.
  unfold laneVehiclesOf. split.
  - intros H. apply list_elem_of_In in H. rewrite sortBy_perm in H.
    apply list_elem_of_In, filter_In in H. exact H.
  - intros H. apply list_elem_of_In. rewrite sortBy_perm.
    apply list_elem_of_In, filter_In. exact H.
Qed.

(** [a] is the vehicle of the ego's lane that [buildObservation] reports
    ahead: strictly ahead of the ego, and no vehicle of that lane strictly
    ahead of the ego is behind it. *)
Definition leadOf (e : Env.t) (a : Env.EnvironmentVehicle) : Prop :=
  In a (Env.traffic e)
  /\ Env.sameLane a (Env.EgoState.laneIndex (Env.ego e)) = true
  /\ Env.EgoState.positionZ (Env.ego e) < Env.positionZ a
  /\ forall v, In v (Env.traffic e) ->
       Env.sameLane v (Env.EgoState.laneIndex (Env.ego e)) = true ->
       Env.EgoState.positionZ (Env.ego e) < Env.positionZ v ->
       Env.positionZ a <= Env.positionZ v.

(** The same for the vehicle reported behind. *)
Definition tailOf (e : Env.t) (b : Env.EnvironmentVehicle) : Prop :=
  In b (Env.traffic e)
  /\ Env.sameLane b (Env.EgoState.laneIndex (Env.ego e)) = true
  /\ Env.positionZ b < Env.EgoState.positionZ (Env.ego e)
  /\ forall v, In v (Env.traffic e) ->
       Env.sameLane v (Env.EgoState.laneIndex (Env.ego e)) = true ->
       Env.positionZ v < Env.EgoState.positionZ (Env.ego e) ->
       Env.positionZ v <= Env.positionZ b.

(** [buildObservation] measures the forward gap to the nearest vehicle of
    the ego's lane that is strictly ahead of the ego, from the ego's
    centre to that vehicle's centre minus half that vehicle's length (the
    ego's own length is not subtracted), and reports that vehicle's speed
    relative to the ego; without such a vehicle the gap is 120 m and the
    relative speed 0.  The rearward gap and relative speed are measured in
    the same way to the nearest vehicle strictly behind.  A vehicle level
    with the ego is on neither side. *)
Theorem buildObservation_gaps (e : Env.t) :
  let obs := Env.buildObservation e in
  let eg := Env.ego e in
  ((exists a, leadOf e a
              /\ DrivingObservation.gapAheadMeters obs
                 = Env.positionZ a - Env.EgoState.positionZ eg
                   - Env.lengthMeters a * 0.5
              /\ DrivingObservation.relativeSpeedAheadMps obs
                 = Env.speedMps a - Env.EgoState.speedMps eg)
   \/ ((forall v, In v (Env.traffic e) ->
          Env.sameLane v (Env.EgoState.laneIndex eg) = true ->
          Env.positionZ v <= Env.EgoState.positionZ eg)
       /\ DrivingObservation.gapAheadMeters obs = 120
       /\ DrivingObservation.relativeSpeedAheadMps obs = 0))
  /\ ((exists b, tailOf e b
                 /\ DrivingObservation.gapBehindMeters obs
                    = Env.EgoState.positionZ eg - Env.positionZ b
                      - Env.lengthMeters b * 0.5
                 /\ DrivingObservation.relativeSpeedBehindMps obs
                    = Env.speedMps b - Env.EgoState.speedMps eg)
      \/ ((forall v, In v (Env.traffic e) ->
             Env.sameLane v (Env.EgoState.laneIndex eg) = true ->
             Env.EgoState.positionZ eg <= Env.positionZ v)
          /\ DrivingObservation.gapBehindMeters obs = 120
          /\ DrivingObservation.relativeSpeedBehindMps obs = 0)).
Proof.
  cbn zeta. unfold Env.buildObservation. cbv zeta.
  cbn [DrivingObservation.gapAheadMeters DrivingObservation.gapBehindMeters
       DrivingObservation.relativeSpeedAheadMps
       DrivingObservation.relativeSpeedBehindMps].
  change (sortBy _ (List.filter _ (Env.traffic e))) with (laneVehiclesOf e).
  pose proof (sortBy_sorted byPosition byPosition_total byPosition_trans
                (List.filter (fun v => Env.sameLane v (Env.EgoState.laneIndex (Env.ego e)))
                             (Env.traffic e))) as Hsorted.
  change (sortBy _ _) with (laneVehiclesOf e) in Hsorted.
  split.
  - destruct (List.find _ (laneVehiclesOf e)) as [a|] eqn:Ea.
    + left. exists a.
      destruct (find_sorted_first _ _ _ _ Hsorted Ea) as (Hin & Hp & Hmin).
      apply laneVehiclesOf_In in Hin as [Hin Hlane]. apply Qlt_bool_iff in Hp.
      split; [|split; reflexivity]. unfold leadOf. split_all; try assumption.
      intros v Hv Hvl Hvp.
      destruct (Hmin v) as [->|Hle].
      * apply laneVehiclesOf_In. split; assumption.
      * apply Qlt_bool_iff. exact Hvp.
      * apply Qle_refl.
      * unfold byPosition in Hle. apply Qle_bool_iff in Hle. exact Hle.
    + right. split; [|split; reflexivity]. intros v Hv Hvl.
      pose proof (find_none_all _ _ Ea v) as H.
      apply Qlt_bool_false_iff. apply H. apply laneVehiclesOf_In. split; assumption.
  - pose proof (StronglySorted_rev _ _ Hsorted) as Hrev. cbn beta in Hrev.
    destruct (List.find _ (rev (laneVehiclesOf e))) as [b|] eqn:Eb.
    + left. exists b.
      destruct (find_sorted_first _ _ _ _ Hrev Eb) as (Hin & Hp & Hmin).
      apply in_rev, laneVehiclesOf_In in Hin as [Hin Hlane]. apply Qlt_bool_iff in Hp.
      split; [|split; reflexivity]. unfold tailOf. split_all; try assumption.
      intros v Hv Hvl Hvp.
      destruct (Hmin v) as [->|Hle].
      * apply -> in_rev. apply laneVehiclesOf_In. split; assumption.
      * apply Qlt_bool_iff. exact Hvp.
      * apply Qle_refl.
      * unfold byPosition in Hle. apply Qle_bool_iff in Hle. exact Hle.
    + right. split; [|split; reflexivity]. intros v Hv Hvl.
      pose proof (find_none_all _ _ Eb v) as H.
      apply Qlt_bool_false_iff. apply H. apply -> in_rev.
      apply laneVehiclesOf_In. split; assumption.
Qed.

End EnvObservation.

(** ** The lateral part of a step *)

Section EnvLateral.
Import Models Examples.
Local Open Scope Q_scope.

Lemma sign_pos (a : Q) : 0 < a -> JS.sign a = 1.
Proof.
  intros H. unfold JS.sign. destruct a as [n d]. unfold Qlt in H. cbn in H |- *.
  replace (Z.sgn n) with 1%Z by lia. reflexivity.
Qed.

Lemma sign_neg (a : Q) : a < 0 -> JS.sign a = -1.
Proof.
  intros H. unfold JS.sign. destruct a as [n d]. unfold Qlt in H. cbn in H |- *.
  replace (Z.sgn n) with (-1)%Z by lia. reflexivity.
Qed.

Lemma clamp_lane (top l d : Q) :
  0 <= l -> l <= top -> (d = 1 \/ d = -1) ->
  let l' := JS.max 0 (JS.min top (l + d)) in
  0 <= l' /\ l' <= top /\ Qabs (l' - l) <= 1
  /\ (d = 1 -> l <= l') /\ (d = -1 -> l' <= l).
Proof.
  intros H0 Htop Hd l'. subst l'. unfold JS.max, JS.min.
  destruct (Q.min_spec top (l + d)) as [[_ E1]|[_ E1]];
    destruct (Q.max_spec 0 (Qmin top (l + d))) as [[_ E2]|[_ E2]];
    rewrite E2; try rewrite E1;
    pose proof (Q.le_min_l top (l + d)) as Hl;
    pose proof (Q.le_min_r top (l + d)) as Hr;
    rewrite ?E1 in Hl, Hr;
    pose proof (Q.le_max_l 0 (Qmin top (l + d))) as Hm;
    pose proof (Q.le_max_r 0 (Qmin top (l + d))) as Hm';
    rewrite ?E2, ?E1 in Hm, Hm';
    (split; [lra|]); (split; [lra|]);
    (split; [apply Qabs_Qle_condition; destruct Hd as [-> | ->]; split; lra|]);
    (split; intros ->; destruct Hd as [Hd|Hd]; try discriminate; lra).
Qed.

(** The lateral motion of the ego in one step, started with the lane
    index on the road.  The lane index moves by at most one lane, and
    never away from the requested lane (that of the action, else the
    mission's target lane, else the present lane); when the requested
    lane is within 0.01 of the present one, the lane index is kept and
    the lateral offset shrinks to 0.8 of its value.  An offset below half
    a lane width (1.8 m) stays below it.  The step reports one lane
    change exactly when the lane index has changed, and none otherwise. *)
Theorem env_step_lateral_motion (e : Env.t) (now : Z) (action : DrivingAction.t) :
  let eg := Env.ego e in
  let r := Env.step e now action in
  let eg' := Env.ego (snd r) in
  let top := inject_Z (Z.of_nat (length (Env.laneProfiles e))) - 1 in
  let requested := Env.requestedLaneOf e action in
  0 <= Env.EgoState.laneIndex eg ->
  Env.EgoState.laneIndex eg <= top ->
  Qabs (Env.EgoState.laneIndex eg' - Env.EgoState.laneIndex eg) <= 1
  /\ (Env.EgoState.laneIndex eg <= requested ->
      Env.EgoState.laneIndex eg <= Env.EgoState.laneIndex eg')
  /\ (requested <= Env.EgoState.laneIndex eg ->
      Env.EgoState.laneIndex eg' <= Env.EgoState.laneIndex eg)
  /\ (Qabs (requested - Env.EgoState.laneIndex eg) <= 0.01 ->
      Env.EgoState.laneIndex eg' = Env.EgoState.laneIndex eg
      /\ Env.EgoState.laneOffset eg' = Env.EgoState.laneOffset eg * 0.8)
  /\ (Qabs (Env.EgoState.laneOffset eg) < 1.8 ->
      Qabs (Env.EgoState.laneOffset eg') < 1.8)
  /\ (Env.StepInfo.laneChanges (Env.DrivingStepResult.info (fst r)) = 1%Z
      <-> ~ Env.EgoState.laneIndex eg' == Env.EgoState.laneIndex eg)
  /\ (Env.StepInfo.laneChanges (Env.DrivingStepResult.info (fst r)) = 0%Z
      <-> Env.EgoState.laneIndex eg' == Env.EgoState.laneIndex eg).
Proof.
  intros eg r eg' top requested H0 Htop.
  assert (Hinfo :
    Env.StepInfo.laneChanges (Env.DrivingStepResult.info (fst r))
    = if Qeq_bool (Env.EgoState.laneIndex eg') (Env.EgoState.laneIndex eg)
      then 0%Z else 1%Z) by reflexivity.
  assert (Heg' : eg' = Env.moveEgo e action) by reflexivity.
  clearbody eg'. subst eg'. rewrite Hinfo. clear Hinfo r.
  assert (Hflag :
    ((if Qeq_bool (Env.EgoState.laneIndex (Env.moveEgo e action))
                  (Env.EgoState.laneIndex eg) then 0%Z else 1%Z) = 1%Z
     <-> ~ Env.EgoState.laneIndex (Env.moveEgo e action) == Env.EgoState.laneIndex eg)
    /\ ((if Qeq_bool (Env.EgoState.laneIndex (Env.moveEgo e action))
                     (Env.EgoState.laneIndex eg) then 0%Z else 1%Z) = 0%Z
        <-> Env.EgoState.laneIndex (Env.moveEgo e action) == Env.EgoState.laneIndex eg)).
  { destruct (Qeq_bool _ _) eqn:Eq.
    - apply Qeq_bool_iff in Eq. split; split; intros H; try discriminate;
        [contradiction|exact Eq|reflexivity].
    - apply Qeq_bool_neq in Eq. split; split; intros H; try discriminate;
        [exact Eq|reflexivity|contradiction]. }
  destruct Hflag as [Hone Hzero].
  assert (Hself : Qabs (Env.EgoState.laneIndex eg - Env.EgoState.laneIndex eg) <= 1).
  { assert (Hz : Env.EgoState.laneIndex eg - Env.EgoState.laneIndex eg == 0) by ring.
    rewrite Hz. vm_compute. discriminate. }
  refine (conj _ (conj _ (conj _ (conj _ (conj _ (conj Hone Hzero))))));
    clear Hone Hzero; unfold Env.moveEgo; cbv zeta; fold eg; fold requested.
  all: destruct (JS.Qlt_bool 0.01 (JS.abs (requested - Env.EgoState.laneIndex eg)))
         eqn:Ed;
    [apply Qlt_bool_iff in Ed; unfold JS.abs in Ed
    |cbn [Env.EgoState.laneIndex Env.EgoState.laneOffset]].
  (* the requested lane is the present one *)
  all: try exact Hself.
  all: try (intros _; apply Qle_refl).
  all: try (intros _; split; reflexivity).
  all: try (intros Ho; rewrite Qabs_Qmult; change (Qabs 0.8) with 0.8;
            pose proof (Qabs_nonneg (Env.EgoState.laneOffset eg)); lra).
  (* a lane is requested *)
  all: try (intros Hclose; exfalso; lra).
  all: assert (Hsign : JS.sign (requested - Env.EgoState.laneIndex eg) = 1
                       /\ Env.EgoState.laneIndex eg < requested
                       \/ JS.sign (requested - Env.EgoState.laneIndex eg) = -1
                          /\ requested < Env.EgoState.laneIndex eg)
         by (destruct (Qlt_le_dec 0 (requested - Env.EgoState.laneIndex eg)) as [Hp|Hn];
             [left; split; [apply sign_pos; exact Hp|lra]
             |right;
              assert (Hlt : requested - Env.EgoState.laneIndex eg < 0)
                by (destruct (Qlt_le_dec (requested - Env.EgoState.laneIndex eg) 0)
                      as [Hl|Hge]; [exact Hl|];
                    assert (Hz : requested - Env.EgoState.laneIndex eg == 0) by lra;
                    rewrite Hz in Ed; vm_compute in Ed; discriminate);
              split; [apply sign_neg; exact Hlt|lra]]).
  all: destruct (Qle_bool (Env.LANE_WIDTH_METERS * 0.5) _) eqn:Eo;
    cbn [Env.EgoState.laneIndex Env.EgoState.laneOffset];
    [destruct (clamp_lane top (Env.EgoState.laneIndex eg)
                 (JS.sign (requested - Env.EgoState.laneIndex eg)) H0 Htop)
       as (C1 & C2 & C3 & C4 & C5);
       [destruct Hsign as [[-> _]|[-> _]]; [left|right]; reflexivity|];
     fold top
    |apply Qle_bool_false_iff in Eo].
  all: try exact Hself.
  all: try exact C3.
  all: try (intros _; apply Qle_refl).
  all: try (intros _; vm_compute; reflexivity).
  - intros Hr. destruct Hsign as [[Hs _]|[_ Hlt]]; [apply C4; exact Hs|lra].
  - intros Hr. destruct Hsign as [[_ Hlt]|[Hs _]]; [lra|apply C5; exact Hs].
  - intros _. unfold JS.abs in Eo. eapply Qlt_le_trans; [exact Eo|].
    vm_compute. discriminate.
Qed.

Lemma env_step_lateral_motion_witness :
  Qabs (Env.EgoState.laneIndex (Env.ego (snd (Env.step env0 0 (requestLane 3))))
        - Env.EgoState.laneIndex (Env.ego env0)) <= 1
  /\ Env.EgoState.laneIndex (Env.ego env0)
     <= Env.EgoState.laneIndex (Env.ego (snd (Env.step env0 0 (requestLane 3)))).
Proof.
  destruct (env_step_lateral_motion env0 0 (requestLane 3)) as (H1 & H2 & _);
    [vm_compute; discriminate|vm_compute; discriminate|].
  split; [exact H1|]. apply H2. vm_compute. discriminate.
Defined.

End EnvLateral.

Section EnvReset.
Import Models Examples.
Local Open Scope Q_scope.

(** [reset] starts every episode from the live service: apart from the
    configuration and the lane profiles, nothing of the environment's
    previous state (traffic, ego, clock, mission, episode id) has any
    influence on the observation, the snapshot and the state it
    returns. *)
Theorem env_reset_forgets_previous_episode (e e' : Env.t) (svc : Sim.t) (now : Z)
    (goal : option Env.MissionGoal.t) (w : World) :
  Env.config e = Env.config e' ->
  Env.laneProfiles e = Env.laneProfiles e' ->
  Env.reset e svc now goal w = Env.reset e' svc now goal w.
Proof.
  destruct e as [cfg lanes tr eg el eid ms], e' as [cfg' lanes' tr' eg' el' eid' ms'].
  cbn [Env.config Env.laneProfiles]. intros <- <-. reflexivity.
Qed.

Lemma env_reset_forgets_previous_episode_witness :
  Env.reset (snd (Env.step env0 1 brakeHard)) svcTruck 5 None w0
  = Env.reset env0 svcTruck 5 None w0.
Proof.
  apply (env_reset_forgets_previous_episode (snd (Env.step env0 1 brakeHard)) env0);
    reflexivity.
Defined.

(** The vehicle of the environment that mirrors a vehicle of the live
    service. *)
Definition mirrorOf (v : Sim.TrafficVehicleState) : Env.EnvironmentVehicle :=
  Env.mkVehicle (Sim.id v) (Sim.laneIndex v) (Sim.positionZ v) (Sim.speedMps v)
                (Sim.lengthMeters v) (Sim.widthMeters v) (Sim.type v).

(** A [reset] without a goal copies the live service: the traffic is the
    service's vehicles, one for one and in order, the ego takes the
    player's lane index, speed and longitudinal position with no lateral
    offset, the clock restarts at 0, the episode id is a fresh UUID, and
    the mission is the service's mission with the cruise speed converted
    to m/s (a null target lane is replaced by the ego's lane).  The
    mission of the snapshot that [reset] returns reports that cruise
    speed converted back: [mpsToMph (mphToMps v)] for the service's [v]. *)
Theorem env_reset_mirrors_service (e : Env.t) (svc : Sim.t) (now : Z) (w : World) :
  let r := fst (Env.reset e svc now None w) in
  let e1 := snd r in
  let live := Sim.mission svc in
  Env.episodeId e1 = uuids w (ucursor w)
  /\ Env.elapsedSeconds e1 = 0
  /\ Env.traffic e1 = map mirrorOf (Sim.vehicles svc)
  /\ Env.ego e1
     = Env.EgoState.mk (PlayerSnapshot.laneIndex (Sim.player svc)) 0
         (PlayerSnapshot.speedMps (Sim.player svc))
         (snd (PlayerSnapshot.position (Sim.player svc))) 0 3
  /\ Env.DrivingMission.cruiseTargetSpeedMps (Env.mission e1)
     = Env.mphToMps (DrivingMissionSnapshot.cruiseTargetSpeedMph live)
  /\ Env.DrivingMission.cruiseGapMeters (Env.mission e1)
     = DrivingMissionSnapshot.cruiseGapMeters live
  /\ Env.DrivingMission.mode (Env.mission e1) = DrivingMissionSnapshot.mode live
  /\ Env.DrivingMission.targetLaneIndex (Env.mission e1)
     = Some (default (PlayerSnapshot.laneIndex (Sim.player svc))
                     (DrivingMissionSnapshot.targetLaneIndex live))
  /\ DrivingMissionSnapshot.cruiseTargetSpeedMph (SimulationSnapshot.mission (snd (fst r)))
     = Env.mpsToMph (Env.mphToMps (DrivingMissionSnapshot.cruiseTargetSpeedMph live))
  /\ Env.config e1 = Env.config e
  /\ Env.laneProfiles e1 = Env.laneProfiles e.
Proof.
  cbn zeta. unfold Env.reset. cbv [bind randomUUID ret fst snd].
  cbn [Env.episodeId Env.elapsedSeconds Env.traffic Env.ego Env.mission Env.config
       Env.laneProfiles].
  split; [reflexivity|]. split; [reflexivity|]. split.
  { unfold Sim.getSnapshot. cbn [SimulationSnapshot.vehicles]. rewrite map_map.
    reflexivity. }
  split; [reflexivity|].
  unfold Env.setMission, Env.loadMissionFromService, Env.snapshotMissionToDrivingMission,
    Sim.getMission.
  cbn [Env.MissionGoal.targetLaneIndex Env.MissionGoal.cruiseTargetSpeedMps
       Env.MissionGoal.cruiseGapMeters Env.MissionGoal.mode
       Env.MissionGoal.returnLaneIndex Env.MissionGoal.laneChangeDirection default
       from_option id Env.DrivingMission.targetLaneIndex].
  destruct (DrivingMissionSnapshot.targetLaneIndex (Sim.mission svc)) as [l|];
    cbn [Env.DrivingMission.cruiseTargetSpeedMps Env.DrivingMission.cruiseGapMeters
         Env.DrivingMission.mode Env.DrivingMission.targetLaneIndex default
         from_option id Env.EgoState.laneIndex];
    (split; [reflexivity|]); (split; [reflexivity|]); (split; [reflexivity|]);
    (split; [reflexivity|]); (split; [|split; reflexivity]);
    unfold Env.buildSnapshot, Env.buildMissionSnapshot;
    cbn [SimulationSnapshot.mission DrivingMissionSnapshot.cruiseTargetSpeedMph
         Env.mission Env.DrivingMission.cruiseTargetSpeedMps];
    reflexivity.
Qed.

End EnvReset.

(** ** Episode records *)

Section EpisodeRecords.
Import Models Examples.
Local Open Scope Q_scope.

Lemma step_collision_flags (e : Env.t) (now : Z) (action : DrivingAction.t) :
  let r := fst (Env.step e now action) in
  (Env.StepInfo.collisions (Env.DrivingStepResult.info r) = 0%Z
   \/ (Env.StepInfo.collisions (Env.DrivingStepResult.info r) = 1%Z
       /\ Env.DrivingStepResult.done r = true))
  /\ (Env.StepInfo.laneChanges (Env.DrivingStepResult.info r) = 0%Z
      \/ Env.StepInfo.laneChanges (Env.DrivingStepResult.info r) = 1%Z).
Proof.
  cbn zeta. unfold Env.step. cbv zeta.
  cbn [fst Env.DrivingStepResult.info Env.DrivingStepResult.done
       Env.StepInfo.collisions Env.StepInfo.laneChanges].
  split.
  - destruct (Env.detectCollision _); [right; split; reflexivity|left; reflexivity].
  - destruct (Qeq_bool _ _); [left|right]; reflexivity.
Qed.

(** The records of a rollout that starts at step number [start]. *)
Definition recordsOk (dt : Q) (fuel start : nat)
    (records : list Episode.EpisodeStepRecord.t) : Prop :=
  (length records <= fuel)%nat
  /\ (forall k r, records !! k = Some r ->
        Episode.EpisodeStepRecord.step r = (start + k)%nat
        /\ Episode.EpisodeStepRecord.timestampSeconds r
           = inject_Z (Z.of_nat (start + k + 1)) * dt
        /\ (Episode.EpisodeStepRecord.collisions r = 0%Z
            \/ (Episode.EpisodeStepRecord.collisions r = 1%Z
                /\ Episode.EpisodeStepRecord.done r = true))
        /\ (Episode.EpisodeStepRecord.laneChanges r = 0%Z
            \/ Episode.EpisodeStepRecord.laneChanges r = 1%Z)
        /\ (S k < length records -> Episode.EpisodeStepRecord.done r = false)%nat)
  /\ ((length records < fuel)%nat ->
      exists r, last records = Some r /\ Episode.EpisodeStepRecord.done r = true).

Lemma rollout_recordsOk (controller : Episode.Controller)
    (mission : Env.DrivingMission.t) (dt : Q) (clock : nat -> Z) (fuel : nat) :
  forall (start : nat) (env : Env.t) (obs : DrivingObservation.t)
         (snap : SimulationSnapshot.t),
    recordsOk dt fuel start
      (fst (fst (Episode.rollout controller mission dt clock fuel start env obs snap))).
Proof.
  induction fuel as [|fuel IH]; intros start env obs snap; cbn [Episode.rollout].
  - unfold recordsOk. simpl. split; [lia|]. split; [intros k r Hk; discriminate|intros H; lia].
  - pose proof (step_collision_flags env (clock start) (controller obs mission))
      as [Hcol Hlc]. cbn zeta in Hcol, Hlc.
    destruct (Env.step env (clock start) (controller obs mission)) as [result env'].
    cbn [fst] in Hcol, Hlc.
    destruct (Env.DrivingStepResult.done result) eqn:Ed.
    + cbn [fst]. split; [cbn; lia|]. split.
      * intros [|k] r Hk; [|discriminate]. injection Hk as <-.
        cbn [Episode.EpisodeStepRecord.step Episode.EpisodeStepRecord.timestampSeconds
             Episode.EpisodeStepRecord.collisions Episode.EpisodeStepRecord.laneChanges
             Episode.EpisodeStepRecord.done].
        rewrite Nat.add_0_r. split_all; try reflexivity.
        -- destruct Hcol as [H|[H _]]; [left; exact H|right; split; [exact H|reflexivity]].
        -- exact Hlc.
        -- cbn. lia.
      * intros _. eexists. split; reflexivity.
    + specialize (IH (S start) env' (Env.DrivingStepResult.observation result)
                     (Env.StepInfo.snapshot (Env.DrivingStepResult.info result))).
      destruct (Episode.rollout controller mission dt clock fuel (S start) env' _ _)
        as [[rest snap'] env''].
      cbn [fst] in *. destruct IH as (Hlen & Hrec & Hlast). split; [cbn; lia|]. split.
      * intros [|k] r Hk.
        -- injection Hk as <-.
           cbn [Episode.EpisodeStepRecord.step Episode.EpisodeStepRecord.timestampSeconds
                Episode.EpisodeStepRecord.collisions
                Episode.EpisodeStepRecord.laneChanges Episode.EpisodeStepRecord.done].
           rewrite Nat.add_0_r. split_all; try reflexivity.
           ++ destruct Hcol as [H|[H Hd]]; [left; exact H|congruence].
           ++ exact Hlc.
        -- cbn in Hk. destruct (Hrec k r Hk) as (H1 & H2 & H3 & H4 & H5).
           replace (start + S k)%nat with (S start + k)%nat by lia.
           split_all; try assumption. intros Hlt. apply H5. cbn in Hlt. lia.
      * intros Hlt. destruct Hlast as (r & Hr & Hd); [cbn in Hlt; lia|].
        exists r. split; [|exact Hd]. cbn [last]. 
        change (last (?x :: rest)) with (last (x :: rest)).
        rewrite last_cons, Hr. reflexivity.
Qed.

Lemma rollout_episodeId (controller : Episode.Controller)
    (mission : Env.DrivingMission.t) (dt : Q) (clock : nat -> Z) (fuel : nat) :
  forall (start : nat) (env : Env.t) (obs : DrivingObservation.t)
         (snap : SimulationSnapshot.t),
    Env.episodeId (snd (Episode.rollout controller mission dt clock fuel start env obs
                          snap))
    = Env.episodeId env.
Proof.
  induction fuel as [|fuel IH]; intros start env obs snap; cbn [Episode.rollout];
    [reflexivity|].
  assert (He : Env.episodeId (snd (Env.step env (clock start) (controller obs mission)))
               = Env.episodeId env) by reflexivity.
  destruct (Env.step env (clock start) (controller obs mission)) as [result env'].
  cbn [snd] in He.
  destruct (Env.DrivingStepResult.done result); [cbn [snd]; exact He|].
  specialize (IH (S start) env' (Env.DrivingStepResult.observation result)
                (Env.StepInfo.snapshot (Env.DrivingStepResult.info result))).
  destruct (Episode.rollout controller mission dt clock fuel (S start) env' _ _)
    as [[rest snap'] env''].
  cbn [snd] in *. congruence.
Qed.

Lemma fold_left_Zsum {T : Type} (c : T -> Z) (l : list T) (a : Z) :
  fold_left (fun sum x => (sum + c x)%Z) l a = (a + fold_left (fun sum x => (sum + c x)%Z) l 0)%Z.
Proof.
  revert a. induction l as [|x l IH]; intros a; cbn [fold_left]; [lia|].
  rewrite (IH (a + c x)%Z), (IH (0 + c x)%Z). lia.
Qed.

Lemma collisions_at_most_one (dt : Q) (fuel start : nat)
    (records : list Episode.EpisodeStepRecord.t) :
  recordsOk dt fuel start records ->
  let total :=
    fold_left (fun sum step => (sum + Episode.EpisodeStepRecord.collisions step)%Z)
              records 0%Z in
  (total = 0%Z \/ total = 1%Z)
  /\ (total = 1%Z ->
      exists r, last records = Some r
                /\ Episode.EpisodeStepRecord.collisions r = 1%Z
                /\ Episode.EpisodeStepRecord.done r = true).
Proof.
  intros (_ & Hrec & _). cbn zeta. clear fuel.
  revert start Hrec. induction records as [|r records IH]; intros start Hrec.
  - cbn. split; [left; reflexivity|discriminate].
  - cbn [fold_left]. rewrite fold_left_Zsum.
    destruct (Hrec 0%nat r eq_refl) as (_ & _ & Hc & _ & Hd).
    destruct records as [|r' records].
    + cbn [fold_left]. destruct Hc as [Hc|[Hc Hdone]]; rewrite Hc.
      * split; [left; reflexivity|discriminate].
      * split; [right; reflexivity|]. intros _. exists r.
        split; [reflexivity|]. split; assumption.
    + assert (Ec : Episode.EpisodeStepRecord.collisions r = 0%Z).
      { destruct Hc as [H|[_ Hdone]]; [exact H|].
        rewrite Hd in Hdone; [discriminate|cbn; lia]. }
      rewrite Ec.
      destruct (IH (S start)) as [H01 H1].
      { intros k x Hk. destruct (Hrec (S k) x Hk) as (H1 & H2 & H3 & H4 & H5).
        replace (S start + k)%nat with (start + S k)%nat by lia.
        split_all; try assumption. intros Hlt. apply H5. cbn in *. lia. }
      split; [destruct H01 as [->| ->]; [left|right]; reflexivity|].
      intros Hone. destruct H1 as (x & Hx & Hxc & Hxd); [lia|].
      exists x. split; [|split; assumption].
      rewrite last_cons, Hx. reflexivity.
Qed.

Lemma last_lookup_length {T : Type} (l : list T) (x : T) :
  last l = Some x -> l !! (length l - 1)%nat = Some x /\ (0 < length l)%nat.
Proof.
  intros H. rewrite last_lookup in H. destruct l; [discriminate|].
  cbn [length] in *. split; [|lia].
  replace (S (length l) - 1)%nat with (Init.Nat.pred (S (length l))) by lia. exact H.
Qed.

(** The record [simulateEpisode] returns, in terms of the reset and the
    rollout it performs. *)
Lemma simulateEpisode_shape (env : Env.t) (svc : Sim.t) (now : Z)
    (clock : nat -> Z) (options : Episode.EpisodeGenerationOptions.t) (w : World) :
  let dt := Env.Config.timeStepSeconds (Env.config env) in
  let maxSteps :=
    default (Z.to_nat (Qfloor (180 / dt)))
            (Episode.EpisodeGenerationOptions.maxSteps options) in
  let env1 :=
    snd (fst (Env.reset env svc now
                (Some (Episode.resolveMissionOverrides (Env.getMission env)
                         (Episode.EpisodeGenerationOptions.mission options))) w)) in
  exists seedv stepsL meta env2,
    fst (fst (Episode.simulateEpisode env svc now clock options w))
    = Episode.EpisodeRecord.mk (Env.getEpisodeId env2) seedv (Env.getMission env1) meta
        stepsL (Episode.computeSummary stepsL)
    /\ recordsOk dt maxSteps 0 stepsL
    /\ Env.episodeId env2 = uuids w (ucursor w)
    /\ (forall sd, Episode.EpisodeGenerationOptions.seed options = Some sd ->
          seedv = sd).
Proof.
  intros dt maxSteps env1. unfold env1. clear env1.
  unfold Episode.simulateEpisode. cbv zeta. unfold bind.
  set (g := Some (Episode.resolveMissionOverrides _ _)).
  assert (Hcfg : Env.config (snd (fst (Env.reset env svc now g w))) = Env.config env
                 /\ Env.episodeId (snd (fst (Env.reset env svc now g w)))
                    = uuids w (ucursor w)).
  { split; reflexivity. }
  destruct Hcfg as [Hc Hid].
  destruct (Env.reset env svc now g w) as [[[obs0 snap0] env1'] w1].
  cbn [fst snd] in Hc, Hid. unfold Env.getTimeStepSeconds. rewrite Hc.
  fold dt. fold maxSteps.
  pose proof (rollout_recordsOk
                (default Policy.cruiseHeuristicPolicy
                         (Episode.EpisodeGenerationOptions.controller options))
                (Env.getMission env1') dt clock maxSteps 0 env1' obs0 snap0) as Hok.
  pose proof (rollout_episodeId
                (default Policy.cruiseHeuristicPolicy
                         (Episode.EpisodeGenerationOptions.controller options))
                (Env.getMission env1') dt clock maxSteps 0 env1' obs0 snap0) as Hid2.
  destruct (Episode.rollout _ _ dt clock maxSteps 0 env1' obs0 snap0)
    as [[stepsL snapL] env2].
  cbn [fst snd] in Hok, Hid2.
  destruct (Episode.EpisodeGenerationOptions.seed options) as [sd|];
    cbv [ret randomInt fst snd];
    eexists _, stepsL, _, env2; (split; [reflexivity|]);
    (split; [exact Hok|]); (split; [congruence|]); intros sd' Hs;
    [injection Hs as <-; reflexivity|discriminate].
Qed.

(** An episode record is well formed, for options that give [maxSteps] or
    an environment whose time step is positive (the default bound,
    [floor(180 / dt)], is a number only then).  It has at most [maxSteps]
    steps (by default [floor(180 / dt)]); step [k] is numbered [k] and stamped
    [(k + 1) * dt]; every step but the last has [done = false] and no
    collision, and when the episode stopped before [maxSteps] its last
    step has [done = true].  So the summary counts at most one collision,
    and a counted collision is that of the last step; the duration of the
    summary is the number of steps times [dt].  The record carries the
    episode id drawn by [reset] and the seed of the options when there is
    one. *)
Theorem simulateEpisode_record_wellformed (env : Env.t) (svc : Sim.t) (now : Z)
    (clock : nat -> Z) (options : Episode.EpisodeGenerationOptions.t) (w : World) :
  let record := fst (fst (Episode.simulateEpisode env svc now clock options w)) in
  let steps := Episode.EpisodeRecord.steps record in
  let dt := Env.Config.timeStepSeconds (Env.config env) in
  let maxSteps :=
    default (Z.to_nat (Qfloor (180 / dt)))
            (Episode.EpisodeGenerationOptions.maxSteps options) in
  (Episode.EpisodeGenerationOptions.maxSteps options = None -> 0 < dt) ->
  recordsOk dt maxSteps 0 steps
  /\ (Episode.Summary.collisions (Episode.EpisodeRecord.summary record) = 0%Z
      \/ (Episode.Summary.collisions (Episode.EpisodeRecord.summary record) = 1%Z
          /\ exists r, last steps = Some r
                       /\ Episode.EpisodeStepRecord.collisions r = 1%Z))
  /\ Episode.Summary.durationSeconds (Episode.EpisodeRecord.summary record)
     == inject_Z (Z.of_nat (length steps)) * dt
  /\ Episode.EpisodeRecord.episodeId record = uuids w (ucursor w)
  /\ (forall sd, Episode.EpisodeGenerationOptions.seed options = Some sd ->
        Episode.EpisodeRecord.seed record = sd).
Proof.
  intros record steps dt maxSteps _.
  destruct (simulateEpisode_shape env svc now clock options w)
    as (seedv & stepsL & meta & env2 & E & Hok & Hid & Hseed).
  fold record in E.
  assert (Es : steps = stepsL) by (unfold steps; rewrite E; reflexivity).
  clearbody record steps. subst record steps.
  cbn [Episode.EpisodeRecord.steps Episode.EpisodeRecord.summary
       Episode.EpisodeRecord.episodeId Episode.EpisodeRecord.seed].
  split; [exact Hok|]. split; [|split; [|split; [exact Hid|exact Hseed]]].
  - unfold Episode.computeSummary. cbn [Episode.Summary.collisions].
    destruct (collisions_at_most_one dt maxSteps 0 stepsL Hok) as [H01 H1].
    cbn zeta in H01, H1. destruct H01 as [H0|Hone]; [left; exact H0|right].
    split; [exact Hone|]. destruct (H1 Hone) as (r & Hr & Hrc & _). eauto.
  - unfold Episode.computeSummary. cbn [Episode.Summary.durationSeconds].
    destruct (last stepsL) as [r|] eqn:El.
    + apply last_lookup_length in El as [Hl Hpos].
      destruct Hok as (_ & Hrec & _).
      destruct (Hrec _ _ Hl) as (_ & -> & _).
      replace (0 + (length stepsL - 1) + 1)%nat with (length stepsL) by lia.
      reflexivity.
    + rewrite last_None in El. subst stepsL. cbn. ring.
Qed.

(** Episodes of [env0], whose time step is 0.2 s, with the default step
    bound and the explicit seed 42. *)
Definition defaultBoundOptions : Episode.EpisodeGenerationOptions.t :=
  Episode.EpisodeGenerationOptions.mk
    (Episode.MissionOverrides.mk None None None) None (Some 42%Z)
    (Episode.EpisodeMetadata.mk "california-101" "cruise_control" None) None.

Lemma simulateEpisode_record_wellformed_witness :
  0 < Env.Config.timeStepSeconds (Env.config env0)
  /\ recordsOk (Env.Config.timeStepSeconds (Env.config env0))
       (Z.to_nat (Qfloor (180 / Env.Config.timeStepSeconds (Env.config env0)))) 0
       (Episode.EpisodeRecord.steps
          (fst (fst (Episode.simulateEpisode env0 svc0 0 (fun _ => 0%Z)
                       defaultBoundOptions w0))))
  /\ Episode.EpisodeRecord.seed
       (fst (fst (Episode.simulateEpisode env0 svc0 0 (fun _ => 0%Z)
                    defaultBoundOptions w0))) = 42%Z.
Proof.
  assert (Hdt : 0 < Env.Config.timeStepSeconds (Env.config env0))
    by (vm_compute; reflexivity).
  split; [exact Hdt|].
  destruct (simulateEpisode_record_wellformed env0 svc0 0 (fun _ => 0%Z)
              defaultBoundOptions w0 (fun _ => Hdt))
    as (Hok & _ & _ & _ & Hseed).
  split; [exact Hok|]. exact (Hseed 42%Z eq_refl).
Defined.

End EpisodeRecords.

Section EpisodeBatches.
Import Models Examples.
Local Open Scope Q_scope.

(** The mission an episode runs with.  [simulateEpisode] hands [reset] a
    goal that always carries a target lane, a cruise speed and a gap: the
    override of the options when there is one (the speed converted from
    mph), else the value of the environment's mission before the reset.
    So these three never come from the live service, whose mission
    [reset] loads first; the mode, the return lane and the lane change
    direction always do. *)
Theorem simulateEpisode_mission (env : Env.t) (svc : Sim.t) (now : Z)
    (clock : nat -> Z) (options : Episode.EpisodeGenerationOptions.t) (w : World) :
  let mission :=
    Episode.EpisodeRecord.mission
      (fst (fst (Episode.simulateEpisode env svc now clock options w))) in
  let overrides := Episode.EpisodeGenerationOptions.mission options in
  let before := Env.mission env in
  let live := Sim.mission svc in
  Env.DrivingMission.targetLaneIndex mission
  = default (Env.DrivingMission.targetLaneIndex before)
            (Episode.MissionOverrides.targetLaneIndex overrides)
  /\ Env.DrivingMission.cruiseTargetSpeedMps mission
     = match Episode.MissionOverrides.cruiseTargetSpeedMph overrides with
       | Some mph => mph * 0.44704
       | None => Env.DrivingMission.cruiseTargetSpeedMps before
       end
  /\ Env.DrivingMission.cruiseGapMeters mission
     = default (Env.DrivingMission.cruiseGapMeters before)
               (Episode.MissionOverrides.cruiseGapMeters overrides)
  /\ Env.DrivingMission.mode mission = DrivingMissionSnapshot.mode live
  /\ Env.DrivingMission.returnLaneIndex mission
     = Some (DrivingMissionSnapshot.returnLaneIndex live)
  /\ Env.DrivingMission.laneChangeDirection mission
     = Some (DrivingMissionSnapshot.laneChangeDirection live).
Proof.
  intros mission overrides before live.
  destruct (simulateEpisode_shape env svc now clock options w)
    as (seedv & stepsL & meta & env2 & E & _).
  unfold mission. rewrite E. cbn [Episode.EpisodeRecord.mission].
  unfold Env.getMission, Env.reset. cbv [bind randomUUID ret fst snd].
  cbn [Env.mission].
  unfold Env.setMission, Episode.resolveMissionOverrides, Env.loadMissionFromService,
    Env.snapshotMissionToDrivingMission, Sim.getMission.
  cbn [Env.MissionGoal.targetLaneIndex Env.MissionGoal.cruiseTargetSpeedMps
       Env.MissionGoal.cruiseGapMeters Env.MissionGoal.mode
       Env.MissionGoal.returnLaneIndex Env.MissionGoal.laneChangeDirection default
       from_option id
       Env.DrivingMission.targetLaneIndex Env.DrivingMission.cruiseTargetSpeedMps
       Env.DrivingMission.cruiseGapMeters Env.DrivingMission.mode
       Env.DrivingMission.returnLaneIndex Env.DrivingMission.laneChangeDirection].
  unfold overrides, before, live. repeat split.
Qed.

Lemma batchLoop_spec (options : Episode.EpisodeBatchOptions.t) (svcAt : nat -> Sim.t)
    (nowAt : nat -> Z) (clock : nat -> Z) (count : nat) :
  forall (i : nat) (env : Env.t) (w : World),
    let records := fst (Episode.batchLoop options svcAt nowAt clock count i env w) in
    length records = count
    /\ forall k record, records !! k = Some record ->
         forall sd,
           Episode.EpisodeGenerationOptions.seed (Episode.EpisodeBatchOptions.base options)
           = Some sd ->
           Episode.EpisodeRecord.seed record = (sd + Z.of_nat (i + k))%Z.
Proof.
  induction count as [|count IH]; intros i env w; cbn [Episode.batchLoop].
  - cbn. split; [reflexivity|]. intros k record Hk. discriminate.
  - cbn zeta. unfold bind.
    match goal with |- context [Episode.simulateEpisode env (svcAt i) (nowAt i) clock ?o w] =>
      destruct (simulateEpisode_shape env (svcAt i) (nowAt i) clock o w)
        as (seedv & stepsL & meta & env2 & E & _ & _ & Hseed);
      destruct (Episode.simulateEpisode env (svcAt i) (nowAt i) clock o w)
        as [[record env'] w']
    end.
    cbn [fst snd] in E |- *. cbn [Episode.EpisodeGenerationOptions.seed] in Hseed.
    specialize (IH (S i) env' w'). cbn zeta in IH.
    destruct (Episode.batchLoop options svcAt nowAt clock count (S i) env' w')
      as [rest w''].
    cbn [fst snd ret] in *. destruct IH as [Hlen Hrest].
    split; [cbn [length]; rewrite Hlen; reflexivity|].
    intros [|k] r Hk sd Hsd.
    + injection Hk as <-. rewrite E. cbn [Episode.EpisodeRecord.seed].
      rewrite Nat.add_0_r. apply Hseed. rewrite Hsd. reflexivity.
    + cbn in Hk. rewrite (Hrest k r Hk sd Hsd). f_equal. lia.
Qed.

(** For options that give [maxSteps], or an environment configuration
    whose time step is positive, [generateEpisodeBatch] returns exactly
    [episodeCount] records, and with a seed in the options record number
    [k] carries the seed plus [k]. *)
Theorem generateEpisodeBatch_count_and_seeds (options : Episode.EpisodeBatchOptions.t)
    (svc0 : Sim.t) (now0 : Z) (svcAt : nat -> Sim.t) (nowAt : nat -> Z)
    (clock : nat -> Z) (w : World) :
  let records :=
    fst (Episode.generateEpisodeBatch options svc0 now0 svcAt nowAt clock w) in
  (Episode.EpisodeGenerationOptions.maxSteps (Episode.EpisodeBatchOptions.base options)
   = None ->
   0 < Env.Config.timeStepSeconds
         (default Env.DEFAULT_CONFIG (Episode.EpisodeBatchOptions.envConfig options))) ->
  length records = Episode.EpisodeBatchOptions.episodeCount options
  /\ forall k record, records !! k = Some record ->
       forall sd,
         Episode.EpisodeGenerationOptions.seed (Episode.EpisodeBatchOptions.base options)
         = Some sd ->
         Episode.EpisodeRecord.seed record = (sd + Z.of_nat k)%Z.
Proof.
  cbn zeta. intros _. unfold Episode.generateEpisodeBatch, bind.
  destruct (Env.create _ svc0 now0 w) as [env w1].
  apply (batchLoop_spec options svcAt nowAt clock
           (Episode.EpisodeBatchOptions.episodeCount options) 0 env w1).
Qed.

Lemma generateEpisodeBatch_count_and_seeds_witness :
  0 < Env.Config.timeStepSeconds Env.DEFAULT_CONFIG
  /\ length
       (fst (Episode.generateEpisodeBatch
               (Episode.EpisodeBatchOptions.mk defaultBoundOptions 3 None)
               svc0 0 (fun _ => svc0) (fun _ => 0%Z) (fun _ => 0%Z) w0))
     = 3%nat.
Proof.
  assert (Hdt : 0 < Env.Config.timeStepSeconds Env.DEFAULT_CONFIG)
    by (vm_compute; reflexivity).
  split; [exact Hdt|].
  exact (proj1 (generateEpisodeBatch_count_and_seeds
                  (Episode.EpisodeBatchOptions.mk defaultBoundOptions 3 None)
                  svc0 0 (fun _ => svc0) (fun _ => 0%Z) (fun _ => 0%Z) w0
                  (fun _ => Hdt))).
Defined.

End EpisodeBatches.

(** ** The cruise heuristic *)

Section PolicyBounds.
Import Models Examples.
Local Open Scope Q_scope.

Lemma clamp_bounds (v lo hi : Q) : lo <= hi -> lo <= Policy.clamp v lo hi <= hi.
Proof. intros H. unfold Policy.clamp. apply max_min_clamp. exact H. Qed.

(** Whatever the observation, the mission and the two aggressiveness
    options, the action of the heuristic stays inside the actuator ranges:
    throttle and brake in [[0, 1]], steering in [[-1, 1]], and the
    requested lane a non-negative integer.  When the gap ahead is below a
    positive target gap the throttle is at most 0.25; otherwise throttle
    and brake are never both applied. *)
Theorem cruiseHeuristicPolicy_bounds (options : Policy.CruiseHeuristicOptions.t)
    (obs : DrivingObservation.t) (mission : Env.DrivingMission.t) :
  let action := Policy.cruiseHeuristicPolicyWith options obs mission in
  0 <= DrivingAction.acceleration action <= 1
  /\ 0 <= DrivingAction.brake action <= 1
  /\ -1 <= DrivingAction.lateral action <= 1
  /\ (exists l z, DrivingAction.requestedLaneIndex action = Some l
                  /\ l == inject_Z z /\ (0 <= z)%Z)
  /\ (0 < Env.DrivingMission.cruiseGapMeters mission ->
      DrivingObservation.gapAheadMeters obs < Env.DrivingMission.cruiseGapMeters mission ->
      DrivingAction.acceleration action <= 0.25)
  /\ (~ (0 < Env.DrivingMission.cruiseGapMeters mission
         /\ DrivingObservation.gapAheadMeters obs
            < Env.DrivingMission.cruiseGapMeters mission) ->
      DrivingAction.acceleration action == 0 \/ DrivingAction.brake action == 0).
Proof.
  cbn zeta. unfold Policy.cruiseHeuristicPolicyWith. cbv zeta.
  set (targetSpeed := if JS.Qlt_bool 0 (Env.DrivingMission.cruiseTargetSpeedMps mission)
                      then _ else _).
  set (speedError := targetSpeed - DrivingObservation.speedMps obs).
  set (acc0 := if JS.Qlt_bool 0 speedError then _ else 0).
  set (brk0 := if JS.Qlt_bool 0 speedError then 0 else _).
  assert (Hacc0 : 0 <= acc0 <= 1).
  { unfold acc0. destruct (JS.Qlt_bool 0 speedError);
      [apply clamp_bounds; discriminate|split; discriminate]. }
  assert (Hbrk0 : 0 <= brk0 <= 1).
  { unfold brk0. destruct (JS.Qlt_bool 0 speedError); [split; discriminate|].
    destruct (JS.Qlt_bool speedError 0);
      [apply clamp_bounds; discriminate|split; discriminate]. }
  assert (Hexcl : acc0 == 0 \/ brk0 == 0).
  { unfold acc0, brk0. destruct (JS.Qlt_bool 0 speedError);
      [right|left]; reflexivity. }
  set (gapTarget := if JS.Qlt_bool 0 (Env.DrivingMission.cruiseGapMeters mission)
                    then Env.DrivingMission.cruiseGapMeters mission else 0).
  assert (Hgt : JS.Qlt_bool 0 gapTarget
                && JS.Qlt_bool (DrivingObservation.gapAheadMeters obs) gapTarget = true
                <-> 0 < Env.DrivingMission.cruiseGapMeters mission
                    /\ DrivingObservation.gapAheadMeters obs
                       < Env.DrivingMission.cruiseGapMeters mission).
  { unfold gapTarget. rewrite andb_true_iff.
    destruct (JS.Qlt_bool 0 (Env.DrivingMission.cruiseGapMeters mission)) eqn:Eg.
    - rewrite !Qlt_bool_iff. reflexivity.
    - apply Qlt_bool_false_iff in Eg. rewrite !Qlt_bool_iff. split.
      + intros [H _]. exfalso. apply (Qlt_irrefl 0). exact H.
      + intros [H _]. lra. }
  destruct (JS.Qlt_bool 0 gapTarget
            && JS.Qlt_bool (DrivingObservation.gapAheadMeters obs) gapTarget) eqn:Egap;
    cbn [DrivingAction.acceleration DrivingAction.brake DrivingAction.lateral
         DrivingAction.requestedLaneIndex].
  - split.
    { unfold JS.min. destruct (Q.min_spec acc0 0.25) as [[_ ->]|[_ ->]];
        [exact Hacc0|split; discriminate]. }
    split.
    { unfold JS.max.
      match goal with |- context [Qmax brk0 ?c] =>
        assert (Hc : 0 <= c <= 1) by (apply clamp_bounds; discriminate);
        destruct (Q.max_spec brk0 c) as [[_ ->]|[_ ->]]; [exact Hc|exact Hbrk0]
      end. }
    split.
    { destruct (Qeq_bool _ 0); apply clamp_bounds; discriminate. }
    split.
    { unfold JS.max, JS.round.
      match goal with |- context [Qmax 0 (inject_Z ?z)] =>
        destruct (Q.max_spec 0 (inject_Z z)) as [[Hlt Hm]|[Hle Hm]]
      end.
      - eexists _, _. split; [reflexivity|]. split; [exact Hm|].
        change 0 with (inject_Z 0) in Hlt. rewrite <- Zlt_Qlt in Hlt. lia.
      - eexists _, 0%Z. split; [reflexivity|]. split; [exact Hm|lia]. }
    split.
    { intros _ _. unfold JS.min. apply Q.le_min_r. }
    intros Hn. exfalso. apply Hn, Hgt. reflexivity.
  - split; [exact Hacc0|]. split; [exact Hbrk0|]. split.
    { destruct (Qeq_bool _ 0); apply clamp_bounds; discriminate. }
    split.
    { unfold JS.max, JS.round.
      match goal with |- context [Qmax 0 (inject_Z ?z)] =>
        destruct (Q.max_spec 0 (inject_Z z)) as [[Hlt Hm]|[Hle Hm]]
      end.
      - eexists _, _. split; [reflexivity|]. split; [exact Hm|].
        change 0 with (inject_Z 0) in Hlt. rewrite <- Zlt_Qlt in Hlt. lia.
      - eexists _, 0%Z. split; [reflexivity|]. split; [exact Hm|lia]. }
    split.
    { intros H1 H2. assert (Ht : false = true) by (apply Hgt; split; assumption).
      discriminate. }
    intros _. exact Hexcl.
Qed.

End PolicyBounds.

(** ** The mission endpoint of the simulation controller *)

Section ApiMission.
Import Models MissionSpec Examples.
Local Open Scope Q_scope.

Variable stringToNumber : string -> JS.number.
Variable objectToNumber : Api.JsonValue -> JS.number.
Variable numberToString : JS.number -> string.
Variable objectToString : Api.JsonValue -> string.

Local Abbreviation toNumber := (Api.toNumber stringToNumber objectToNumber).
Local Abbreviation toString := (Api.toString numberToString objectToString).
Local Abbreviation buildPatch :=
  (Api.buildPatch stringToNumber objectToNumber numberToString objectToString).
Local Abbreviation handler :=
  (Api.updateMission stringToNumber objectToNumber numberToString objectToString).

(** The number the handler takes as the gap in metres: [gapMeters] when
    the body has it, else [gapCars] times 4.6. *)
Definition bodyGapMeters (body : Api.MissionBody.t) : option JS.number :=
  match Api.MissionBody.gapMeters body, Api.MissionBody.gapCars body with
  | Some v, _ => Some (toNumber v)
  | None, Some c => Some (Api.timesPositive (toNumber c) Api.CAR_LENGTH_METERS)
  | None, None => None
  end.

Lemma buildPatch_Ok (body : Api.MissionBody.t) (patch : DrivingMissionUpdate.t) :
  buildPatch body = Ok patch ->
  DrivingMissionUpdate.cruiseTargetSpeedMph patch
  = toNumber <$> Api.MissionBody.speedMph body
  /\ DrivingMissionUpdate.cruiseGapMeters patch = bodyGapMeters body
  /\ (exists src, DrivingMissionUpdate.source patch = Some src
                  /\ src <> ""%string
                  /\ src = match Api.MissionBody.source body with
                           | Some v => toString v
                           | None => "manual"%string
                           end)
  /\ (forall v, Api.MissionBody.targetLane body = Some v ->
        Api.isNullish v = true -> DrivingMissionUpdate.targetLaneIndex patch = Some None)
  /\ (Api.MissionBody.targetLane body = None ->
        DrivingMissionUpdate.targetLaneIndex patch = None).
Proof.
  unfold Api.buildPatch, bodyGapMeters, Api.gapField, Api.laneField.
  destruct body as [sp gm gc tl nt src md rl dir].
  cbn [Api.MissionBody.speedMph Api.MissionBody.gapMeters Api.MissionBody.gapCars
       Api.MissionBody.targetLane Api.MissionBody.note Api.MissionBody.source
       Api.MissionBody.mode Api.MissionBody.returnLane
       Api.MissionBody.laneChangeDirection].
  intros H.
  destruct sp as [sp|]; cbn [rbind fmap option_fmap option_map] in H |- *;
    [destruct (JS.isFinite (toNumber sp)); cbn [negb rbind] in H; [|discriminate]|];
  (destruct gm as [gm|];
     [destruct (JS.isFinite (toNumber gm)); cbn [negb rbind] in H; [|discriminate]
     |destruct gc as [gc|];
        [destruct (JS.isFinite (Api.timesPositive (toNumber gc) Api.CAR_LENGTH_METERS));
           cbn [negb rbind] in H; [|discriminate]
        |cbn [rbind] in H]]);
  (destruct tl as [tl|];
     [destruct (Api.isNullish tl) eqn:Etl; cbn [rbind] in H;
        [|destruct (JS.isInteger (toNumber tl)); cbn [negb rbind] in H; [|discriminate]]
     |cbn [rbind] in H]);
  (destruct src as [src|];
     [destruct (Sim.includes Api.validSources (toString src)) eqn:Esrc;
        cbn [negb rbind] in H; [|discriminate]
     |cbn [rbind] in H]);
  (destruct md as [md|];
     [destruct (Sim.includes Api.validModes (toString md));
        cbn [negb rbind] in H; [|discriminate]
     |cbn [rbind] in H]);
  (destruct rl as [rl|];
     [destruct (Api.isNullish rl); cbn [rbind] in H;
        [|destruct (JS.isInteger (toNumber rl)); cbn [negb rbind] in H; [|discriminate]]
     |cbn [rbind] in H]);
  (destruct dir as [dir|];
     [destruct (negb (bool_decide (toString dir = "left"%string))
                && negb (bool_decide (toString dir = "right"%string)));
        cbn [rbind] in H; [discriminate|]
     |cbn [rbind] in H]);
  (destruct nt as [[| | | s | |]|]; cbn [rbind] in H; try discriminate);
  injection H as <-;
  cbn [DrivingMissionUpdate.cruiseTargetSpeedMph DrivingMissionUpdate.cruiseGapMeters
       DrivingMissionUpdate.source DrivingMissionUpdate.targetLaneIndex];
  (split; [reflexivity|]); (split; [reflexivity|]);
  (split;
     [eexists; split; [reflexivity|]; split; [|reflexivity];
      try discriminate;
      intros Hempty; rewrite Hempty in Esrc; vm_compute in Esrc; discriminate|]);
  (split; [intros v Hv Hn; try discriminate; injection Hv as <-;
           first [reflexivity | congruence]
          |intros Hv; first [reflexivity | discriminate]]).
Qed.

Lemma buildPatch_not_200 (body : Api.MissionBody.t) (m : DrivingMissionSnapshot.t) :
  buildPatch body <> Throw (Api.Status200 m).
Proof.
  unfold Api.buildPatch, Api.gapField, Api.laneField.
  repeat match goal with
         | |- context [match ?x with _ => _ end] =>
             match type of x with
             | option _ => destruct x
             | bool => destruct x
             | Api.JsonValue => destruct x
             end; cbn [rbind negb andb]
         end; discriminate.
Qed.

(** The mission endpoint is all or nothing: when it answers [400], for a
    malformed body or because [updateMission] threw, the service is
    exactly as it was; when it answers [200], the mission it returns is
    the mission now stored, stamped with the time of the call and with
    the source of the body ([manual] without one), and nothing but the
    mission has changed. *)
Theorem api_updateMission_all_or_nothing (svc : Sim.t) (now : Z)
    (body : Api.MissionBody.t) :
  match handler svc now body with
  | (Api.Status200 m, svc') =>
      Sim.mission svc' = m
      /\ DrivingMissionSnapshot.updatedAt m = now
      /\ DrivingMissionSnapshot.source m
         = match Api.MissionBody.source body with
           | Some v => toString v
           | None => "manual"%string
           end
      /\ Sim.vehicles svc' = Sim.vehicles svc
      /\ Sim.player svc' = Sim.player svc
      /\ Sim.laneProfiles svc' = Sim.laneProfiles svc
      /\ Sim.lastTick svc' = Sim.lastTick svc
  | (_, svc') => svc' = svc
  end.
Proof.
  unfold Api.updateMission.
  destruct (buildPatch body) as [patch|reply] eqn:Ep.
  - destruct (buildPatch_Ok body patch Ep) as (_ & _ & (src & Hs & Hne & Hsrc) & _).
    unfold Sim.updateMission.
    destruct (Sim.validateMission svc now patch) as [next|err] eqn:E; [|reflexivity].
    destruct (validateMission_fields _ _ _ _ E)
      as (_ & _ & _ & _ & _ & _ & Hsource & _ & Hat).
    rewrite Hs in Hsource. split_all; try reflexivity.
    + exact Hat.
    + rewrite (Hsource Hne). exact Hsrc.
  - destruct reply; try reflexivity.
    exfalso. exact (buildPatch_not_200 _ _ Ep).
Qed.

(** The speed and the gap of an accepted request.  [speedMph] is read
    with [Number(...)], so a body with [speedMph: null] is accepted as
    speed 0, and whatever finite number comes out is clamped to
    [[25, 95]] mph.  The gap is [Number(gapMeters)], or without
    [gapMeters] the number of [gapCars] times 4.6 m; it must be positive
    and is clamped to [[8, 120]] m.  [gapCars] is not even looked at when
    [gapMeters] is present.  A field the body leaves out keeps its
    value. *)
Theorem api_updateMission_speed_and_gap (svc svc' : Sim.t) (now : Z)
    (body : Api.MissionBody.t) (m : DrivingMissionSnapshot.t) :
  handler svc now body = (Api.Status200 m, svc') ->
  match Api.MissionBody.speedMph body with
  | Some v => exists q, toNumber v = JS.Num q
                        /\ DrivingMissionSnapshot.cruiseTargetSpeedMph m = clampSpeed q
  | None => DrivingMissionSnapshot.cruiseTargetSpeedMph m
            = DrivingMissionSnapshot.cruiseTargetSpeedMph (Sim.mission svc)
  end
  /\ match bodyGapMeters body with
     | Some n => exists q, n = JS.Num q /\ 0 < q
                           /\ DrivingMissionSnapshot.cruiseGapMeters m = clampGap q
     | None => DrivingMissionSnapshot.cruiseGapMeters m
               = DrivingMissionSnapshot.cruiseGapMeters (Sim.mission svc)
     end.
Proof.
  unfold Api.updateMission.
  destruct (buildPatch body) as [patch|reply] eqn:Ep;
    [|intros H; injection H as -> _; destruct (buildPatch_not_200 _ _ Ep)].
  destruct (buildPatch_Ok body patch Ep) as (Hsp & Hgp & _).
  unfold Sim.updateMission.
  destruct (Sim.validateMission svc now patch) as [next|err] eqn:E;
    [|intros H; discriminate].
  intros H. injection H as <- _.
  pose proof (validateMission_Ok _ _ _ _ E) as (_ & Vsp & Vgp & _).
  destruct (validateMission_fields _ _ _ _ E) as (_ & Fsp & Fgp & _).
  rewrite Hsp in Fsp, Vsp. rewrite Hgp in Fgp, Vgp. split.
  - destruct (Api.MissionBody.speedMph body) as [v|]; cbn in Fsp, Vsp |- *.
    + destruct (Vsp _ eq_refl) as [q Hq]. exists q. split; [exact Hq|].
      rewrite Fsp, Hq. reflexivity.
    + exact Fsp.
  - destruct (bodyGapMeters body) as [n|].
    + destruct (Vgp _ eq_refl) as (q & Hq & Hpos). exists q.
      split; [exact Hq|]. split; [exact Hpos|]. rewrite Fgp, Hq. reflexivity.
    + exact Fgp.
Qed.

End ApiMission.

Section ApiExamples.
Import Models MissionSpec Examples.
Local Open Scope Q_scope.

(** An engine that reads no number out of a string, an array or an
    object, and prints nothing. *)
Definition noNumber : string -> JS.number := fun _ => JS.NaN.
Definition noObjectNumber : Api.JsonValue -> JS.number := fun _ => JS.NaN.
Definition noNumberString : JS.number -> string := fun _ => ""%string.
Definition noObjectString : Api.JsonValue -> string := fun _ => ""%string.

(** [{ "speedMph": null, "gapMeters": 10, "gapCars": "many" }]. *)
Definition nullSpeedBody : Api.MissionBody.t :=
  Api.MissionBody.mk (Some Api.JNull) (Some (Api.JNumber (JS.Num 10)))
    (Some (Api.JString "many")) None None None None None None.

Lemma api_updateMission_speed_and_gap_witness :
  exists m svc',
    Api.updateMission noNumber noObjectNumber noNumberString noObjectString
      svc0 7 nullSpeedBody = (Api.Status200 m, svc')
    /\ DrivingMissionSnapshot.cruiseTargetSpeedMph m = clampSpeed 0
    /\ DrivingMissionSnapshot.cruiseGapMeters m = clampGap 10.
Proof.
  eexists _, _. split; [reflexivity|].
  destruct (api_updateMission_speed_and_gap noNumber noObjectNumber noNumberString
              noObjectString svc0 _ 7 nullSpeedBody _ eq_refl) as [Hs Hg].
  cbn in Hs, Hg. destruct Hs as (q & Hq & Hs). destruct Hg as (g & Hg & _ & Hgm).
  injection Hq as <-. injection Hg as <-. split; assumption.
Defined.

End ApiExamples.
